(* ===== verification/_CoqProject ===== *)
-Q . S2P
Prelude.v
Tensor.v
Manifold.v
Exponential.v
ExponentialMetric.v
ExponentialDensity.v
NFold.v
NFoldMetric.v
Iteration.v
FiberBundle.v
ClosedCurves.v
DiscreteCurvesTests.v
DiscreteCurvesTestModule.v
