(* ===== verification/Prelude.v ===== *)
(** * A verification library for geomstats' product manifolds, exponential distributions and discrete-curves test cases

    This development models, in Rocq, the code of the geomstats sources
    under [src/] and proves the properties that make it correct.

    ** The program and its parts

    - [src/geomstats/geometry/nfold_manifold.py]: the N-fold product
      manifold [NFoldManifold] of [n_copies] copies of a base manifold,
      and its product metric [NFoldMetric] with optional per-copy
      [scales].  Every operation follows one pattern: broadcast the
      arguments, read the batch shape ([get_batch_shape]), reshape the
      array to [(-1, *base_shape)] so that the copies become batch
      entries, call the base manifold or metric ONCE, and reshape the
      answer back, reducing over the copies axis with [gs.all] or
      [gs.sum] when the operation returns one value per point.
      [geodesic] validates its arguments and returns a path, a function
      of the times that goes through [exp].
    - [src/geomstats/information_geometry/exponential.py]: the manifold
      [ExponentialDistributions] of rates of exponential laws (the open
      half line, points of shape [(1,)]) and its Fisher metric
      [ExponentialMetric], whose [exp], [log], [squared_dist] and
      geodesics are closed forms in [exp], [ln] and powers.
    - [src/geomstats/test_cases/geometry/discrete_curves.py]: the test
      cases [ClosedDiscreteCurvesTestCase] (projection on closed curves,
      [srv_projection]) and [SRVShapeBundleTestCase] (horizontal and
      vertical projections, horizontal geodesics) of the discrete-curves
      shape space.  The shape space they exercise (the SRV shape bundle
      and the closed-curve projector, specification sections 4.4 and
      4.5) is not under [src/]: it is modelled from the specification as
      interfaces with laws, and the tests are proved against them.
    - [src/tests/tests_geomstats/test_geometry/test_discrete_curves.py]:
      the test module: fixtures, parametrised by [(dim, k_sampling_points)]
      pairs drawn with [random.randint] at import, set the spaces, bundle
      and sphere the test classes run on.

    The product construction calls its base only through the manifold and
    metric contract (specification, section 4.1); the exponential
    distributions are one base that implements it, and the product of a
    product is another.  The array runtime ([geomstats.backend], numpy),
    the base classes [Manifold] and [RiemannianMetric], [get_batch_shape]
    and the validators of [geomstats.errors] are not under [src/]: they
    are modelled from the specification and numpy's documented behaviour.

    ** Files, modules and how they correspond to the code

    - [Prelude] (this file): the exceptions the code raises ([error]:
      [ValueError], [NotImplementedError], [RuntimeError], [IndexError],
      [AttributeError]),
      the result monad [result] with its notation [x <- c ;; k] in
      [geom_scope], the [Scalar] interface of the numbers the arrays hold
      and its laws [ScalarLaws] (instances at [Z] and [R]), the block splitting
      [chunk] of a row-major buffer with the regrouping lemmas every
      flatten-and-delegate proof uses, and the hint databases [geom] and
      [geom_rw].
    - [Tensor]: an array is a [tensor] (shape and flat buffer).  The numpy
      operations the code calls: [reshape] and [reshape_infer] (the [-1]
      form), [broadcast_to], [broadcast_arrays2]/[3] and the binary
      [elementwise2], [all_last]/[sum_last] ([axis=-1]), the einsum
      scalings [einsum_scale_last], [einsum_scale_blocks],
      [einsum_scalar_lead], [squeeze], [squeeze_axis0], [stack],
      [unstack], [allclose], and the batch-shape resolver
      [get_batch_shape] (specification, section 4.2).
    - [Manifold]: the contract as the classes [Manifold] and
      [RiemannianMetric] (the batched operations) and [ManifoldLaws] and
      [MetricLaws] (on a batch of shape [(m, *shape)] each operation is a
      point-wise operation applied to the [m] blocks of the buffer).  The
      product is proved against these classes; each base discharges them.
      Random draws come from an explicit generator state [rng].
    - [Exponential], Module [ExponentialDistributions]:
      [ExponentialDistributions.belongs], [random_point], [projection]
      and the inherited [OpenSet] tangent operations, generic in the
      scalar; [Exponential_Manifold] is the class instance, with the
      argument convention of the product's call of [random_point];
      [Exponential_ManifoldLaws] discharges the laws; [random_point] is
      also stated at real bounds.
    - [ExponentialMetric], Module [ExponentialMetric]: every method of the
      class over the real numbers [R] ([squared_dist], [metric_matrix],
      the inherited [inner_product], [_geodesic_path], [_geodesic_ivp],
      [_geodesic_bvp], [exp], [log]); [Exponential_Metric] and
      [Exponential_MetricLaws] make it a base metric, which
      [ExponentialDistributions.default_metric] ([default_metric]) returns
      and [__init__(equip=True)] installs ([equipped_metric]).
    - [ExponentialDensity], Module [ExponentialDistributionsPdf]:
      [point_to_pdf] at real rates.
    - [NFold], Module [NFoldManifold]: [init] ([__init__] with
      [check_integer]), [belongs], [is_tangent], [to_tangent],
      [random_point], [projection]; [NFold_Manifold] makes the product a
      [Manifold] and [NFold_ManifoldLaws] proves it satisfies the laws
      it requires of its base (for [n_copies > 0]).
    - [NFoldMetric], Module [NFoldMetric]: [init] ([__init__] with
      [check_positive]), [metric_matrix], [inner_product], [exp], [log],
      [geodesic] with [path_times] and [_path_single], and the inherited
      default [squared_dist]; [NFold_Metric]
      and [NFold_MetricLaws] make the product metric a base metric when
      its [metric_matrix] succeeds.
    - [ExponentialDensity] also holds Module
      [ExponentialDistributionsRandomVariable]: [init] ([__init__]: the
      sampler, density and [_flatten_params] handed to the base class),
      [_flatten_params] (the scale [1 / point] handed to scipy), scipy's
      [expon_pdf] and [expon_rvs] (inversion of a uniform draw) and the
      base class's [rvs] (record [ScipyUnivariateRandomVariable]); and
      Module [ExponentialDistributionsSampling]: [sample], which calls
      [rvs] on the random variable the constructor builds.
    - [Iteration]: [iterate_until], the bounded loop of the iterative
      solvers (test, correct, at most [max_iter] times), with its
      characterisation and its convergence under a contraction.
    - [FiberBundle]: the interface [FiberBundle] of the shape bundle
      (total-space inner product, vertical directions, geodesic,
      alignment step) with its laws [FiberBundleLaws], and Module
      [ShapeBundle] with [vertical_projection], [vertical_norms],
      [horizontal_projection], [aligned_end_point] and
      [horizontal_geodesic]; [Plane_bundle] is a lawful instance.
    - [ClosedCurves]: the space [ClosedDiscreteCurves] (ambient manifold,
      sampling points), the projector interface [ClosedCurveProjector]
      and Module [ClosedDiscreteCurves] with [srv_projection].
    - [DiscreteCurvesTestModule]: the module's fixture parameters
      ([randint], one [..._fixture_params] per decorator, drawn in order
      by [import_test_module] from an explicit generator state), its
      fixtures ([closed_discrete_curves_spaces], [shape_bundles], ...),
      the spaces each class bound by [usefixtures] runs on
      ([TestClosedDiscreteCurves_spaces], ...), the classes'
      [setup_method]s and skip marks, and [pytest_run], pytest's run of
      one test.
    - [DiscreteCurvesTests]: the test harness ([outcome],
      [assertAllClose], [linspace], [_test_vectorization], the data
      generator with an explicit [rng]), Module
      [ClosedDiscreteCurvesTestCase] and Module [SRVShapeBundleTestCase]
      with every method of the two classes.

    ** What the theorems show

    - Refinement of the flatten-and-delegate implementation by the
      per-copy specification: a product point belongs iff every copy
      belongs ([belongs_spec]), tangency and tangent projection act copy
      by copy ([is_tangent_spec], [to_tangent_spec]), the product inner
      product is the scaled sum of the per-copy inner products
      ([inner_product_spec], metric additivity), and so is its squared
      distance, the default [squared_dist] composed of the product [log]
      and [inner_product] ([squared_dist_additive]); [metric_matrix] stacks
      the scaled base matrices ([metric_matrix_spec]), [exp] and [log]
      act copy by copy ([exp_log_copywise]); and the product satisfies
      the contract it consumes ([NFold_ManifoldLaws], [NFold_MetricLaws]).
    - Round trips and invariants: the product inherits the base's exp/log
      round trip ([exp_log_roundtrip_nfold]) and idempotent tangent
      projection ([to_tangent_idempotent]); the exponential metric's
      [exp] and [log] are inverse ([exp_log_roundtrip],
      [log_exp_roundtrip]); its projection clips into the set and is
      idempotent ([projection_clips]).
    - Geodesics: the product geodesic from [p] to [q] is at [p] at time 0
      and at [q] at time 1 ([geodesic_endpoints]), also on a batch of
      points, one path per point ([geodesic_batch_endpoints]); the exponential
      metric's closed-form geodesics are the exponential map along a ray
      ([geodesic_ivp_is_exp]), join their end points
      ([geodesic_bvp_endpoints]) and have constant speed
      ([geodesic_constant_speed]); its closed-form distance agrees with
      the default distance of the contract ([squared_dist_closed_form]).
    - Samples and densities: [random_point] draws in
      [[lower_bound, upper_bound)] ([random_point_range]) and
      [point_to_pdf] is the density of the law whose rate is the point
      ([point_to_pdf_is_rate_density]).
    - Test cases of the discrete-curves shape space: the
      horizontal-derivative test compares 19 residuals whatever
      [n_times] it gets ([horizontal_derivative_residual_shape]), those
      residuals being [20/19] times the residuals of the difference
      quotients of its evenly spaced samples
      ([horizontal_derivative_velocity_factor]), and it raises for more
      than one point before drawing
      ([horizontal_derivative_many_points_raises]).  The lemmas of
      [ClosedCurves] characterise the modelled [srv_projection] (within
      its budget, converged or exhausted; convergence under a
      contracting correction).
    - The test module: its fixtures draw [k_sampling_points] in
      [[5, 10]] for the dimensions 2 and 3 ([module_params_within]); the
      closed-curve tests run on the plane and on the 3-space, where the
      guarded tests pass without testing ([closed_fixture_guarded_tests]);
      the metric test classes run on the spaces of their metric, the
      elastic one on plane curves only, and the shape-bundle tests on
      curves of the plane and 3-space with the unit sphere of their
      ambient space ([test_classes_spaces]).
    - The sampler's parameters and the density agree: [_flatten_params]
      hands scipy the scale [1 / rate] of the rate [point_to_pdf] uses
      ([flatten_params_scale_is_inverse_rate]); [sample] on a point or
      batch of shape [batch + (1,)] returns [batch + (n_samples,)]
      non-negative samples, one uniform draw per sample, which the distribution function of the rate-[point]
      law maps back to their draws ([sample_inverts_distribution]),
      that function having [point_to_pdf]'s density as derivative
      ([distribution_derivative]).
    - Errors on every branch: the constructors' [ValueError]s
      ([init_spec], [metric_init_spec]), [projection] without a base
      projection, [random_point(0)], [geodesic]'s argument errors, and
      [metric_matrix]'s reshape failure.
    - Findings the theorems exhibit: [gs.squeeze] in
      [ExponentialDistributions.belongs] and [ExponentialMetric.squared_dist]
      drops batch axes of size 1; the product passes [bound] as the
      exponential sampler's [lower_bound], so with the default bound every
      sample is 1.0 ([random_point_exponential_constant]);
      [random_point(0)] raises; [metric_matrix] uses [shape[-1]] and fails
      for a product of products ([metric_matrix_size_mismatch]); with two
      batch axes the geodesic pairs the times with the second axis or fails
      ([geodesic_multi_batch_error]), and the einsum subscripts ["ijk"]
      make it fail for a base of three axes ([geodesic_deep_point_error]); the [geodesic] error message lacks a
      space; docstrings of [exponential.py] describe the samples' interval
      and the pdf's parameter otherwise than the code, and [projection]'s
      docstring floors only non-positive coordinates where the code
      raises every coordinate below [atol] ([projection_clips]); in the curve
      tests, [n_times] is overwritten by 20 and the velocities are
      [20/19] of the difference quotients
      ([horizontal_derivative_velocity_factor]), and the tests guarded by
      [_is_planar] pass without testing off the plane
      ([guarded_tests_pass_off_plane]).

    Each property is applied at a concrete input by a witness at the end
    of its file: the product of exponential distributions at integer
    points ([NFold], [Exponential]) or at real rates ([ExponentialMetric],
    [NFoldMetric], [ExponentialDensity]); the curve tests on the plane
    bundle, a halving projector and a counting generator.

    ** Bounds and choices

    The only loops are the iterative solvers, whose budget [max_iter] is
    the code's own bound and the structural argument of [iterate_until];
    no other fuel is needed, every other recursion being structural on
    lists.  The budget is not a limitation of the model: the theorems
    cover every budget, and the convergence theorems give the budget
    [N] after which a contracting correction has converged (the first
    [N] with [c ^ N * violation < atol]).  The horizontal-derivative test
    fixes 20 samples, and [srv_projection]'s default budget is 1000.
    Arrays hold a generic scalar type [K] (an instance of [Scalar]); the
    product construction never computes with the numbers, so its theorems
    hold for every [K], and its definitions run at [K := Z] in the
    examples.  Sizes are [nat]: numpy's shapes are non-negative and the
    code does no arithmetic that could overflow them.  The exponential
    metric is stated over [R], where [exp], [ln] and [Rpower] are the
    mathematical functions the floating-point code approximates;
    rounding is not modelled, and tolerances ([atol], the closeness test
    of [gs.allclose]) are kept as arguments.

    ** Not modelled

    [ScipyUnivariateRandomVariable] and scipy's [expon] are not in the
    repository: [rvs] is modelled with the layout the docstring of
    [sample] gives, [[..., n_samples]] (the parameters flattened for
    [point.shape[:-1] + (n_samples,)], one uniform value drawn per
    flattened parameter, the samples reshaped to that shape), and
    [expon.rvs] by inversion of the uniform draw (scipy draws a
    standard exponential and scales it, the same law); that layout and
    draw order are the assumptions of the sampling theorem.  The
    [default_coords_type] plumbing of the constructors is not modelled.
    The SRV transform, the SRV metric, the reparametrisation action and
    the closure constraint are not in the repository: the bundle and
    the projector are interfaces, so the curve theorems hold for every
    lawful instance, and numerical rounding (the reason the tests use
    [atol]) is not modelled.  The bundle's laws take its vertical
    directions orthogonal, which makes the horizontal and vertical parts
    orthogonal by construction; what the orthogonality test and the
    projection tests check of the real SRV bundle and projector is
    therefore not claimed of the code.  The tests inherited from
    [LevelSetTestCase], [FiberBundleTestCase], [ManifoldTestCase],
    [RiemannianMetricTestCase] and [PullbackDiffeoMetricTestCase], the
    metaclass [DataBasedParametrizer] and the test-data modules are not
    in the repository: the classes that only bind them are modelled by
    their fixtures, and [TestSRVQuotientMetric] is skipped. *)

From Stdlib Require Import String ZArith Bool Arith Lia List Reals Lra.
Import ListNotations.

(** ** Errors raised by the modelled code *)

Inductive error : Type :=
| ValueError (msg : string)
| NotImplementedError (msg : string)
| RuntimeError (msg : string)
| IndexError (msg : string)
| AttributeError (msg : string).

Inductive result (A : Type) : Type :=
| Ok (a : A)
| Err (e : error).
Arguments Ok {A} a.
Arguments Err {A} e.

Definition rbind {A B : Type} (r : result A) (f : A -> result B) : result B :=
  match r with
  | Ok a => f a
  | Err e => Err e
  end.

Definition rmap {A B : Type} (f : A -> B) (r : result A) : result B :=
  rbind r (fun a => Ok (f a)).

Definition of_option {A : Type} (o : option A) (e : error) : result A :=
  match o with
  | Some a => Ok a
  | None => Err e
  end.

Definition is_ok {A : Type} (r : result A) : bool :=
  match r with Ok _ => true | Err _ => false end.

Declare Scope geom_scope.
Delimit Scope geom_scope with geom.
Notation "x <- c ;; k" := (rbind c (fun x => k))
  (at level 61, c at next level, right associativity) : geom_scope.
Notation "' p <- c ;; k" := (rbind c (fun x => match x with p => k end))
  (at level 61, p pattern, c at next level, right associativity) : geom_scope.
Open Scope geom_scope.

Lemma rbind_Ok {A B : Type} (a : A) (f : A -> result B) : rbind (Ok a) f = f a.
Proof. reflexivity. Qed.

Lemma rbind_Err {A B : Type} (e : error) (f : A -> result B) : rbind (Err e) f = Err e.
Proof. reflexivity. Qed.

Lemma rbind_Ok_inv {A B : Type} (r : result A) (f : A -> result B) (b : B) :
  rbind r f = Ok b -> exists a, r = Ok a /\ f a = Ok b.
Proof. destruct r; simpl; [eauto | discriminate]. Qed.

(** Traverse a list with a fallible function, failing at the first error. *)
Fixpoint rmapM {A B : Type} (f : A -> result B) (l : list A) : result (list B) :=
  match l with
  | [] => Ok []
  | x :: l' => y <- f x ;; ys <- rmapM f l' ;; Ok (y :: ys)
  end.

Lemma rmapM_ok {A B : Type} (f : A -> result B) (g : A -> B) (l : list A) :
  (forall x, In x l -> f x = Ok (g x)) -> rmapM f l = Ok (map g l).
Proof.
  induction l as [|x l IH]; intros H; simpl; [reflexivity|].
  rewrite (H x (or_introl eq_refl)), IH; [reflexivity|].
  intros y Hy. apply H. now right.
Qed.

(** ** Scalars

    The number type of the arrays.  geomstats computes in floating point;
    the model is generic in the field of numbers the code manipulates. *)

Class Scalar (K : Type) := {
  sadd : K -> K -> K;
  smul : K -> K -> K;
  sopp : K -> K;
  szero : K;
  sone : K;
  sleb : K -> K -> bool;
  sltb : K -> K -> bool
}.

(** The laws of a commutative ring with a total order that the proofs
    about reductions and scalings use. *)
Class ScalarLaws (K : Type) `{Scalar K} := {
  smul_1_l : forall x, smul sone x = x;
  sadd_0_r : forall x, sadd x szero = x;
  sadd_comm : forall x y, sadd x y = sadd y x;
  sadd_assoc : forall x y z, sadd x (sadd y z) = sadd (sadd x y) z;
  smul_comm : forall x y, smul x y = smul y x;
  smul_assoc : forall x y z, smul x (smul y z) = smul (smul x y) z;
  sadd_opp_r : forall x, sadd x (sopp x) = szero;
  smul_0_l : forall x, smul szero x = szero;
  sltb_spec : forall x y, sltb x y = negb (sleb y x)
}.

#[export] Instance Z_Scalar : Scalar Z := {
  sadd := Z.add; smul := Z.mul; sopp := Z.opp; szero := 0%Z; sone := 1%Z;
  sleb := Z.leb; sltb := Z.ltb }.

#[export] Instance Z_ScalarLaws : ScalarLaws Z.
Proof.
  constructor; intros; cbv [sadd smul sopp sone szero sleb sltb Z_Scalar]; lia.
Qed.

(** The real numbers, for the closed forms of the exponential metric. *)
#[export] Instance R_Scalar : Scalar R := {
  sadd := Rplus; smul := Rmult; sopp := Ropp; szero := 0%R; sone := 1%R;
  sleb := fun x y => if Rle_dec x y then true else false;
  sltb := fun x y => if Rlt_dec x y then true else false }.

#[export] Instance R_ScalarLaws : ScalarLaws R.
Proof.
  constructor; cbn; intros; try ring.
  destruct (Rlt_dec x y), (Rle_dec y x); simpl; auto; lra.
Qed.


(** Sum of a list of scalars, as [gs.sum] reduces an axis. *)
Definition ssum {K : Type} `{Scalar K} (l : list K) : K := fold_right sadd szero l.

(** ** Sizes and blocks *)

(** The number of entries of an array of shape [s] ([numpy.prod]). *)
Definition numel (s : list nat) : nat := fold_right Nat.mul 1 s.

Lemma numel_app (s1 s2 : list nat) : numel (s1 ++ s2) = numel s1 * numel s2.
Proof. induction s1 as [|a s1 IH]; simpl; [lia | rewrite IH; lia]. Qed.

Lemma numel_cons (a : nat) (s : list nat) : numel (a :: s) = a * numel s.
Proof. reflexivity. Qed.

Lemma numel_snoc (s : list nat) (n : nat) : numel (s ++ [n]) = numel s * n.
Proof. rewrite numel_app. simpl. lia. Qed.

(** [chunk k n l] splits [l] into [k] consecutive blocks of [n] entries:
    the row-major view of a flat buffer of shape [(k, n)]. *)
Fixpoint chunk {A : Type} (k n : nat) (l : list A) : list (list A) :=
  match k with
  | 0 => []
  | S k' => firstn n l :: chunk k' n (skipn n l)
  end.

Create HintDb geom.
Create Rewrite HintDb geom_rw.

Section Chunk.
  Context {A : Type}.

Lemma firstn_app_exact (l1 l2 : list A) : firstn (length l1) (l1 ++ l2) = l1.
  Proof. rewrite <- (Nat.add_0_r (length l1)), firstn_app_2. apply app_nil_r. Qed.

Lemma skipn_app_exact (l1 l2 : list A) : skipn (length l1) (l1 ++ l2) = l2.
  Proof. now rewrite skipn_app, skipn_all, Nat.sub_diag. Qed.

Lemma length_chunk (k n : nat) (l : list A) : length (chunk k n l) = k.
  Proof. revert l; induction k; intros; simpl; auto. Qed.

Lemma chunk_map {B : Type} (f : A -> B) (k n : nat) (l : list A) :
    chunk k n (map f l) = map (map f) (chunk k n l).
  Proof.
    revert l; induction k as [|k IH]; intros l; simpl; [reflexivity|].
    now rewrite firstn_map, skipn_map, IH.
  Qed.

Lemma chunk_blocks_length (k n : nat) (l : list A) :
    k * n <= length l -> Forall (fun b => length b = n) (chunk k n l).
  Proof.
    revert l; induction k as [|k IH]; intros l Hl; simpl; constructor.
    - rewrite length_firstn. lia.
    - apply IH. rewrite length_skipn. simpl in Hl. lia.
  Qed.

Lemma concat_chunk (k n : nat) (l : list A) :
    length l = k * n -> concat (chunk k n l) = l.
  Proof.
    revert l; induction k as [|k IH]; intros l Hl; simpl.
    - destruct l; [reflexivity | simpl in Hl; discriminate].
    - rewrite IH; [apply firstn_skipn | rewrite length_skipn; lia].
  Qed.

Lemma chunk_concat (n : nat) (ls : list (list A)) :
    Forall (fun b => length b = n) ls -> chunk (length ls) n (concat ls) = ls.
  Proof.
    induction 1 as [|b ls Hb _ IH]; simpl; [reflexivity|].
    subst n. now rewrite firstn_app_exact, skipn_app_exact, IH.
  Qed.

Lemma chunk_add (k1 k2 n : nat) (l : list A) :
    chunk (k1 + k2) n l = chunk k1 n l ++ chunk k2 n (skipn (k1 * n) l).
  Proof.
    revert l; induction k1 as [|k1 IH]; intros l; simpl; [reflexivity|].
    now rewrite IH, skipn_skipn, Nat.add_comm.
  Qed.

Lemma chunk_firstn (k n : nat) (l : list A) :
    chunk k n (firstn (k * n) l) = chunk k n l.
  Proof.
    revert l; induction k as [|k IH]; intros l; simpl; [reflexivity|].
    rewrite firstn_firstn, Nat.min_l by lia. f_equal.
    rewrite skipn_firstn_comm. replace (n + k * n - n) with (k * n) by lia. apply IH.
  Qed.

  (** Splitting a buffer into [a * b] blocks of [c] is splitting it into
      [a] blocks of [b * c] and each of those into [b] blocks of [c]. *)
Lemma chunk_mul (a b c : nat) (l : list A) :
    chunk (a * b) c l = concat (map (chunk b c) (chunk a (b * c) l)).
  Proof.
    revert l; induction a as [|a IH]; intros l; simpl; [reflexivity|].
    rewrite chunk_add, IH, <- chunk_firstn. reflexivity.
  Qed.

Lemma nth_error_chunk (k n i : nat) (l : list A) :
    i < k -> nth_error (chunk k n l) i = Some (firstn n (skipn (i * n) l)).
  Proof.
    revert l i; induction k as [|k IH]; intros l i Hi; [lia|].
    destruct i as [|i]; simpl; [reflexivity|].
    rewrite IH by lia. now rewrite skipn_skipn, Nat.add_comm.
  Qed.
Lemma chunk_app_exact (k1 k2 n : nat) (l1 l2 : list A) :
    length l1 = k1 * n -> chunk (k1 + k2) n (l1 ++ l2) = chunk k1 n l1 ++ chunk k2 n l2.
  Proof.
    intros Hl. rewrite chunk_add, <- Hl, skipn_app_exact, <- (chunk_firstn k1 n (l1 ++ l2)), <- Hl.
    now rewrite firstn_app_exact.
  Qed.

End Chunk.

#[export] Hint Rewrite @length_chunk @chunk_map @numel_app @length_map : geom_rw.
#[export] Hint Resolve chunk_blocks_length : geom.

(** Two lists of the same length combined point by point. *)
Fixpoint zip_with {A B C : Type} (f : A -> B -> C) (l1 : list A) (l2 : list B) : list C :=
  match l1, l2 with
  | x :: l1', y :: l2' => f x y :: zip_with f l1' l2'
  | _, _ => []
  end.

Lemma length_zip_with {A B C : Type} (f : A -> B -> C) l1 l2 :
  length (zip_with f l1 l2) = Nat.min (length l1) (length l2).
Proof. revert l2; induction l1; destruct l2; simpl; auto. Qed.

Lemma zip_with_map_l {A B C D : Type} (f : C -> B -> D) (g : A -> C) l1 l2 :
  zip_with f (map g l1) l2 = zip_with (fun x y => f (g x) y) l1 l2.
Proof. revert l2; induction l1; destruct l2; simpl; f_equal; auto. Qed.

Lemma zip_with_diag {A C : Type} (f : A -> A -> C) (l : list A) :
  zip_with f l l = map (fun x => f x x) l.
Proof. induction l; simpl; f_equal; auto. Qed.

(** The development's tactic: unfold binds of results that are known. *)
Ltac rsimpl :=
  repeat match goal with
  | H : ?r = Ok _ |- context [rbind ?r _] => rewrite H; cbn [rbind]
  | |- context [rbind (Ok _) _] => cbn [rbind]
  end.

(** Three lists combined point by point. *)
Fixpoint zip_with3 {A B C D : Type} (f : A -> B -> C -> D)
  (l1 : list A) (l2 : list B) (l3 : list C) : list D :=
  match l1, l2, l3 with
  | x :: l1', y :: l2', z :: l3' => f x y z :: zip_with3 f l1' l2' l3'
  | _, _, _ => []
  end.

Lemma zip_with_length_eq {A B C : Type} (f : A -> B -> C) l1 l2 :
  length l1 = length l2 -> length (zip_with f l1 l2) = length l1.
Proof. intros H. rewrite length_zip_with, H. apply Nat.min_id. Qed.

Lemma zip_with_map {A B C D : Type} (f : A -> B -> C) (g : C -> D) l1 l2 :
  map g (zip_with f l1 l2) = zip_with (fun x y => g (f x y)) l1 l2.
Proof. revert l2; induction l1; destruct l2; simpl; f_equal; auto. Qed.

Lemma zip_with_map_both {A B C D E : Type} (f : C -> D -> E) (g : A -> C) (h : B -> D) l1 l2 :
  zip_with f (map g l1) (map h l2) = zip_with (fun x y => f (g x) (h y)) l1 l2.
Proof. revert l2; induction l1; destruct l2; simpl; f_equal; auto. Qed.

Lemma forallb_map_id {A : Type} (f : A -> bool) (l : list A) :
  forallb (fun b => b) (map f l) = forallb f l.
Proof. induction l; simpl; f_equal; auto. Qed.

Lemma firstn_zip_with {A B C : Type} (f : A -> B -> C) n l1 l2 :
  firstn n (zip_with f l1 l2) = zip_with f (firstn n l1) (firstn n l2).
Proof.
  revert n l2; induction l1 as [|x l1 IH]; intros [|n] [|y l2]; simpl; f_equal; auto.
Qed.

Lemma skipn_zip_with {A B C : Type} (f : A -> B -> C) n l1 l2 :
  skipn n (zip_with f l1 l2) = zip_with f (skipn n l1) (skipn n l2).
Proof.
  revert n l2; induction l1 as [|x l1 IH]; intros [|n] [|y l2]; simpl; auto.
  destruct (skipn n l1); reflexivity.
Qed.

Lemma chunk_zip_with {A B C : Type} (f : A -> B -> C) k n l1 l2 :
  chunk k n (zip_with f l1 l2) = zip_with (zip_with f) (chunk k n l1) (chunk k n l2).
Proof.
  revert l1 l2; induction k as [|k IH]; intros; simpl; [reflexivity|].
  now rewrite firstn_zip_with, skipn_zip_with, IH.
Qed.

(** The batch-merge / delegate / batch-split pattern: the [N * n] blocks
    of size [c] of a buffer, regrouped by [n], are the [n] blocks of each
    of the [N] groups of size [n * c]. *)
Lemma chunk_chunk {A : Type} (N n c : nat) (l : list A) :
  chunk N n (chunk (N * n) c l) = map (chunk n c) (chunk N (n * c) l).
Proof.
  rewrite chunk_mul.
  rewrite <- (length_chunk N (n * c) l) at 1.
  rewrite <- (length_map (chunk n c)).
  apply chunk_concat. apply Forall_forall. intros x Hx.
  apply in_map_iff in Hx as [g [<- _]]. now rewrite length_chunk.
Qed.

Lemma regroup_map {A B : Type} (f : list A -> B) (N n c : nat) (l : list A) :
  chunk N n (map f (chunk (N * n) c l))
  = map (fun g => map f (chunk n c g)) (chunk N (n * c) l).
Proof. now rewrite chunk_map, chunk_chunk, map_map. Qed.

Lemma regroup_zip {A B : Type} (f : list A -> list A -> B) (N n c : nat) (l1 l2 : list A) :
  chunk N n (zip_with f (chunk (N * n) c l1) (chunk (N * n) c l2))
  = zip_with (fun g1 g2 => zip_with f (chunk n c g1) (chunk n c g2))
      (chunk N (n * c) l1) (chunk N (n * c) l2).
Proof. rewrite chunk_zip_with, !chunk_chunk. apply zip_with_map_both. Qed.

Lemma Forall_zip_with {A B C : Type} (P : C -> Prop) (f : A -> B -> C) l1 l2 :
  (forall x y, In x l1 -> In y l2 -> P (f x y)) -> Forall P (zip_with f l1 l2).
Proof.
  revert l2; induction l1 as [|x l1 IH]; intros [|y l2] H; simpl; constructor.
  - apply H; now left.
  - apply IH. intros a b Ha Hb. apply H; now right.
Qed.

Lemma zip_with_ext_in {A B C : Type} (f g : A -> B -> C) l1 l2 :
  (forall x y, In x l1 -> In y l2 -> f x y = g x y) -> zip_with f l1 l2 = zip_with g l1 l2.
Proof.
  revert l2; induction l1 as [|x l1 IH]; intros [|y l2] H; simpl; f_equal.
  - apply H; now left.
  - apply IH. intros a b Ha Hb. apply H; now right.
Qed.

Lemma zip_with_zip_with_r {A B C D : Type} (f : A -> B -> C) (g : C -> B -> D) l1 l2 :
  zip_with g (zip_with f l1 l2) l2 = zip_with (fun x y => g (f x y) y) l1 l2.
Proof. revert l2; induction l1; intros [|y l2]; simpl; f_equal; auto. Qed.

Lemma length_concat_same {A : Type} (c : nat) (l : list (list A)) :
  Forall (fun b => length b = c) l -> length (concat l) = length l * c.
Proof. induction 1; simpl; [reflexivity|]. rewrite length_app. lia. Qed.

Lemma in_chunk_length {A : Type} (k n : nat) (l : list A) (x : list A) :
  length l = k * n -> In x (chunk k n l) -> length x = n.
Proof.
  intros Hl Hx. assert (HF : Forall (fun b => length b = n) (chunk k n l))
    by (apply chunk_blocks_length; lia).
  rewrite Forall_forall in HF. now apply HF.
Qed.

Lemma chunk_concat_len {A : Type} (k n : nat) (ls : list (list A)) :
  length ls = k -> Forall (fun b => length b = n) ls -> chunk k n (concat ls) = ls.
Proof. intros <-. apply chunk_concat. Qed.

Lemma concat_concat {A : Type} (l : list (list (list A))) :
  concat (concat l) = concat (map (@concat A) l).
Proof. induction l; simpl; [reflexivity|]. now rewrite concat_app, IHl. Qed.

Lemma concat_concat_chunk {A : Type} (k n : nat) (ls : list (list A)) :
  length ls = k * n -> concat ls = concat (map (@concat A) (chunk k n ls)).
Proof. intros H. now rewrite <- concat_concat, concat_chunk. Qed.

Lemma chunk_1 {A : Type} (l : list A) : chunk (length l) 1 l = map (fun x => [x]) l.
Proof. induction l as [|x l IH]; simpl; [reflexivity|]. now rewrite IH. Qed.

Lemma zip_with_const {A B C : Type} (c : C) (l1 : list A) (l2 : list B) :
  length l1 = length l2 -> zip_with (fun _ _ => c) l1 l2 = repeat c (length l1).
Proof. revert l2; induction l1; intros [|y l2] H; simpl in *; try lia; f_equal; auto. Qed.

Lemma zip_with_fst {A B : Type} (l1 : list A) (l2 : list B) :
  length l1 = length l2 -> zip_with (fun x _ => x) l1 l2 = l1.
Proof. revert l2; induction l1; intros [|y l2] H; simpl in *; try lia; f_equal; auto. Qed.

Lemma concat_singletons {A : Type} (l : list A) : concat (map (fun x => [x]) l) = l.
Proof. induction l; simpl; f_equal; auto. Qed.

Lemma concat_repeat_single {A : Type} (x : A) (n : nat) : concat (repeat [x] n) = repeat x n.
Proof. induction n; simpl; f_equal; auto. Qed.

Lemma zip_with_repeat_l {A B C : Type} (f : A -> B -> C) (x : A) (l : list B) :
  zip_with f (repeat x (length l)) l = map (f x) l.
Proof. induction l; simpl; f_equal; auto. Qed.

Lemma zip_with_repeat_r {A B C : Type} (f : A -> B -> C) (x : B) (l : list A) :
  zip_with f l (repeat x (length l)) = map (fun y => f y x) l.
Proof. induction l; simpl; f_equal; auto. Qed.

Lemma zip_with_map_r_zip {A B C D E : Type} (f : B -> D -> E) (g : C -> D) (h : A -> B -> C) l1 l2 :
  zip_with f l2 (map g (zip_with h l1 l2)) = zip_with (fun x y => f y (g (h x y))) l1 l2.
Proof. revert l2; induction l1; intros [|y l2]; simpl; f_equal; auto. Qed.

Lemma zip_with_map_l_zip {A B C D E : Type} (f : D -> B -> E) (g : C -> D) (h : A -> B -> C) l1 l2 :
  zip_with f (map g (zip_with h l1 l2)) l2 = zip_with (fun x y => f (g (h x y)) y) l1 l2.
Proof. revert l2; induction l1; intros [|y l2]; simpl; f_equal; auto. Qed.

Lemma chunk_1_len {A : Type} (k : nat) (l : list A) :
  length l = k -> chunk k 1 l = map (fun x => [x]) l.
Proof. intros <-. apply chunk_1. Qed.

Lemma firstn_snoc_pred (s : list nat) (n : nat) :
  firstn (length (s ++ [n]) - 1) (s ++ [n]) = s.
Proof.
  rewrite length_app. simpl. rewrite Nat.add_sub, firstn_app, firstn_all, Nat.sub_diag.
  apply app_nil_r.
Qed.

Lemma length_zip_with3_eq {A B C D : Type} (f : A -> B -> C -> D) l1 l2 l3 :
  length l1 = length l2 -> length l1 = length l3 -> length (zip_with3 f l1 l2 l3) = length l1.
Proof.
  revert l2 l3; induction l1; intros [|y l2] [|z l3] H2 H3; simpl in *; try lia.
  f_equal. apply IHl1; lia.
Qed.

Lemma firstn_zip_with3 {A B C D : Type} (f : A -> B -> C -> D) n l1 l2 l3 :
  firstn n (zip_with3 f l1 l2 l3) = zip_with3 f (firstn n l1) (firstn n l2) (firstn n l3).
Proof.
  revert n l2 l3; induction l1 as [|x l1 IH]; intros [|n] [|y l2] [|z l3]; simpl; f_equal; auto.
Qed.

Lemma skipn_zip_with3 {A B C D : Type} (f : A -> B -> C -> D) n l1 l2 l3 :
  skipn n (zip_with3 f l1 l2 l3) = zip_with3 f (skipn n l1) (skipn n l2) (skipn n l3).
Proof.
  revert n l2 l3; induction l1 as [|x l1 IH]; intros [|n] [|y l2] [|z l3]; simpl; auto;
    try apply IH; destruct (skipn n l1); try reflexivity; try (destruct (skipn n l2); reflexivity).
Qed.

Lemma chunk_zip_with3 {A B C D : Type} (f : A -> B -> C -> D) k n l1 l2 l3 :
  chunk k n (zip_with3 f l1 l2 l3)
  = zip_with3 (zip_with3 f) (chunk k n l1) (chunk k n l2) (chunk k n l3).
Proof.
  revert l1 l2 l3; induction k as [|k IH]; intros; simpl; [reflexivity|].
  now rewrite firstn_zip_with3, skipn_zip_with3, IH.
Qed.

Lemma zip_with3_map_all {A B C A' B' C' D : Type} (f : A' -> B' -> C' -> D)
  (g1 : A -> A') (g2 : B -> B') (g3 : C -> C') l1 l2 l3 :
  zip_with3 f (map g1 l1) (map g2 l2) (map g3 l3)
  = zip_with3 (fun x y z => f (g1 x) (g2 y) (g3 z)) l1 l2 l3.
Proof. revert l2 l3; induction l1; intros [|y l2] [|z l3]; simpl; f_equal; auto. Qed.

Lemma map_zip_with3 {A B C D E : Type} (f : A -> B -> C -> D) (g : D -> E) l1 l2 l3 :
  map g (zip_with3 f l1 l2 l3) = zip_with3 (fun x y z => g (f x y z)) l1 l2 l3.
Proof. revert l2 l3; induction l1; intros [|y l2] [|z l3]; simpl; f_equal; auto. Qed.

Lemma regroup_zip3 {A B : Type} (f : list A -> list A -> list A -> B) (N n c : nat) (l1 l2 l3 : list A) :
  chunk N n (zip_with3 f (chunk (N * n) c l1) (chunk (N * n) c l2) (chunk (N * n) c l3))
  = zip_with3 (fun g1 g2 g3 => zip_with3 f (chunk n c g1) (chunk n c g2) (chunk n c g3))
      (chunk N (n * c) l1) (chunk N (n * c) l2) (chunk N (n * c) l3).
Proof. rewrite chunk_zip_with3, !chunk_chunk. apply zip_with3_map_all. Qed.

Lemma Forall_zip_with3 {A B C D : Type} (P : D -> Prop) (f : A -> B -> C -> D) l1 l2 l3 :
  (forall x y z, In x l1 -> In y l2 -> In z l3 -> P (f x y z)) -> Forall P (zip_with3 f l1 l2 l3).
Proof.
  revert l2 l3; induction l1 as [|x l1 IH]; intros [|y l2] [|z l3] H; simpl; constructor.
  - apply H; now left.
  - apply IH. intros a b c Ha Hb Hc. apply H; now right.
Qed.

Lemma zip_with3_ext_in {A B C D : Type} (f g : A -> B -> C -> D) l1 l2 l3 :
  (forall x y z, In x l1 -> In y l2 -> In z l3 -> f x y z = g x y z) ->
  zip_with3 f l1 l2 l3 = zip_with3 g l1 l2 l3.
Proof.
  revert l2 l3; induction l1 as [|x l1 IH]; intros [|y l2] [|z l3] H; simpl; f_equal.
  - apply H; now left.
  - apply IH. intros a b c Ha Hb Hc. apply H; now right.
Qed.

Lemma zip_with_repeat_l_len {A B C : Type} (f : A -> B -> C) (x : A) (l : list B) (n : nat) :
  length l = n -> zip_with f (repeat x n) l = map (f x) l.
Proof. intros <-. apply zip_with_repeat_l. Qed.

Lemma concat_map_chunk_mul {A B : Type} (f : list A -> list B) (a b c : nat) (l : list A) :
  concat (map f (chunk (a * b) c l))
  = concat (map (fun g => concat (map f (chunk b c g))) (chunk a (b * c) l)).
Proof. now rewrite chunk_mul, concat_map, concat_concat, !map_map. Qed.

Lemma zip_with_app {A B C : Type} (f : A -> B -> C) a1 a2 b1 b2 :
  length a1 = length b1 -> zip_with f (a1 ++ a2) (b1 ++ b2) = zip_with f a1 b1 ++ zip_with f a2 b2.
Proof. revert b1; induction a1; intros [|y b1] H; simpl in *; try lia; f_equal; auto. Qed.

Lemma zip_with_snd {A B : Type} (l1 : list A) (l2 : list B) :
  length l1 = length l2 -> zip_with (fun _ y => y) l1 l2 = l2.
Proof. revert l2; induction l1; intros [|y l2] H; simpl in *; try lia; f_equal; auto. Qed.

Lemma concat_map_singletons {A B : Type} (f : A -> B) (l : list A) :
  concat (map (fun x => [f x]) l) = map f l.
Proof. induction l; simpl; f_equal; auto. Qed.

Lemma concat_zip_with_singletons {A B C : Type} (f : A -> B -> C) (l1 : list A) (l2 : list B) :
  concat (zip_with (zip_with f) (map (fun x => [x]) l1) (map (fun x => [x]) l2)) = zip_with f l1 l2.
Proof. revert l2; induction l1; intros [|y l2]; simpl; f_equal; auto. Qed.

(** Regrouping the blocks of [N * n] copies into [N] groups of [n]. *)
Lemma concat_regroup_zip {A B : Type} (f : list A -> list A -> list B) (N n c : nat) (l1 l2 : list A) :
  concat (zip_with f (chunk (N * n) c l1) (chunk (N * n) c l2))
  = concat (zip_with (fun g1 g2 => concat (zip_with f (chunk n c g1) (chunk n c g2)))
                     (chunk N (n * c) l1) (chunk N (n * c) l2)).
Proof.
  rewrite (concat_concat_chunk N n) by (rewrite zip_with_length_eq; now rewrite ?length_chunk).
  now rewrite regroup_zip, zip_with_map.
Qed.

Lemma concat_regroup_map {A B : Type} (f : list A -> list B) (N n c : nat) (l : list A) :
  concat (map f (chunk (N * n) c l))
  = concat (map (fun g => concat (map f (chunk n c g))) (chunk N (n * c) l)).
Proof.
  rewrite (concat_concat_chunk N n) by (now rewrite length_map, length_chunk).
  now rewrite regroup_map, map_map.
Qed.

(** ** Pairs of lists, as Python's [zip] *)

Lemma rmapM_map {A B C : Type} (f : B -> result C) (h : A -> B) (l : list A) :
  rmapM f (map h l) = rmapM (fun x => f (h x)) l.
Proof. induction l as [|x l IH]; simpl; [reflexivity|]. now rewrite IH. Qed.

Lemma combine_map {A B C D : Type} (f : A -> C) (g : B -> D) (l1 : list A) (l2 : list B) :
  combine (map f l1) (map g l2) = map (fun xy => (f (fst xy), g (snd xy))) (combine l1 l2).
Proof. revert l2; induction l1; intros [|y l2]; simpl; f_equal; auto. Qed.

Lemma combine_zip_with_l {A B C : Type} (f : A -> B -> C) (l1 : list A) (l2 : list B) :
  combine (zip_with f l1 l2) l2 = map (fun xy => (f (fst xy) (snd xy), snd xy)) (combine l1 l2).
Proof. revert l2; induction l1; intros [|y l2]; simpl; f_equal; auto. Qed.

Lemma map_combine {A B C : Type} (f : A -> B -> C) (l1 : list A) (l2 : list B) :
  map (fun xy => f (fst xy) (snd xy)) (combine l1 l2) = zip_with f l1 l2.
Proof. revert l2; induction l1; intros [|y l2]; simpl; f_equal; auto. Qed.

Lemma in_chunk_chunk {A : Type} (k n c : nat) (l : list A) (g y : list A) :
  length l = k * n * c -> In g (chunk k (n * c) l) -> In y (chunk n c g) -> In y (chunk (k * n) c l).
Proof.
  intros Hl Hg Hy. rewrite <- (concat_chunk k n (chunk (k * n) c l)) by now rewrite length_chunk.
  rewrite chunk_chunk. apply in_concat. exists (chunk n c g). split; [|exact Hy].
  now apply in_map.
Qed.

Lemma zip_with_flip {A B C : Type} (f : A -> B -> C) (l1 : list A) (l2 : list B) :
  zip_with f l1 l2 = zip_with (fun y x => f x y) l2 l1.
Proof. revert l2; induction l1; intros [|y l2]; simpl; f_equal; auto. Qed.

Lemma map_concat_repeat {A B : Type} (f : A -> B) (l : list A) (k : nat) :
  map f (concat (repeat l k)) = concat (repeat (map f l) k).
Proof. induction k as [|k IH]; cbn; [reflexivity|]. now rewrite map_app, IH. Qed.

Lemma zip_with3_pair {A B C D E : Type} (f : B -> C -> A -> E) (g : D -> A -> B) (h : D -> A -> C)
    (l1 : list D) (l2 : list A) :
  zip_with3 f (zip_with g l1 l2) (zip_with h l1 l2) l2 = zip_with (fun v b => f (g v b) (h v b) b) l1 l2.
Proof. revert l2; induction l1 as [|x l1 IH]; intros [|y l2]; cbn; [reflexivity..|]. now rewrite IH. Qed.

(** A pairing [f] undone by [g] on the entries it meets, read back
  entry by entry. *)
Lemma zip_with_cancel {A B C : Type} (g : A -> C -> B) (f : A -> B -> C) (l1 : list A) (l2 : list B) :
  length l1 = length l2 -> (forall x y, In x l1 -> In y l2 -> g x (f x y) = y) ->
  zip_with g l1 (zip_with f l1 l2) = l2.
Proof.
  revert l2; induction l1 as [|x l1 IH]; intros [|y l2] Hl H; cbn in *; try discriminate; [reflexivity|].
  f_equal; [apply H; now left|]. apply IH; [lia|]. intros a b Ha Hb. apply H; now right.
Qed.

Lemma length_concat_map_repeat {A : Type} (l : list A) (n : nat) :
  length (concat (map (fun x => repeat x n) l)) = length l * n.
Proof. induction l as [|x l IH]; cbn; [reflexivity|]. rewrite length_app, repeat_length, IH. lia. Qed.

Lemma in_concat_map_repeat {A : Type} (x : A) (l : list A) (n : nat) :
  In x (concat (map (fun y => repeat y n) l)) -> In x l.
Proof.
  intros Hx. apply in_concat in Hx as (l' & Hl' & Hx). apply in_map_iff in Hl' as (y & <- & Hy).
  now apply repeat_spec in Hx as ->.
Qed.

Lemma map_concat_map_repeat {A B : Type} (f : A -> B) (l : list A) (n : nat) :
  map f (concat (map (fun x => repeat x n) l)) = concat (map (fun x => repeat (f x) n) l).
Proof. rewrite concat_map, map_map. f_equal. apply map_ext. intros x. apply map_repeat. Qed.
