(* ===== verification/Tensor.v ===== *)
(** * Arrays and the batch-shape resolver

    The array runtime that [geomstats.backend] exposes (numpy semantics),
    restricted to what the modelled code calls: an array is a shape and a
    row-major flat buffer; [reshape] keeps the buffer and changes the
    shape, or fails with numpy's [ValueError]; broadcasting follows
    numpy's right-aligned rule; reductions over the last axis split the
    buffer into rows.  [get_batch_shape] is the batch-shape resolver of
    the specification (section 4.2).  None of this code is under [src/]:
    it is modelled from the specification and from numpy's documented
    behaviour. *)

From Stdlib Require Import String Arith Lia Bool List.
From S2P Require Import Prelude.
Import ListNotations.
Open Scope geom_scope.

Record tensor (A : Type) : Type := mk_tensor {
  tshape : list nat;
  tdata : list A
}.
Arguments mk_tensor {A} tshape tdata.
Arguments tshape {A} t.
Arguments tdata {A} t.

(** A well-formed array has as many entries as its shape says. *)
Definition wf {A : Type} (t : tensor A) : Prop := length (tdata t) = numel (tshape t).

Definition wfb {A : Type} (t : tensor A) : bool := Nat.eqb (length (tdata t)) (numel (tshape t)).

Lemma wfb_spec {A : Type} (t : tensor A) : wfb t = true <-> wf t.
Proof. apply Nat.eqb_eq. Qed.

Definition shape_error : error := ValueError "cannot reshape array".
Definition broadcast_error : error :=
  ValueError "operands could not be broadcast together".

(** [gs.reshape(x, s)] *)
Definition reshape {A : Type} (t : tensor A) (s : list nat) : result (tensor A) :=
  if Nat.eqb (numel s) (length (tdata t)) then Ok (mk_tensor s (tdata t))
  else Err shape_error.

(** [gs.reshape(x, (-1, *rest))]: the leading size is inferred. *)
Definition reshape_infer {A : Type} (t : tensor A) (rest : list nat) : result (tensor A) :=
  let r := numel rest in
  let n := length (tdata t) in
  if Nat.eqb r 0 then Err shape_error
  else if Nat.eqb (n mod r) 0 then Ok (mk_tensor (n / r :: rest) (tdata t))
  else Err shape_error.

(** [gs.expand_dims(x, axis=-1)] *)
Definition expand_dims_last {A : Type} (t : tensor A) : tensor A :=
  mk_tensor (tshape t ++ [1]) (tdata t).

(** Elementwise application of a function ([x >= -atol], [1 / x ** 2], ...). *)
Definition tmap {A B : Type} (f : A -> B) (t : tensor A) : tensor B :=
  mk_tensor (tshape t) (map f (tdata t)).

Lemma wf_tmap {A B : Type} (f : A -> B) (t : tensor A) : wf t -> wf (tmap f t).
Proof. unfold wf, tmap. simpl. now rewrite length_map. Qed.

(** ** Broadcasting *)

(** The broadcast of two shapes, computed on the reversed shapes so that
    axes are aligned on the right. *)
Fixpoint bshape_rev (a b : list nat) : option (list nat) :=
  match a, b with
  | [], _ => Some b
  | _, [] => Some a
  | x :: a', y :: b' =>
      match bshape_rev a' b' with
      | None => None
      | Some r =>
          if Nat.eqb x y then Some (x :: r)
          else if Nat.eqb x 1 then Some (y :: r)
          else if Nat.eqb y 1 then Some (x :: r)
          else None
      end
  end.

Definition broadcast_shapes (a b : list nat) : option (list nat) :=
  option_map (@rev nat) (bshape_rev (rev a) (rev b)).

(** Option traversal used by the broadcasting of a buffer. *)
Fixpoint omapM {A B : Type} (f : A -> option B) (l : list A) : option (list B) :=
  match l with
  | [] => Some []
  | x :: l' =>
      match f x, omapM f l' with
      | Some y, Some ys => Some (y :: ys)
      | _, _ => None
      end
  end.

(** Broadcast the buffer of shape [src] to shape [tgt] (same rank):
    an axis of equal size is kept, an axis of size 1 is repeated. *)
Fixpoint bcast {A : Type} (src tgt : list nat) (data : list A) : option (list A) :=
  match src, tgt with
  | [], [] => Some data
  | a :: src', b :: tgt' =>
      if Nat.eqb a b then
        option_map (@concat A) (omapM (bcast src' tgt') (chunk a (numel src') data))
      else if Nat.eqb a 1 then
        option_map (fun blk => concat (repeat blk b)) (bcast src' tgt' (firstn (numel src') data))
      else None
  | _, _ => None
  end.

(** [gs.broadcast_to(x, s)]: the shape of [x] is padded on the left with 1s. *)
Definition broadcast_to {A : Type} (t : tensor A) (s : list nat) : result (tensor A) :=
  let k := length (tshape t) in
  if Nat.leb k (length s) then
    match bcast (repeat 1 (length s - k) ++ tshape t) s (tdata t) with
    | Some d => Ok (mk_tensor s d)
    | None => Err broadcast_error
    end
  else Err broadcast_error.

(** [gs.broadcast_arrays(a, b)] and [gs.broadcast_arrays(a, b, c)] *)
Definition broadcast_arrays2 {A B : Type} (t1 : tensor A) (t2 : tensor B) : result (tensor A * tensor B) :=
  s <- of_option (broadcast_shapes (tshape t1) (tshape t2)) broadcast_error ;;
  a <- broadcast_to t1 s ;;
  b <- broadcast_to t2 s ;;
  Ok (a, b).

Definition broadcast_arrays3 {A : Type} (t1 t2 t3 : tensor A)
  : result (tensor A * tensor A * tensor A) :=
  s12 <- of_option (broadcast_shapes (tshape t1) (tshape t2)) broadcast_error ;;
  s <- of_option (broadcast_shapes s12 (tshape t3)) broadcast_error ;;
  a <- broadcast_to t1 s ;;
  b <- broadcast_to t2 s ;;
  c <- broadcast_to t3 s ;;
  Ok (a, b, c).

(** A binary elementwise numpy operation ([a / b], [a * b], ...): the
    operands are broadcast, then combined entry by entry. *)
Definition elementwise2 {A C : Type} (f : A -> A -> C) (t1 t2 : tensor A) : result (tensor C) :=
  '(a, b) <- broadcast_arrays2 t1 t2 ;;
  Ok (mk_tensor (tshape a) (zip_with f (tdata a) (tdata b))).

(** ** The batch-shape resolver (specification, section 4.2)

    The shapes of the arguments are broadcast together and the trailing
    [point_ndim] axes are stripped, as Python's [shape[:-point_ndim]]
    does (an array with no more axes than a point has the empty batch
    shape). *)
Definition get_batch_shape {A : Type} (point_ndim : nat) (ts : list (tensor A))
  : result (list nat) :=
  s <- of_option
         (fold_left (fun acc t => match acc with
                                  | Some a => broadcast_shapes a (tshape t)
                                  | None => None
                                  end) ts (Some []))
         broadcast_error ;;
  Ok (firstn (length s - point_ndim) s).

(** ** Reductions and scalings over trailing axes *)

Definition split_last (s : list nat) : option (list nat * nat) :=
  match rev s with
  | [] => None
  | n :: r => Some (rev r, n)
  end.

Definition axis_error : error := ValueError "axis -1 is out of bounds for array of dimension 0".

(** [gs.all(x, axis=-1)] *)
Definition all_last (t : tensor bool) : result (tensor bool) :=
  match split_last (tshape t) with
  | None => Err axis_error
  | Some (s, n) => Ok (mk_tensor s (map (forallb (fun b => b)) (chunk (numel s) n (tdata t))))
  end.

Section Scaled.
  Context {K : Type} `{Scalar K}.

  (** [gs.sum(x, axis=-1)] *)
Definition sum_last (t : tensor K) : result (tensor K) :=
    match split_last (tshape t) with
    | None => Err axis_error
    | Some (s, n) => Ok (mk_tensor s (map ssum (chunk (numel s) n (tdata t))))
    end.

Definition einsum_error : error :=
    ValueError "operands could not be broadcast together with remapped shapes".

  (** [gs.einsum("j,...j->...j", scales, x)]: entry [j] of the last axis
      is multiplied by [scales[j]]. *)
Definition einsum_scale_last (scales : list K) (t : tensor K) : result (tensor K) :=
    match split_last (tshape t) with
    | Some (s, n) =>
        if Nat.eqb n (length scales) then
          Ok (mk_tensor (tshape t)
                (concat (map (zip_with smul scales) (chunk (numel s) n (tdata t)))))
        else Err einsum_error
    | None => Err einsum_error
    end.

  (** [gs.einsum("j,...jkl->...jkl", scales, x)]: the [j]-th matrix of
      the third-to-last axis is multiplied by [scales[j]]. *)
Definition einsum_scale_blocks (scales : list K) (t : tensor K) : result (tensor K) :=
    match rev (tshape t) with
    | l :: k :: n :: r =>
        if Nat.eqb n (length scales) then
          Ok (mk_tensor (tshape t)
                (concat (map (fun grp =>
                   concat (zip_with (fun sc blk => map (smul sc) blk) scales
                                    (chunk n (k * l) grp)))
                   (chunk (numel (rev r)) (n * (k * l)) (tdata t)))))
        else Err einsum_error
    | _ => Err einsum_error
    end.
(** [gs.einsum("...,...ij->...ij", t, v)] for points of [pnd] axes: the
    leading axes of [v] are broadcast against the axes of [t], and each
    point of [v] is multiplied by the matching entry of [t]. *)
Definition einsum_scalar_lead (pnd : nat) (t v : tensor K) : result (tensor K) :=
  let L := firstn (length (tshape v) - pnd) (tshape v) in
  let P := skipn (length (tshape v) - pnd) (tshape v) in
  C <- of_option (broadcast_shapes (tshape t) L) einsum_error ;;
  t' <- broadcast_to t C ;;
  v' <- broadcast_to v (C ++ P) ;;
  Ok (mk_tensor (C ++ P)
        (concat (zip_with (fun c blk => map (smul c) blk) (tdata t')
                          (chunk (numel C) (numel P) (tdata v'))))).

End Scaled.

(** [gs.squeeze(x, axis=0)] *)
Definition squeeze_axis0 {A : Type} (t : tensor A) : result (tensor A) :=
  match tshape t with
  | 1 :: s => Ok (mk_tensor s (tdata t))
  | _ => Err (ValueError "cannot select an axis to squeeze out which has size not equal to one")
  end.

(** [gs.squeeze(x)]: every axis of size 1 is removed. *)
Definition squeeze {A : Type} (t : tensor A) : tensor A :=
  mk_tensor (filter (fun d => negb (Nat.eqb d 1)) (tshape t)) (tdata t).

Fixpoint shape_eqb (a b : list nat) : bool :=
  match a, b with
  | [], [] => true
  | x :: a', y :: b' => Nat.eqb x y && shape_eqb a' b'
  | _, _ => false
  end.

Lemma shape_eqb_spec (a b : list nat) : shape_eqb a b = true <-> a = b.
Proof.
  revert b; induction a as [|x a IH]; destruct b as [|y b]; simpl;
    try (split; congruence).
  rewrite andb_true_iff, Nat.eqb_eq, IH. split; [intros [-> ->] | intros [=]]; auto.
Qed.

(** [gs.stack(xs)] along a new leading axis. *)
Definition stack {A : Type} (ts : list (tensor A)) : result (tensor A) :=
  match ts with
  | [] => Err (ValueError "need at least one array to stack")
  | t :: _ =>
      if forallb (fun u => shape_eqb (tshape u) (tshape t)) ts
      then Ok (mk_tensor (length ts :: tshape t) (concat (map tdata ts)))
      else Err (ValueError "all input arrays must have the same shape")
  end.

(** ** Laws of the array operations *)

Lemma omapM_some {A B : Type} (f : A -> option B) (g : A -> B) (l : list A) :
  (forall x, In x l -> f x = Some (g x)) -> omapM f l = Some (map g l).
Proof.
  induction l as [|x l IH]; intros H; simpl; [reflexivity|].
  rewrite (H x (or_introl eq_refl)), IH; [reflexivity|].
  intros y Hy; apply H; now right.
Qed.

Section TensorLaws.
  Context {A : Type}.

Lemma reshape_ok (t : tensor A) (s : list nat) :
    numel s = length (tdata t) -> reshape t s = Ok (mk_tensor s (tdata t)).
  Proof. intros H. unfold reshape. now rewrite H, Nat.eqb_refl. Qed.

  (** Reshaping to [(-1, *rest)] an array whose shape ends with [rest]
      merges the leading axes into one. *)
Lemma reshape_infer_ok (t : tensor A) (pre rest : list nat) :
    wf t -> tshape t = pre ++ rest -> numel rest <> 0 ->
    reshape_infer t rest = Ok (mk_tensor (numel pre :: rest) (tdata t)).
  Proof.
    unfold wf, reshape_infer. intros Hwf Hs Hr. rewrite Hwf, Hs, numel_app.
    destruct (Nat.eqb_spec (numel rest) 0) as [E|_]; [contradiction|].
    rewrite Nat.Div0.mod_mul, Nat.div_mul by exact Hr. reflexivity.
  Qed.

Lemma split_last_app (s : list nat) (n : nat) : split_last (s ++ [n]) = Some (s, n).
  Proof. unfold split_last. rewrite rev_app_distr. simpl. now rewrite rev_involutive. Qed.

Lemma bcast_refl (s : list nat) (data : list A) :
    length data = numel s -> bcast s s data = Some data.
  Proof.
    revert data; induction s as [|a s IH]; intros data Hl; [reflexivity|].
    cbn [bcast]. rewrite Nat.eqb_refl.
    rewrite (omapM_some _ (fun x => x)).
    - rewrite map_id. cbn [option_map]. rewrite concat_chunk; [reflexivity | simpl in Hl; lia].
    - intros x Hx. apply IH.
      assert (HF : Forall (fun b => length b = numel s) (chunk a (numel s) data))
        by (apply chunk_blocks_length; simpl in Hl; lia).
      rewrite Forall_forall in HF. now apply HF.
  Qed.

Lemma bshape_rev_refl (s : list nat) : bshape_rev s s = Some s.
  Proof. induction s as [|a s IH]; simpl; [reflexivity|]. now rewrite IH, Nat.eqb_refl. Qed.

Lemma broadcast_shapes_refl (s : list nat) : broadcast_shapes s s = Some s.
  Proof. unfold broadcast_shapes. rewrite bshape_rev_refl. simpl. now rewrite rev_involutive. Qed.

Lemma broadcast_shapes_nil_l (s : list nat) : broadcast_shapes [] s = Some s.
  Proof.
    unfold broadcast_shapes. change (rev (@nil nat)) with (@nil nat).
    cbn [bshape_rev option_map]. now rewrite rev_involutive.
  Qed.

Lemma broadcast_to_refl (t : tensor A) : wf t -> broadcast_to t (tshape t) = Ok t.
  Proof.
    intros Hwf. unfold broadcast_to. rewrite Nat.leb_refl, Nat.sub_diag. simpl.
    rewrite bcast_refl by exact Hwf. now destruct t.
  Qed.

Lemma broadcast_arrays2_same (t1 t2 : tensor A) :
    wf t1 -> wf t2 -> tshape t1 = tshape t2 -> broadcast_arrays2 t1 t2 = Ok (t1, t2).
  Proof.
    intros H1 H2 Hs. unfold broadcast_arrays2. rewrite <- Hs, broadcast_shapes_refl.
    cbn [of_option rbind]. rewrite broadcast_to_refl by exact H1. cbn [rbind].
    rewrite Hs, broadcast_to_refl by exact H2. reflexivity.
  Qed.

Lemma elementwise2_same {C : Type} (f : A -> A -> C) (t1 t2 : tensor A) :
    wf t1 -> wf t2 -> tshape t1 = tshape t2 ->
    elementwise2 f t1 t2 = Ok (mk_tensor (tshape t1) (zip_with f (tdata t1) (tdata t2))).
  Proof. intros H1 H2 Hs. unfold elementwise2. now rewrite broadcast_arrays2_same. Qed.

Lemma broadcast_arrays3_same (t1 t2 t3 : tensor A) :
    wf t1 -> wf t2 -> wf t3 -> tshape t1 = tshape t2 -> tshape t1 = tshape t3 ->
    broadcast_arrays3 t1 t2 t3 = Ok (t1, t2, t3).
  Proof.
    intros H1 H2 H3 E2 E3. unfold broadcast_arrays3.
    rewrite <- E2, broadcast_shapes_refl. cbn [of_option rbind].
    rewrite <- E3, broadcast_shapes_refl. cbn [of_option rbind].
    rewrite broadcast_to_refl by exact H1. cbn [rbind].
    rewrite E2, broadcast_to_refl by exact H2. cbn [rbind].
    rewrite <- E2, E3, broadcast_to_refl by exact H3. reflexivity.
  Qed.

  (** Arrays of one shape [batch ++ p], with [p] the shape of a point,
      have the batch shape [batch]. *)
Lemma get_batch_shape_same (pnd : nat) (batch p : list nat) (ts : list (tensor A)) :
    length p = pnd -> ts <> [] -> Forall (fun t => tshape t = batch ++ p) ts ->
    get_batch_shape pnd ts = Ok batch.
  Proof.
    intros Hp Hne HF. unfold get_batch_shape.
    destruct ts as [|t ts]; [contradiction|]. inversion HF as [|? ? Ht HF']; subst.
    simpl. rewrite Ht, broadcast_shapes_nil_l.
    assert (Hfold : forall l : list (tensor A), Forall (fun t => tshape t = batch ++ p) l ->
              fold_left (fun acc (t : tensor A) => match acc with
                                      | Some a => broadcast_shapes a (tshape t)
                                      | None => None end) l (Some (batch ++ p))
              = Some (batch ++ p)).
    { induction l as [|u l IH]; intros Hl; simpl; [reflexivity|].
      inversion Hl; subst. rewrite H1, broadcast_shapes_refl. now apply IH. }
    rewrite Hfold by exact HF'. simpl. rewrite length_app, Nat.add_sub.
    now rewrite firstn_app, firstn_all, Nat.sub_diag, firstn_O, app_nil_r.
  Qed.

Lemma stack_same (ts : list (tensor A)) (s : list nat) :
    ts <> [] -> Forall (fun t => tshape t = s) ts ->
    stack ts = Ok (mk_tensor (length ts :: s) (concat (map tdata ts))).
  Proof.
    intros Hne HF. destruct ts as [|t ts]; [contradiction|]. inversion HF; subst.
    unfold stack. replace (forallb _ _) with true; [reflexivity|].
    symmetry. apply forallb_forall. intros u Hu. apply shape_eqb_spec.
    rewrite Forall_forall in HF. rewrite (HF u Hu). symmetry. apply (HF t). now left.
  Qed.
End TensorLaws.

Lemma all_last_app (t : tensor bool) (s : list nat) (n : nat) :
  tshape t = s ++ [n] ->
  all_last t = Ok (mk_tensor s (map (forallb (fun b => b)) (chunk (numel s) n (tdata t)))).
Proof. intros H. unfold all_last. now rewrite H, split_last_app. Qed.

Section ScaledLaws.
  Context {K : Type} `{Scalar K}.

Lemma sum_last_app (t : tensor K) (s : list nat) (n : nat) :
    tshape t = s ++ [n] ->
    sum_last t = Ok (mk_tensor s (map ssum (chunk (numel s) n (tdata t)))).
  Proof. intros E. unfold sum_last. now rewrite E, split_last_app. Qed.

Lemma einsum_scale_last_app (scales : list K) (t : tensor K) (s : list nat) :
    tshape t = s ++ [length scales] ->
    einsum_scale_last scales t
    = Ok (mk_tensor (tshape t)
            (concat (map (zip_with smul scales) (chunk (numel s) (length scales) (tdata t))))).
  Proof. intros E. unfold einsum_scale_last. now rewrite E, split_last_app, Nat.eqb_refl. Qed.

Lemma einsum_scale_last_mismatch (scales : list K) (t : tensor K) (s : list nat) (n : nat) :
    tshape t = s ++ [n] -> n <> length scales ->
    einsum_scale_last scales t = Err einsum_error.
  Proof.
    intros E Hn. unfold einsum_scale_last. rewrite E, split_last_app.
    now destruct (Nat.eqb_spec n (length scales)).
  Qed.
End ScaledLaws.

#[export] Hint Resolve broadcast_to_refl bshape_rev_refl broadcast_shapes_refl : geom.
#[export] Hint Rewrite @split_last_app @broadcast_shapes_refl @broadcast_shapes_nil_l : geom_rw.

(** ** Broadcasting a single entry *)

Section ScalarBroadcast.
  Context {A : Type}.

Lemma broadcast_shapes_1_l (n : nat) : broadcast_shapes [1] [n] = Some [n].
  Proof. destruct n as [|[|n]]; reflexivity. Qed.

Lemma broadcast_shapes_1_r (n : nat) : broadcast_shapes [n] [1] = Some [n].
  Proof. destruct n as [|[|n]]; reflexivity. Qed.

Lemma broadcast_to_single (x : A) (n : nat) :
    broadcast_to (mk_tensor [1] [x]) [n] = Ok (mk_tensor [n] (repeat x n)).
  Proof.
    unfold broadcast_to. destruct n as [|[|n]]; simpl; try reflexivity.
    now rewrite concat_repeat_single.
  Qed.

Lemma broadcast_to_vec (l : list A) : broadcast_to (mk_tensor [length l] l) [length l] = Ok (mk_tensor [length l] l).
  Proof. apply broadcast_to_refl. unfold wf. simpl. lia. Qed.

Lemma broadcast_arrays2_single_l (x : A) (l : list A) (n : nat) :
    length l = n ->
    broadcast_arrays2 (mk_tensor [1] [x]) (mk_tensor [n] l)
    = Ok (mk_tensor [n] (repeat x n), mk_tensor [n] l).
  Proof.
    intros <-. unfold broadcast_arrays2. cbn [tshape]. rewrite broadcast_shapes_1_l.
    cbn [of_option rbind]. now rewrite broadcast_to_single, broadcast_to_vec.
  Qed.

Lemma broadcast_arrays2_single_r (x : A) (l : list A) (n : nat) :
    length l = n ->
    broadcast_arrays2 (mk_tensor [n] l) (mk_tensor [1] [x])
    = Ok (mk_tensor [n] l, mk_tensor [n] (repeat x n)).
  Proof.
    intros <-. unfold broadcast_arrays2. cbn [tshape]. rewrite broadcast_shapes_1_r.
    cbn [of_option rbind]. now rewrite broadcast_to_single, broadcast_to_vec.
  Qed.

Lemma elementwise2_single_l {C : Type} (f : A -> A -> C) (x : A) (l : list A) (n : nat) :
    length l = n ->
    elementwise2 f (mk_tensor [1] [x]) (mk_tensor [n] l) = Ok (mk_tensor [n] (map (f x) l)).
  Proof.
    intros Hl. unfold elementwise2. rewrite broadcast_arrays2_single_l by exact Hl. cbn.
    subst n. now rewrite zip_with_repeat_l.
  Qed.

Lemma elementwise2_single_r {C : Type} (f : A -> A -> C) (x : A) (l : list A) (n : nat) :
    length l = n ->
    elementwise2 f (mk_tensor [n] l) (mk_tensor [1] [x]) = Ok (mk_tensor [n] (map (fun y => f y x) l)).
  Proof.
    intros Hl. unfold elementwise2. rewrite broadcast_arrays2_single_r by exact Hl. cbn.
    subst n. now rewrite zip_with_repeat_r.
  Qed.
End ScalarBroadcast.

(** [for x in t] over the first axis: the sub-arrays of a leading axis. *)
Definition unstack {A : Type} (t : tensor A) : list (tensor A) :=
  match tshape t with
  | [] => []
  | b :: rest => map (mk_tensor rest) (chunk b (numel rest) (tdata t))
  end.

(** [gs.allclose(a, b)] with the closeness test of the backend. *)
Definition allclose {A : Type} (close : A -> A -> bool) (a b : tensor A) : result bool :=
  '(a', b') <- broadcast_arrays2 a b ;;
  Ok (forallb (fun xy => close (fst xy) (snd xy)) (combine (tdata a') (tdata b'))).

(** [gs.where(cond, a, b)] with a scalar [b]: [cond] and [a] are
    broadcast together. *)
Definition gs_where {A : Type} (cond : tensor bool) (a : tensor A) (b : A) : result (tensor A) :=
  '(c, a') <- broadcast_arrays2 cond a ;;
  Ok (mk_tensor (tshape a') (zip_with (fun (cb : bool) (v : A) => if cb then v else b) (tdata c) (tdata a'))).

Lemma broadcast_arrays2_same_h {A B : Type} (t1 : tensor A) (t2 : tensor B) :
  wf t1 -> wf t2 -> tshape t1 = tshape t2 -> broadcast_arrays2 t1 t2 = Ok (t1, t2).
Proof.
  intros H1 H2 Hs. unfold broadcast_arrays2. rewrite <- Hs, broadcast_shapes_refl.
  cbn [of_option rbind]. rewrite broadcast_to_refl by exact H1. cbn [rbind].
  rewrite Hs, broadcast_to_refl by exact H2. reflexivity.
Qed.

Lemma gs_where_same {A : Type} (cond : tensor bool) (a : tensor A) (b : A) :
  wf cond -> wf a -> tshape cond = tshape a ->
  gs_where cond a b
  = Ok (mk_tensor (tshape a) (zip_with (fun (cb : bool) (v : A) => if cb then v else b) (tdata cond) (tdata a))).
Proof. intros H1 H2 Hs. unfold gs_where. now rewrite broadcast_arrays2_same_h. Qed.

(** ** Broadcasting along new leading axes *)

Lemma bshape_rev_nil_r (l : list nat) : bshape_rev l [] = Some l.
Proof. destruct l; reflexivity. Qed.

Lemma bshape_rev_app_l (a b : list nat) : bshape_rev (a ++ b) a = Some (a ++ b).
Proof.
  induction a as [|x a IH]; simpl; [apply bshape_rev_nil_r|].
  now rewrite IH, Nat.eqb_refl.
Qed.

Lemma bshape_rev_app_r (a b : list nat) : bshape_rev a (a ++ b) = Some (a ++ b).
Proof.
  induction a as [|x a IH]; simpl; [reflexivity|].
  now rewrite IH, Nat.eqb_refl.
Qed.

Lemma broadcast_shapes_prefix_l (pre s : list nat) :
  broadcast_shapes (pre ++ s) s = Some (pre ++ s).
Proof.
  unfold broadcast_shapes. rewrite rev_app_distr, bshape_rev_app_l. cbn [option_map].
  now rewrite rev_app_distr, !rev_involutive.
Qed.

Lemma broadcast_shapes_prefix_r (pre s : list nat) :
  broadcast_shapes s (pre ++ s) = Some (pre ++ s).
Proof.
  unfold broadcast_shapes. rewrite rev_app_distr, bshape_rev_app_r. cbn [option_map].
  now rewrite rev_app_distr, !rev_involutive.
Qed.

Lemma broadcast_shapes_nil_r (s : list nat) : broadcast_shapes s [] = Some s.
Proof. unfold broadcast_shapes. cbn [rev]. rewrite bshape_rev_nil_r. cbn. now rewrite rev_involutive. Qed.

Section Lead.
  Context {A : Type}.

  (** Broadcasting an array to one more leading axis of size [k] repeats it. *)
Lemma broadcast_to_lead (t : tensor A) (k : nat) :
    wf t -> broadcast_to t (k :: tshape t) = Ok (mk_tensor (k :: tshape t) (concat (repeat (tdata t) k))).
  Proof.
    intros Hwf. unfold broadcast_to. cbn [length].
    replace (Nat.leb (length (tshape t)) (S (length (tshape t)))) with true
      by (symmetry; apply Nat.leb_le; lia).
    replace (S (length (tshape t)) - length (tshape t)) with 1 by lia. cbn [repeat app bcast].
    rewrite bcast_refl by (rewrite firstn_all2; [exact Hwf | unfold wf in Hwf; lia]).
    destruct (Nat.eqb_spec 1 k) as [<-|_]; cbn [option_map]; [|now rewrite firstn_all2 by (unfold wf in Hwf; lia)].
    rewrite (omapM_some _ (fun x => x)).
    - cbn. rewrite app_nil_r, firstn_all2 by (unfold wf in Hwf; lia). now rewrite app_nil_r.
    - intros x Hx. cbn in Hx. destruct Hx as [<-|[]]. apply bcast_refl.
      rewrite firstn_all2; [exact Hwf | unfold wf in Hwf; lia].
  Qed.

Lemma broadcast_arrays2_lead_r (t u : tensor A) (k : nat) :
    wf t -> wf u -> tshape t = k :: tshape u ->
    broadcast_arrays2 t u = Ok (t, mk_tensor (tshape t) (concat (repeat (tdata u) k))).
  Proof.
    intros Ht Hu E. unfold broadcast_arrays2.
    replace (broadcast_shapes (tshape t) (tshape u)) with (Some (tshape t))
      by (rewrite E; symmetry; exact (broadcast_shapes_prefix_l [k] (tshape u))).
    cbn [of_option rbind]. rewrite broadcast_to_refl by exact Ht. cbn [rbind]. rewrite E.
    now rewrite broadcast_to_lead by exact Hu.
  Qed.

Lemma get_batch_shape_lead (pnd k : nat) (t u : tensor A) :
    length (tshape u) = pnd -> tshape t = k :: tshape u ->
    get_batch_shape pnd [t; u] = Ok [k].
  Proof.
    intros Hp E. unfold get_batch_shape. cbn [fold_left]. rewrite broadcast_shapes_nil_l, E.
    replace (broadcast_shapes (k :: tshape u) (tshape u)) with (Some (k :: tshape u))
      by (symmetry; exact (broadcast_shapes_prefix_l [k] (tshape u))).
    cbn [of_option rbind]. f_equal. cbn [app length]. rewrite Hp.
    replace (S pnd - pnd) with 1 by lia. reflexivity.
  Qed.

Lemma concat_map_concat_map {B : Type} (f : A -> list B) (ls : list (list A)) :
  concat (map (fun blk => concat (map f blk)) ls) = concat (map f (concat ls)).
Proof. induction ls as [|l ls IH]; cbn; [reflexivity|]. now rewrite map_app, concat_app, IH. Qed.

(** Broadcasting a trailing axis of size 1 to size [n] repeats each
    entry [n] times in place. *)
Lemma bcast_trailing (s : list nat) (n : nat) (data : list A) :
  length data = numel s ->
  bcast (s ++ [1]) (s ++ [n]) data = Some (concat (map (fun x => repeat x n) data)).
Proof.
  revert data; induction s as [|a s IH]; intros data Hl.
  - destruct data as [|x [|]]; cbn in Hl; try discriminate. cbn [app bcast].
    destruct (Nat.eqb_spec 1 n) as [<-|_]; cbn; [reflexivity|].
    now rewrite app_nil_r, concat_repeat_single.
  - cbn [app bcast]. rewrite Nat.eqb_refl.
    rewrite (omapM_some _ (fun blk => concat (map (fun x => repeat x n) blk))).
    + cbn [option_map]. rewrite concat_map_concat_map, concat_chunk; [reflexivity|].
      rewrite numel_app, Nat.mul_1_r. exact Hl.
    + intros blk Hblk. apply IH. rewrite numel_app, Nat.mul_1_r in Hblk.
      exact (in_chunk_length a (numel s) data blk Hl Hblk).
Qed.

Lemma broadcast_to_trailing (t : tensor A) (s : list nat) (n : nat) :
  wf t -> tshape t = s ++ [1] ->
  broadcast_to t (s ++ [n]) = Ok (mk_tensor (s ++ [n]) (concat (map (fun x => repeat x n) (tdata t)))).
Proof.
  intros Hwf Hs. unfold broadcast_to. rewrite Hs, !length_app, Nat.leb_refl, Nat.sub_diag.
  cbn [repeat app]. rewrite bcast_trailing; [reflexivity|].
  unfold wf in Hwf. rewrite Hwf, Hs, numel_app. cbn. lia.
Qed.
End Lead.

Lemma chunk_concat_repeat {A : Type} (k : nat) (l : list A) :
  chunk k (length l) (concat (repeat l k)) = repeat l k.
Proof.
  apply chunk_concat_len; [apply repeat_length|].
  apply Forall_forall. intros x Hx. apply repeat_spec in Hx. now subst.
Qed.

(** The einsum of a path: times [ts] against one point-shaped vector. *)
Lemma einsum_scalar_lead_times {K : Type} `{Scalar K} (pnd : nat) (ts : list K) (v : tensor K) :
  wf v -> length (tshape v) = pnd ->
  einsum_scalar_lead pnd (mk_tensor [length ts] ts) v
  = Ok (mk_tensor (length ts :: tshape v) (concat (map (fun c => map (smul c) (tdata v)) ts))).
Proof.
  intros Hwf Hp. unfold einsum_scalar_lead. cbn [tshape]. rewrite Hp, Nat.sub_diag, firstn_O, skipn_O.
  rewrite broadcast_shapes_nil_r. cbn [of_option rbind].
  rewrite broadcast_to_refl by (unfold wf; cbn; lia). cbn [rbind app].
  rewrite broadcast_to_lead by exact Hwf. cbn [rbind tdata numel fold_right].
  unfold wf in Hwf. rewrite Nat.mul_1_r, <- Hwf, chunk_concat_repeat, zip_with_repeat_r.
  reflexivity.
Qed.
