(* ===== verification/Manifold.v ===== *)
(** * The manifold and metric contract (specification, section 4.1)

    geomstats' base classes [Manifold] and [RiemannianMetric] are not
    under [src/]; what the product construction relies on is the
    contract of section 4.1 of the specification, modelled here as two
    classes of batched operations, [Manifold] and [RiemannianMetric],
    and two classes of laws, [ManifoldLaws] and [MetricLaws], which say
    that on a batch of shape [(m, *shape)] each operation acts point by
    point (section 6: "the base manifold must accept arbitrary leading
    batch dimensions").  The product construction is proved against
    these laws; each concrete manifold discharges them.

    Random sampling draws from an explicit generator state [rng]: a
    stream of uniform draws and the position of the next one, so that
    the number and order of draws are part of the model. *)

From Stdlib Require Import String Arith Lia Bool List.
From S2P Require Import Prelude Tensor.
Import ListNotations.
Open Scope geom_scope.

(** ** Random draws *)

Record rng (K : Type) : Type := mk_rng {
  rng_gen : nat -> K;
  rng_pos : nat
}.
Arguments mk_rng {K} rng_gen rng_pos.
Arguments rng_gen {K} r.
Arguments rng_pos {K} r.

(** [gs.random.rand(k)]: the next [k] draws of the stream. *)
Definition rand {K : Type} (k : nat) (st : rng K) : list K * rng K :=
  (map (rng_gen st) (seq (rng_pos st) k), mk_rng (rng_gen st) (rng_pos st + k)).

Lemma length_rand {K : Type} (k : nat) (st : rng K) : length (fst (rand k st)) = k.
Proof. simpl. now rewrite length_map, length_seq. Qed.

(** ** The contract *)

Class Manifold (K : Type) : Type := {
  m_dim : nat;
  m_shape : list nat;
  m_belongs : tensor K -> K -> result (tensor bool);
  m_is_tangent : tensor K -> tensor K -> K -> result (tensor bool);
  m_to_tangent : tensor K -> tensor K -> result (tensor K);
  (** [None] when the manifold has no [projection] method. *)
  m_projection : option (tensor K -> result (tensor K));
  m_random_point : nat -> K -> rng K -> result (tensor K) * rng K
}.

Definition point_ndim {K : Type} (M : Manifold K) : nat := length (@m_shape K M).

Definition point_size {K : Type} (M : Manifold K) : nat := numel (@m_shape K M).

Class RiemannianMetric (K : Type) (M : Manifold K) : Type := {
  g_metric_matrix : tensor K -> result (tensor K);
  g_inner_product : tensor K -> tensor K -> tensor K -> result (tensor K);
  g_exp : tensor K -> tensor K -> result (tensor K);
  g_log : tensor K -> tensor K -> result (tensor K)
}.

(** ** Vectorization laws

    On a batch of [m] points (shape [(m, *shape)]), each operation is the
    point-wise operation applied to the [m] blocks of the buffer.  The
    shape of a boolean or scalar answer is left free: the product
    construction reshapes it and only its buffer matters. *)

Definition blocks {K : Type} (M : Manifold K) (m : nat) (l : list K) : list (list K) :=
  chunk m (point_size M) l.

Definition batch_of {K : Type} (M : Manifold K) (m : nat) (t : tensor K) : Prop :=
  wf t /\ tshape t = m :: @m_shape K M.

Class ManifoldLaws (K : Type) (M : Manifold K) : Type := {
  belongs_pt : K -> list K -> bool;
  is_tangent_pt : K -> list K -> list K -> bool;
  to_tangent_pt : list K -> list K -> list K;
  projection_pt : list K -> list K;
  point_size_pos : point_size M <> 0;
  belongs_vec : forall m t atol, batch_of M m t ->
    exists s, m_belongs t atol = Ok (mk_tensor s (map (belongs_pt atol) (blocks M m (tdata t))));
  is_tangent_vec : forall m v p atol, batch_of M m v -> batch_of M m p ->
    exists s, m_is_tangent v p atol
              = Ok (mk_tensor s (zip_with (is_tangent_pt atol) (blocks M m (tdata v))
                                                               (blocks M m (tdata p))));
  to_tangent_vec : forall m v p, batch_of M m v -> batch_of M m p ->
    exists s, m_to_tangent v p
              = Ok (mk_tensor s (concat (zip_with to_tangent_pt (blocks M m (tdata v))
                                                                (blocks M m (tdata p)))));
  to_tangent_pt_length : forall v p, length v = point_size M -> length p = point_size M ->
    length (to_tangent_pt v p) = point_size M;
  projection_vec : forall proj, m_projection = Some proj -> forall m t, batch_of M m t ->
    exists s, proj t = Ok (mk_tensor s (concat (map projection_pt (blocks M m (tdata t)))));
  projection_pt_length : forall x, length x = point_size M -> length (projection_pt x) = point_size M;
  random_point_length : forall m bound st, m <> 0 ->
    exists t, fst (m_random_point m bound st) = Ok t /\ length (tdata t) = m * point_size M
}.

Class MetricLaws (K : Type) (M : Manifold K) (G : RiemannianMetric K M) : Type := {
  (** The number of entries of the metric matrix at one point. *)
  metric_len : nat;
  metric_matrix_pt : list K -> list K;
  inner_product_pt : list K -> list K -> list K -> K;
  exp_pt : list K -> list K -> list K;
  log_pt : list K -> list K -> list K;
  metric_matrix_vec : forall m p, batch_of M m p ->
    exists s, g_metric_matrix p = Ok (mk_tensor s (concat (map metric_matrix_pt (blocks M m (tdata p)))));
  metric_matrix_pt_length : forall p, length p = point_size M ->
    length (metric_matrix_pt p) = metric_len;
  inner_product_vec : forall m u v p, batch_of M m u -> batch_of M m v -> batch_of M m p ->
    exists s, g_inner_product u v p
              = Ok (mk_tensor s (zip_with3 inner_product_pt (blocks M m (tdata u))
                                   (blocks M m (tdata v)) (blocks M m (tdata p))));
  exp_vec : forall m v p, batch_of M m v -> batch_of M m p ->
    exists s, g_exp v p = Ok (mk_tensor s (concat (zip_with exp_pt (blocks M m (tdata v))
                                                               (blocks M m (tdata p)))));
  log_vec : forall m q p, batch_of M m q -> batch_of M m p ->
    exists s, g_log q p = Ok (mk_tensor s (concat (zip_with log_pt (blocks M m (tdata q))
                                                               (blocks M m (tdata p)))));
  exp_pt_length : forall v p, length v = point_size M -> length p = point_size M ->
    length (exp_pt v p) = point_size M;
  log_pt_length : forall q p, length q = point_size M -> length p = point_size M ->
    length (log_pt q p) = point_size M
}.

(** ** Defaults of the metric contract

    [squared_dist(a, b)] defaults to [inner_product(log(b, a), log(b, a), a)]
    unless a metric overrides it with a closed form. *)
Definition default_squared_dist {K : Type} {M : Manifold K} (G : RiemannianMetric K M)
  (point_a point_b : tensor K) : result (tensor K) :=
  lg <- g_log point_b point_a ;;
  g_inner_product lg lg point_a.

(** [RiemannianMetric.inner_product] (specification): the metric matrix at
    the base point, [aux = einsum("...j,...jk->...k", a, G)], then
    [dot(aux, b)]; for points of shape [(d,)]. *)
Definition bilinear {K : Type} `{Scalar K} (d : nat) (a b g : list K) : K :=
  ssum (map (fun k => smul (ssum (map (fun j => smul (nth j a szero) (nth (j * d + k) g szero))
                                      (seq 0 d)))
                           (nth k b szero))
            (seq 0 d)).

Definition default_inner_product {K : Type} `{Scalar K}
  (metric_matrix : tensor K -> result (tensor K)) (d : nat) (u v p : tensor K)
  : result (tensor K) :=
  '(u', v', p') <- broadcast_arrays3 u v p ;;
  let batch := firstn (length (tshape u') - 1) (tshape u') in
  G <- metric_matrix p' ;;
  Ok (mk_tensor batch (zip_with3 (bilinear d) (chunk (numel batch) d (tdata u'))
                                             (chunk (numel batch) d (tdata v'))
                                             (chunk (numel batch) (d * d) (tdata G)))).
