(* ===== verification/Exponential.v ===== *)
(** * Exponential distributions ([information_geometry/exponential.py], class [ExponentialDistributions])

    [ExponentialDistributions] is the open half line of rates, a point
    being an array of shape [(1,)].  Its point-set operations
    ([belongs], [projection], [random_point]) only compare and scale
    numbers: they are defined for any [Scalar] and run at [Z] in the
    examples.  [Exponential_Manifold] makes it an instance of the
    manifold contract and [Exponential_ManifoldLaws] proves the
    vectorization laws; the theorems show what [belongs] answers on a
    batch (its [gs.squeeze] drops axes of size 1), that [projection]
    clips into the set, and, at real bounds, the interval the samples of
    [random_point] lie in.  The Fisher metric is in [ExponentialMetric].

    [OpenSet.is_tangent] and [OpenSet.to_tangent], which the class
    inherits (not under [src/]), are modelled from the contract: every
    vector of the right shape is tangent to an open set, and tangent
    projection is the identity. *)

From Stdlib Require Import String ZArith Arith Lia Bool List Reals Lra.
From S2P Require Import Prelude Tensor Manifold.
Import ListNotations.
Open Scope geom_scope.

Module ExponentialDistributions.
Section Points.
  Context {K : Type} `{Scalar K}.

Definition dim : nat := 1.
Definition shape : list nat := [1].
Definition point_ndim : nat := length shape.

Definition batch_part (s : list nat) : list nat := firstn (length s - point_ndim) s.
Definition point_part (s : list nat) : list nat := skipn (length s - point_ndim) s.

  (** [belongs]: a point of the wrong trailing shape gets [False]; else
      [gs.squeeze(point >= -atol)], which squeezes every axis of size 1. *)
Definition belongs (point : tensor K) (atol : K) : result (tensor bool) :=
    if shape_eqb shape (point_part (tshape point))
    then Ok (squeeze (tmap (fun x => sleb (sopp atol) x) point))
    else Ok (mk_tensor (batch_part (tshape point))
                       (repeat false (numel (batch_part (tshape point))))).

  (** [random_point(n_samples, lower_bound, upper_bound)]: uniform draws
      on [[lower_bound, upper_bound)], of shape [(n_samples, dim)], or
      [(dim,)] when [n_samples == 1]. *)
Definition random_point (n_samples : nat) (lower_bound upper_bound : K) (st : rng K)
    : tensor K * rng K :=
    let size := if Nat.eqb n_samples 1 then [dim] else [n_samples; dim] in
    let (u, st') := rand (numel size) st in
    (mk_tensor size (map (fun x => sadd (smul (sadd upper_bound (sopp lower_bound)) x) lower_bound) u),
     st').

  (** [projection]: [gs.where(point < atol, atol, point)]. *)
Definition projection (point : tensor K) (atol : K) : tensor K :=
    tmap (fun x => if sltb x atol then atol else x) point.

  (** Inherited from [OpenSet] (specification): the embedding space is
      [Euclidean(dim=1)], whose [belongs] only checks the shape. *)
Definition is_tangent (vector base_point : tensor K) (atol : K) : result (tensor bool) :=
    if shape_eqb shape (point_part (tshape vector))
    then Ok (mk_tensor (batch_part (tshape vector)) (repeat true (numel (batch_part (tshape vector)))))
    else Ok (mk_tensor (batch_part (tshape vector)) (repeat false (numel (batch_part (tshape vector))))).

Definition to_tangent (vector base_point : tensor K) : result (tensor K) := Ok vector.
End Points.

(** The instance of the contract.  The product construction calls
    [base_manifold.random_point(n, bound)] positionally, so [bound]
    lands in [lower_bound] and [upper_bound] keeps its default [1.0];
    [projection] is called without [atol], which takes the backend's
    default [gs.atol]. *)
Definition Exponential_Manifold (K : Type) `{Scalar K} (default_atol : K) : Manifold K := {|
  m_dim := dim;
  m_shape := shape;
  m_belongs := belongs;
  m_is_tangent := is_tangent;
  m_to_tangent := to_tangent;
  m_projection := Some (fun p => Ok (projection p default_atol));
  m_random_point := fun n bound st =>
    let (t, st') := random_point n bound sone st in (Ok t, st')
|}.

Section Laws.
  Context {K : Type} `{Scalar K} (default_atol : K).

Lemma batch_of_exp (m : nat) (t : tensor K) :
    batch_of (Exponential_Manifold K default_atol) m t ->
    tshape t = [m; 1] /\ length (tdata t) = m.
  Proof. intros [Hwf Hs]. unfold wf in Hwf. rewrite Hs in Hwf |- *. simpl in Hwf. split; [reflexivity | lia]. Qed.

Lemma blocks_exp (m : nat) (l : list K) :
    length l = m -> blocks (Exponential_Manifold K default_atol) m l = map (fun x => [x]) l.
  Proof. intros <-. apply chunk_1. Qed.

Lemma point_part_batch (m : nat) : point_part [m; 1] = [1].
  Proof. reflexivity. Qed.

#[export] Instance Exponential_ManifoldLaws : ManifoldLaws K (Exponential_Manifold K default_atol).
  Proof.
    refine {|
      belongs_pt := fun atol blk => forallb (fun x => sleb (sopp atol) x) blk;
      is_tangent_pt := fun _ _ _ => true;
      to_tangent_pt := fun v _ => v;
      projection_pt := map (fun x => if sltb x default_atol then default_atol else x)
    |}.
    - unfold point_size. simpl. lia.
    - intros m [ts td] atol Hb. destruct (batch_of_exp m _ Hb) as [Hs Hl].
      simpl in Hs, Hl. subst ts. exists (filter (fun d => negb (Nat.eqb d 1)) [m; 1]).
      cbn. unfold squeeze, tmap. cbn. rewrite blocks_exp by exact Hl. rewrite map_map.
      do 2 f_equal. apply map_ext. intros x. simpl. now rewrite andb_true_r.
    - intros m [vs vd] [ps pd] atol Hv Hp. destruct (batch_of_exp m _ Hv) as [Hs Hl].
      destruct (batch_of_exp m _ Hp) as [_ Hl']. simpl in Hs, Hl, Hl'. subst vs.
      exists [m]. cbn. rewrite !blocks_exp by assumption.
      rewrite zip_with_const by (rewrite !length_map; congruence).
      rewrite length_map, Hl. do 3 f_equal. lia.
    - intros m [vs vd] [ps pd] Hv Hp. destruct (batch_of_exp m _ Hv) as [Hs Hl].
      destruct (batch_of_exp m _ Hp) as [_ Hl']. simpl in Hs, Hl, Hl'.
      exists vs. cbn. rewrite !blocks_exp by assumption.
      rewrite zip_with_fst by (rewrite !length_map; congruence).
      now rewrite concat_singletons.
    - intros v p Hv _. exact Hv.
    - intros proj Hproj m t Hb. cbn [m_projection Exponential_Manifold] in Hproj.
      injection Hproj as <-. destruct (batch_of_exp m t Hb) as [Hs Hl].
      exists (tshape t). unfold projection, tmap. rewrite blocks_exp by exact Hl.
      rewrite map_map. cbn. do 2 f_equal. clear. induction (tdata t) as [|x l IH]; simpl; f_equal; auto.
    - intros x Hx. now rewrite length_map.
    - intros m bound st Hm. cbn [m_random_point Exponential_Manifold].
      unfold random_point. cbv zeta.
      set (size := if Nat.eqb m 1 then [dim] else [m; dim]).
      assert (Hu : length (fst (rand (numel size) st)) = numel size) by apply length_rand.
      destruct (rand (numel size) st) as [u st'] eqn:E. simpl in Hu.
      eexists. split; [reflexivity|]. simpl tdata. rewrite length_map, Hu.
      unfold size, point_size, dim. cbn. destruct (Nat.eqb_spec m 1); simpl; lia.
  Defined.
End Laws.
(** ** The point set *)

Section PointSet.
  Context {K : Type} `{ScalarLaws K}.

(** C27.  [belongs] answers [x >= -atol] entry by entry, but its
    [gs.squeeze] removes every axis of size 1: a batch of shape [(m, 1)]
    gets an answer of shape [(m,)] when [m <> 1] and a 0-dimensional
    answer when [m = 1], where the contract promises shape [(m,)]. *)
Theorem belongs_squeezes_batch (m : nat) (l : list K) (atol : K) :
  belongs (mk_tensor [m; 1] l) atol
  = Ok (mk_tensor (if Nat.eqb m 1 then [] else [m]) (map (fun x => sleb (sopp atol) x) l)).
Proof. unfold belongs, squeeze, tmap. cbn. now destruct (Nat.eqb m 1). Qed.

  Context (sleb_refl : forall x : K, sleb x x = true)
          (sleb_trans : forall x y z : K, sleb x y = true -> sleb y z = true -> sleb x z = true).

Lemma projection_pt_ge (atol x : K) : sleb atol (if sltb x atol then atol else x) = true.
Proof. rewrite sltb_spec. destruct (sleb atol x) eqn:E; cbn; auto. Qed.

Lemma projection_pt_fixed (atol x : K) : sleb atol x = true -> (if sltb x atol then atol else x) = x.
Proof. intros E. now rewrite sltb_spec, E. Qed.

(** C28.  [projection] clips into the set: every entry of the projection
    is at least [atol], so positive entries below [atol] are raised to
    [atol] too, where the docstring floors only non-positive ones;
    entries already at least [atol] are kept, so the projection is
    idempotent, and the projected point belongs for every tolerance
    [atol'] with [-atol' <= atol]. *)
Theorem projection_clips (p : tensor K) (atol atol' : K) :
  (forall x, In x (tdata (projection p atol)) -> sleb atol x = true)
  /\ projection (projection p atol) atol = projection p atol
  /\ (Forall (fun x => sleb atol x = true) (tdata p) -> projection p atol = p)
  /\ (sleb (sopp atol') atol = true -> point_part (tshape p) = [1] ->
      exists s, belongs (projection p atol) atol' = Ok (mk_tensor s (repeat true (length (tdata p))))).
Proof.
  unfold projection, tmap. cbn [tdata tshape]. repeat split.
  - intros x Hx. apply in_map_iff in Hx as [y [<- _]]. apply projection_pt_ge.
  - f_equal. rewrite map_map. apply map_ext. intros x. apply projection_pt_fixed, projection_pt_ge.
  - intros HF. destruct p as [ps pd]. cbn in *. f_equal.
    rewrite <- (map_id pd) at 2. apply map_ext_in. intros x Hx.
    rewrite Forall_forall in HF. now apply projection_pt_fixed, HF.
  - intros Hle Hpp. unfold belongs. cbn [tshape tdata].
    replace (shape_eqb shape (point_part (tshape p))) with true by (rewrite Hpp; reflexivity).
    eexists. unfold squeeze, tmap. cbn [tdata tshape]. do 2 f_equal. rewrite map_map.
    induction (tdata p) as [|y l IH]; cbn; f_equal; auto.
    apply (sleb_trans _ atol); auto. apply projection_pt_ge.
Qed.
End PointSet.

(** ** Samples at real bounds *)

Section RealSamples.
Local Open Scope R_scope.

(** C32.  [random_point(n_samples, lower_bound, upper_bound)] draws
    [n_samples] points (one array of shape [(1,)] when [n_samples = 1])
    in [[lower_bound, upper_bound)] from uniform draws in [[0, 1)],
    consuming exactly one draw per point. *)
Theorem random_point_range (n_samples : nat) (lower_bound upper_bound : R) (st : rng R) :
  lower_bound < upper_bound -> (forall i, 0 <= rng_gen st i < 1) ->
  tshape (fst (random_point n_samples lower_bound upper_bound st))
    = (if Nat.eqb n_samples 1 then [1%nat] else [n_samples; 1%nat])
  /\ Forall (fun x => lower_bound <= x < upper_bound)
       (tdata (fst (random_point n_samples lower_bound upper_bound st)))
  /\ length (tdata (fst (random_point n_samples lower_bound upper_bound st)))
     = n_samples
  /\ rng_pos (snd (random_point n_samples lower_bound upper_bound st))
     = (rng_pos st + n_samples)%nat.
Proof.
  intros Hlu Hu. unfold random_point, rand. cbv zeta.
  assert (Hsz : numel (if Nat.eqb n_samples 1 then [ExponentialDistributions.dim]
                       else [n_samples; ExponentialDistributions.dim]) = n_samples)
    by (destruct (Nat.eqb_spec n_samples 1); cbn; lia).
  rewrite Hsz. cbn [fst snd tshape tdata rng_pos]. split; [|split; [|split]].
  - destruct (Nat.eqb n_samples 1); reflexivity.
  - rewrite map_map. apply Forall_forall. intros x Hx. apply in_map_iff in Hx as [i [<- _]].
    cbn. specialize (Hu i). nra.
  - now rewrite !length_map, length_seq.
  - reflexivity.
Qed.
End RealSamples.

End ExponentialDistributions.

#[export] Existing Instance ExponentialDistributions.Exponential_ManifoldLaws.

(** ** Examples at integer rates *)

Section Witnesses.
Local Open Scope Z_scope.

Lemma Zleb_trans (x y z : Z) : Z.leb x y = true -> Z.leb y z = true -> Z.leb x z = true.
Proof. rewrite !Z.leb_le. lia. Qed.

Lemma projection_clips_witness :
  ExponentialDistributions.projection (mk_tensor [3%nat; 1%nat] [-2; 2; 5]) 3
    = mk_tensor [3%nat; 1%nat] [3; 3; 5]
  /\ exists s, ExponentialDistributions.belongs
                 (ExponentialDistributions.projection (mk_tensor [3%nat; 1%nat] [-2; 2; 5]) 3) 0
               = Ok (mk_tensor s [true; true; true]).
Proof.
  split; [reflexivity|].
  assert (Hr : forall x : Z, sleb x x = true) by exact Z.leb_refl.
  assert (Ht : forall x y z : Z, sleb x y = true -> sleb y z = true -> sleb x z = true) by exact Zleb_trans.
  destruct (ExponentialDistributions.projection_clips Hr Ht
              (mk_tensor [3%nat; 1%nat] [-2; 2; 5]) 3 0) as [_ [_ [_ H4]]].
  apply H4; reflexivity.
Defined.
Lemma random_point_range_witness :
  tshape (fst (ExponentialDistributions.random_point 3%nat (1 / 10)%R 1%R (mk_rng (fun _ => (1 / 2)%R) 0%nat))) = [3%nat; 1%nat]
  /\ Forall (fun x => (1 / 10 <= x < 1)%R)
       (tdata (fst (ExponentialDistributions.random_point 3%nat (1 / 10)%R 1%R (mk_rng (fun _ => (1 / 2)%R) 0%nat))))
  /\ length (tdata (fst (ExponentialDistributions.random_point 3%nat (1 / 10)%R 1%R (mk_rng (fun _ => (1 / 2)%R) 0%nat)))) = 3%nat
  /\ rng_pos (snd (ExponentialDistributions.random_point 3%nat (1 / 10)%R 1%R (mk_rng (fun _ => (1 / 2)%R) 0%nat))) = 3%nat.
Proof.
  apply (ExponentialDistributions.random_point_range 3 (1 / 10)%R 1%R (mk_rng (fun _ => (1 / 2)%R) 0%nat));
    [lra | intros i; cbn; lra].
Defined.
End Witnesses.
