(* ===== verification/ExponentialMetric.v ===== *)
(** * The Fisher metric of exponential distributions ([exponential.py], class [ExponentialMetric])

    Over the real numbers of the Standard Library: [exp] and [ln] are the
    mathematical functions that the floating-point code approximates, and
    [x ** t] for a positive base is [Rpower x t].  The closed forms the
    class provides ([squared_dist], [metric_matrix], [exp], [log], and the
    geodesic paths [_geodesic_ivp], [_geodesic_bvp]) are compared with the
    generic definitions of the metric contract: the closed-form distance
    is the default [inner_product(log(b, a), log(b, a), a)], the geodesic
    of an initial velocity is [t -> exp(t v, p)], the geodesic between two
    points starts and ends at them, [exp] and [log] are inverse, and
    geodesics have constant speed. *)

From Stdlib Require Import String Arith Lia Bool List Reals Lra.
From S2P Require Import Prelude Tensor Manifold Exponential.
Import ListNotations.
Open Scope geom_scope.

Local Open Scope R_scope.

Module ExponentialMetric.

  (** [gs.squeeze(gs.log(point_a / point_b) ** 2)] *)
Definition squared_dist (point_a point_b : tensor R) : result (tensor R) :=
    r <- elementwise2 (fun a b => a / b) point_a point_b ;;
    Ok (squeeze (tmap (fun x => (ln x) ^ 2) r)).

  (** [gs.expand_dims(1 / base_point**2, axis=-1)] *)
Definition metric_matrix (base_point : tensor R) : result (tensor R) :=
    Ok (expand_dims_last (tmap (fun x => 1 / x ^ 2) base_point)).

  (** Not overridden: the contract's inner product from the metric matrix. *)
Definition inner_product (tangent_vec_a tangent_vec_b base_point : tensor R) : result (tensor R) :=
    default_inner_product metric_matrix 1 tangent_vec_a tangent_vec_b base_point.

  (** [t = reshape(t, (-1,))]; [base_aux, t_aux = broadcast_arrays(base, t)];
      [expand_dims(initial_point * base_aux ** t_aux, axis=-1)] *)
Definition _geodesic_path (t : list R) (initial_point base : tensor R) : result (tensor R) :=
    '(base_aux, t_aux) <- broadcast_arrays2 base (mk_tensor [length t] t) ;;
    pw <- elementwise2 Rpower base_aux t_aux ;;
    r <- elementwise2 Rmult initial_point pw ;;
    Ok (expand_dims_last r).

  (** [base = gs.exp(initial_tangent_vec / initial_point)] *)
Definition _geodesic_ivp (initial_point initial_tangent_vec : tensor R)
    : result (list R -> result (tensor R)) :=
    q <- elementwise2 Rdiv initial_tangent_vec initial_point ;;
    let base := tmap exp q in
    Ok (fun t => _geodesic_path t initial_point base).

  (** [base = end_point / initial_point] *)
Definition _geodesic_bvp (initial_point end_point : tensor R)
    : result (list R -> result (tensor R)) :=
    base <- elementwise2 Rdiv end_point initial_point ;;
    Ok (fun t => _geodesic_path t initial_point base).

  (** [gs.exp(tangent_vec / base_point) * base_point] *)
Definition exp (tangent_vec base_point : tensor R) : result (tensor R) :=
    q <- elementwise2 Rdiv tangent_vec base_point ;;
    elementwise2 Rmult (tmap Rtrigo_def.exp q) base_point.

  (** [base_point * gs.log(point / base_point)] *)
Definition log (point base_point : tensor R) : result (tensor R) :=
    q <- elementwise2 Rdiv point base_point ;;
    elementwise2 Rmult base_point (tmap ln q).

  (** The point-wise closed forms. *)
Definition exp_pt (v p : R) : R := Rtrigo_def.exp (v / p) * p.
Definition log_pt (q p : R) : R := p * ln (q / p).

End ExponentialMetric.

(** ** Real identities behind the closed forms *)

Section RealFacts.
Lemma ln_div (x y : R) : 0 < x -> 0 < y -> ln (x / y) = ln x - ln y.
  Proof.
    intros Hx Hy. unfold Rdiv. rewrite ln_mult by (auto; apply Rinv_0_lt_compat; exact Hy).
    rewrite ln_Rinv by exact Hy. ring.
  Qed.

Lemma exp_log_pt (q p : R) : 0 < p -> 0 < q ->
    ExponentialMetric.exp_pt (ExponentialMetric.log_pt q p) p = q.
  Proof.
    intros Hp Hq. unfold ExponentialMetric.exp_pt, ExponentialMetric.log_pt.
    replace (p * ln (q / p) / p) with (ln (q / p)) by (field; lra).
    rewrite exp_ln by (apply Rdiv_lt_0_compat; lra). field. lra.
  Qed.

Lemma log_exp_pt (v p : R) : 0 < p ->
    ExponentialMetric.log_pt (ExponentialMetric.exp_pt v p) p = v.
  Proof.
    intros Hp. unfold ExponentialMetric.exp_pt, ExponentialMetric.log_pt.
    replace (Rtrigo_def.exp (v / p) * p / p) with (Rtrigo_def.exp (v / p)) by (field; lra).
    rewrite ln_exp. field. lra.
  Qed.

Lemma Rpower_exp (a t : R) : Rpower (Rtrigo_def.exp a) t = Rtrigo_def.exp (t * a).
  Proof. unfold Rpower. now rewrite ln_exp. Qed.
End RealFacts.

#[export] Hint Resolve exp_log_pt log_exp_pt : geom.
#[export] Hint Rewrite Rpower_exp : geom_rw.

(** The metric as an instance of the contract, over the exponential
    distributions at reals. *)
Definition Exponential_Metric (default_atol : R)
  : RiemannianMetric R (ExponentialDistributions.Exponential_Manifold R default_atol) := {|
  g_metric_matrix := ExponentialMetric.metric_matrix;
  g_inner_product := ExponentialMetric.inner_product;
  g_exp := ExponentialMetric.exp;
  g_log := ExponentialMetric.log
|}.

(** [ExponentialDistributions.default_metric()] returns [ExponentialMetric]. *)
Definition default_metric (default_atol : R)
  : RiemannianMetric R (ExponentialDistributions.Exponential_Manifold R default_atol) :=
  Exponential_Metric default_atol.

(** [ExponentialDistributions(equip)]: with [equip=True] the space is
    equipped with its default metric, otherwise with none. *)
Definition equipped_metric (equip : bool) (default_atol : R)
  : option (RiemannianMetric R (ExponentialDistributions.Exponential_Manifold R default_atol)) :=
  if equip then Some (default_metric default_atol) else None.

(** ** Behaviour on arrays of rates *)

Section MetricTheorems.
Definition pos (t : tensor R) : Prop := Forall (fun x => 0 < x) (tdata t).

Lemma same_length (a b : tensor R) :
    wf a -> wf b -> tshape a = tshape b -> length (tdata a) = length (tdata b).
  Proof. unfold wf. intros -> -> ->. reflexivity. Qed.

Lemma wf_zip (f : R -> R -> R) (a b : tensor R) (s : list nat) :
    wf a -> wf b -> tshape a = tshape b -> s = tshape a ->
    wf (mk_tensor s (zip_with f (tdata a) (tdata b))).
  Proof.
    intros Ha Hb E ->. unfold wf. simpl. rewrite zip_with_length_eq; [exact Ha|].
    now apply same_length.
  Qed.

Lemma exp_spec (v p : tensor R) :
    wf v -> wf p -> tshape v = tshape p ->
    ExponentialMetric.exp v p
    = Ok (mk_tensor (tshape v) (zip_with ExponentialMetric.exp_pt (tdata v) (tdata p))).
  Proof.
    intros Hv Hp E. unfold ExponentialMetric.exp. rewrite elementwise2_same by auto.
    cbn [rbind]. rewrite elementwise2_same; [| apply wf_tmap, (wf_zip _ v p); auto | exact Hp | exact E].
    unfold tmap. cbn. now rewrite zip_with_map_l_zip.
  Qed.

Lemma log_spec (q p : tensor R) :
    wf q -> wf p -> tshape q = tshape p ->
    ExponentialMetric.log q p
    = Ok (mk_tensor (tshape p) (zip_with ExponentialMetric.log_pt (tdata q) (tdata p))).
  Proof.
    intros Hq Hp E. unfold ExponentialMetric.log. rewrite elementwise2_same by auto.
    cbn [rbind]. rewrite elementwise2_same; [| exact Hp | apply wf_tmap, (wf_zip _ q p); auto | exact (eq_sym E)].
    unfold tmap. cbn. now rewrite zip_with_map_r_zip.
  Qed.

  (** C8.  [exp] inverts [log]: shooting from [p] with the logarithm of
      [q] lands on [q], for positive rates. *)
Theorem exp_log_roundtrip (q p : tensor R) :
    wf q -> wf p -> tshape q = tshape p -> pos q -> pos p ->
    exists l, ExponentialMetric.log q p = Ok l /\ ExponentialMetric.exp l p = Ok q.
  Proof.
    intros Hq Hp E Pq Pp. eexists. split; [apply log_spec; auto|].
    rewrite exp_spec; [| apply (wf_zip _ q p); auto | exact Hp | reflexivity].
    cbn [tdata tshape]. rewrite zip_with_zip_with_r.
    rewrite (zip_with_ext_in _ (fun x _ => x)).
    - rewrite zip_with_fst by (now apply same_length). destruct q; simpl in *; now subst.
    - intros x y Hx Hy. unfold pos in Pq, Pp. rewrite Forall_forall in Pq, Pp.
      apply exp_log_pt; auto.
  Qed.

  (** C9.  [log] inverts [exp]: the logarithm of the point reached from
      [p] with velocity [v] is [v]. *)
Theorem log_exp_roundtrip (v p : tensor R) :
    wf v -> wf p -> tshape v = tshape p -> pos p ->
    exists e, ExponentialMetric.exp v p = Ok e /\ ExponentialMetric.log e p = Ok v.
  Proof.
    intros Hv Hp E Pp. eexists. split; [apply exp_spec; auto|].
    rewrite log_spec; [| apply (wf_zip _ v p); auto | exact Hp | exact E].
    cbn [tdata tshape]. rewrite zip_with_zip_with_r.
    rewrite (zip_with_ext_in _ (fun x _ => x)).
    - rewrite zip_with_fst by (now apply same_length). destruct v; simpl in *; now subst.
    - intros x y Hx Hy. unfold pos in Pp. rewrite Forall_forall in Pp. apply log_exp_pt; auto.
  Qed.
End MetricTheorems.

(** ** The closed-form distance against the contract's default *)

Section SquaredDist.
Lemma sqdist_pt (x y : R) : 0 < x -> 0 < y ->
    bilinear 1 [ExponentialMetric.log_pt y x] [ExponentialMetric.log_pt y x] [1 / x ^ 2]
    = ln (x / y) ^ 2.
  Proof.
    intros Hx Hy. unfold bilinear, ExponentialMetric.log_pt. cbn.
    rewrite !ln_div by assumption. field. lra.
  Qed.

Lemma sqdist_list (la lb : list R) :
    length la = length lb -> Forall (fun x => 0 < x) la -> Forall (fun x => 0 < x) lb ->
    zip_with3 (bilinear 1)
      (map (fun x => [x]) (zip_with ExponentialMetric.log_pt lb la))
      (map (fun x => [x]) (zip_with ExponentialMetric.log_pt lb la))
      (map (fun x => [x]) (map (fun x => 1 / x ^ 2) la))
    = zip_with (fun x y => ln (x / y) ^ 2) la lb.
  Proof.
    revert lb; induction la as [|x la IH]; intros [|y lb] Hl Ha Hb; simpl in *; try lia; auto.
    inversion Ha; inversion Hb; subst. f_equal; [now apply sqdist_pt | apply IH; auto].
  Qed.

  (** C15.  The closed form [squared_dist(a, b) = log(a / b) ** 2] agrees
      with the contract's default [inner_product(log(b, a), log(b, a), a)]
      entry by entry; its [gs.squeeze] however drops every axis of size 1,
      so the two shapes differ as soon as the batch has such an axis. *)
Theorem squared_dist_closed_form (atol : R) (batch : list nat) (a b : tensor R) :
    wf a -> wf b -> tshape a = batch ++ [1%nat] -> tshape b = batch ++ [1%nat] -> pos a -> pos b ->
    ExponentialMetric.squared_dist a b
      = Ok (mk_tensor (filter (fun d => negb (Nat.eqb d 1%nat)) (batch ++ [1%nat]))
                      (zip_with (fun x y => ln (x / y) ^ 2) (tdata a) (tdata b)))
    /\ default_squared_dist (Exponential_Metric atol) a b
      = Ok (mk_tensor batch (zip_with (fun x y => ln (x / y) ^ 2) (tdata a) (tdata b))).
  Proof.
    intros Ha Hb Sa Sb Pa Pb. assert (E : tshape a = tshape b) by congruence.
    assert (Hlen : length (tdata a) = length (tdata b)) by (now apply same_length).
    split.
    - unfold ExponentialMetric.squared_dist. rewrite elementwise2_same by auto. cbn [rbind].
      unfold squeeze, tmap. cbn. rewrite Sa, zip_with_map. reflexivity.
    - unfold default_squared_dist. cbn [g_log g_inner_product Exponential_Metric].
      rewrite log_spec by auto. cbn [rbind]. unfold ExponentialMetric.inner_product, default_inner_product.
      rewrite broadcast_arrays3_same; try reflexivity; try (apply (wf_zip _ b a); auto); auto.
      cbn [rbind tshape]. rewrite Sa, firstn_snoc_pred.
      unfold ExponentialMetric.metric_matrix. cbn [rbind expand_dims_last tmap tdata].
      assert (HN : length (tdata a) = numel batch)
        by (unfold wf in Ha; rewrite Ha, Sa, numel_snoc; lia).
      rewrite !chunk_1_len; try (rewrite ?length_map, ?zip_with_length_eq; lia).
      rewrite sqdist_list; auto.
  Qed.
End SquaredDist.

(** ** Geodesics *)

Section Geodesics.
Lemma single_wf (x : R) : wf (mk_tensor [1%nat] [x]).
  Proof. reflexivity. Qed.

Lemma elementwise2_singles (f : R -> R -> R) (x y : R) :
    elementwise2 f (mk_tensor [1%nat] [x]) (mk_tensor [1%nat] [y]) = Ok (mk_tensor [1%nat] [f x y]).
  Proof. rewrite elementwise2_same by reflexivity. reflexivity. Qed.

  (** The path of [_geodesic_path] from one rate [p] with one base [b]. *)
Lemma geodesic_path_single (p b : R) (ts : list R) :
    ExponentialMetric._geodesic_path ts (mk_tensor [1%nat] [p]) (mk_tensor [1%nat] [b])
    = Ok (mk_tensor [length ts; 1%nat] (map (fun t => p * Rpower b t) ts)).
  Proof.
    unfold ExponentialMetric._geodesic_path.
    rewrite broadcast_arrays2_single_l by reflexivity. cbn [rbind].
    rewrite elementwise2_same
      by (try reflexivity; unfold wf; cbn [tshape tdata numel fold_right]; rewrite ?repeat_length; lia).
    cbn [rbind tshape tdata]. rewrite zip_with_repeat_l.
    rewrite elementwise2_single_l by (now rewrite length_map). cbn.
    now rewrite map_map.
  Qed.

Lemma geodesic_ivp_single (p v : R) :
    ExponentialMetric._geodesic_ivp (mk_tensor [1%nat] [p]) (mk_tensor [1%nat] [v])
    = Ok (fun ts => ExponentialMetric._geodesic_path ts (mk_tensor [1%nat] [p])
                      (mk_tensor [1%nat] [Rtrigo_def.exp (v / p)])).
  Proof. unfold ExponentialMetric._geodesic_ivp. now rewrite elementwise2_singles. Qed.

  (** C16.  The geodesic of an initial velocity [v] at a rate [p] is
      [t -> exp(t v, p)]: the closed-form path [p * exp(v / p) ** t]
      is the exponential map along the ray [t v]. *)
Theorem geodesic_ivp_is_exp (p v : R) (ts : list R) :
    0 < p ->
    exists path, ExponentialMetric._geodesic_ivp (mk_tensor [1%nat] [p]) (mk_tensor [1%nat] [v]) = Ok path
      /\ path ts = Ok (mk_tensor [length ts; 1%nat] (map (fun t => ExponentialMetric.exp_pt (t * v) p) ts)).
  Proof.
    intros Hp. rewrite geodesic_ivp_single. eexists. split; [reflexivity|].
    cbv beta. rewrite geodesic_path_single. do 2 f_equal. apply map_ext. intros t.
    unfold ExponentialMetric.exp_pt. rewrite Rpower_exp.
    replace (t * (v / p)) with (t * v / p) by (field; lra). ring.
  Qed.

Lemma geodesic_bvp_single (p q : R) :
    ExponentialMetric._geodesic_bvp (mk_tensor [1%nat] [p]) (mk_tensor [1%nat] [q])
    = Ok (fun ts => ExponentialMetric._geodesic_path ts (mk_tensor [1%nat] [p]) (mk_tensor [1%nat] [q / p])).
  Proof. unfold ExponentialMetric._geodesic_bvp. now rewrite elementwise2_singles. Qed.

  (** C17.  The geodesic between two rates starts at the first ([t = 0])
      and ends at the second ([t = 1]). *)
Theorem geodesic_bvp_endpoints (p q : R) :
    0 < p -> 0 < q ->
    exists path, ExponentialMetric._geodesic_bvp (mk_tensor [1%nat] [p]) (mk_tensor [1%nat] [q]) = Ok path
      /\ path [0; 1] = Ok (mk_tensor [2%nat; 1%nat] [p; q]).
  Proof.
    intros Hp Hq. rewrite geodesic_bvp_single. eexists. split; [reflexivity|].
    cbv beta. rewrite geodesic_path_single. cbn [length map].
    assert (Hb : 0 < q / p) by (apply Rdiv_lt_0_compat; lra).
    rewrite Rpower_O, Rpower_1 by exact Hb. do 3 f_equal; [ring | f_equal; field; lra].
  Qed.

  (** The boundary-value geodesic is the initial-value geodesic shot with
      the logarithm of the end point. *)
Theorem geodesic_bvp_is_ivp_of_log (p q : R) (ts : list R) :
    0 < p -> 0 < q ->
    exists bvp ivp,
      ExponentialMetric._geodesic_bvp (mk_tensor [1%nat] [p]) (mk_tensor [1%nat] [q]) = Ok bvp
      /\ ExponentialMetric._geodesic_ivp (mk_tensor [1%nat] [p])
           (mk_tensor [1%nat] [ExponentialMetric.log_pt q p]) = Ok ivp
      /\ bvp ts = ivp ts.
  Proof.
    intros Hp Hq. rewrite geodesic_bvp_single, geodesic_ivp_single.
    do 2 eexists. split; [reflexivity|]. split; [reflexivity|]. cbv beta.
    unfold ExponentialMetric.log_pt.
    replace (p * ln (q / p) / p) with (ln (q / p)) by (field; lra).
    rewrite exp_ln by (apply Rdiv_lt_0_compat; lra). reflexivity.
  Qed.

Lemma ln_path_ratio (p q t : R) :
    0 < p -> 0 < q -> ln (p / (p * Rpower (q / p) t)) ^ 2 = t ^ 2 * ln (p / q) ^ 2.
  Proof.
    intros Hp Hq. assert (Hb : 0 < q / p) by (apply Rdiv_lt_0_compat; lra).
    assert (HR : 0 < Rpower (q / p) t) by apply exp_pos.
    rewrite ln_div, ln_mult, ln_Rpower, !ln_div by (auto; nra). ring.
  Qed.

  (** C18.  Geodesics have constant speed: on the geodesic between two
      rates [p] and [q], the [squared_dist] from [p] to the point at time
      [t] is [t ** 2] times the [squared_dist] from [p] to [q]. *)
Theorem geodesic_constant_speed (p q t : R) :
    0 < p -> 0 < q ->
    exists path g, ExponentialMetric._geodesic_bvp (mk_tensor [1%nat] [p]) (mk_tensor [1%nat] [q]) = Ok path
      /\ path [t] = Ok g
      /\ ExponentialMetric.squared_dist (mk_tensor [1%nat] [p]) (mk_tensor [1%nat] (tdata g))
         = Ok (mk_tensor [] [t ^ 2 * ln (p / q) ^ 2])
      /\ ExponentialMetric.squared_dist (mk_tensor [1%nat] [p]) (mk_tensor [1%nat] [q])
         = Ok (mk_tensor [] [ln (p / q) ^ 2]).
  Proof.
    intros Hp Hq. rewrite geodesic_bvp_single. do 2 eexists. split; [reflexivity|].
    split; [cbv beta; apply geodesic_path_single|]. cbn [tdata map].
    unfold ExponentialMetric.squared_dist. rewrite !elementwise2_singles. cbn [rbind].
    pose proof (ln_path_ratio p q t Hp Hq) as E. cbn in E.
    split; unfold squeeze, tmap; cbn; [now rewrite E | reflexivity].
  Qed.
End Geodesics.

(** ** The metric satisfies the contract

    Points of [ExponentialDistributions] have one coordinate, so the
    point-wise operations act on blocks [[x]]; [exp] and [log] apply the
    closed forms entry by entry.  The instance is transparent so that the
    product construction's theorems can be applied to it on concrete
    arrays. *)
Section Contract.
  Variable atol : R.

#[export] Instance Exponential_MetricLaws
  : MetricLaws R (ExponentialDistributions.Exponential_Manifold R atol) (Exponential_Metric atol).
  Proof.
    refine {|
      metric_len := 1%nat;
      metric_matrix_pt := map (fun x => 1 / x ^ 2);
      inner_product_pt := fun u v p => bilinear 1 u v (map (fun x => 1 / x ^ 2) p);
      exp_pt := zip_with ExponentialMetric.exp_pt;
      log_pt := zip_with ExponentialMetric.log_pt
    |}.
    - intros m p Hb. destruct (ExponentialDistributions.batch_of_exp atol m p Hb) as [Hs Hl].
      eexists. cbn [g_metric_matrix Exponential_Metric]. unfold ExponentialMetric.metric_matrix.
      unfold expand_dims_last, tmap. cbn [tdata]. rewrite ExponentialDistributions.blocks_exp by exact Hl.
      rewrite map_map. cbn [map]. now rewrite concat_map_singletons.
    - intros p Hp. now rewrite length_map.
    - intros m u v p Hu Hv Hp.
      destruct (ExponentialDistributions.batch_of_exp atol m u Hu) as [Su Lu].
      destruct (ExponentialDistributions.batch_of_exp atol m v Hv) as [Sv Lv].
      destruct (ExponentialDistributions.batch_of_exp atol m p Hp) as [Sp Lp].
      eexists. cbn [g_inner_product Exponential_Metric].
      unfold ExponentialMetric.inner_product, default_inner_product.
      rewrite broadcast_arrays3_same by (apply Hu || apply Hv || apply Hp || congruence).
      cbn [rbind]. rewrite Su. cbn [length firstn Nat.sub]. unfold ExponentialMetric.metric_matrix.
      cbn [rbind expand_dims_last tmap tdata]. replace (numel [m]) with m by (cbn; lia).
      rewrite !ExponentialDistributions.blocks_exp by assumption.
      rewrite !chunk_1_len by (rewrite ?length_map; assumption).
      rewrite map_map, !zip_with3_map_all. reflexivity.
    - intros m v p Hv Hp.
      destruct (ExponentialDistributions.batch_of_exp atol m v Hv) as [Sv Lv].
      destruct (ExponentialDistributions.batch_of_exp atol m p Hp) as [Sp Lp].
      eexists. cbn [g_exp Exponential_Metric]. rewrite exp_spec by (apply Hv || apply Hp || congruence).
      rewrite !ExponentialDistributions.blocks_exp by assumption.
      now rewrite concat_zip_with_singletons.
    - intros m q p Hq Hp.
      destruct (ExponentialDistributions.batch_of_exp atol m q Hq) as [Sq Lq].
      destruct (ExponentialDistributions.batch_of_exp atol m p Hp) as [Sp Lp].
      eexists. cbn [g_log Exponential_Metric]. rewrite log_spec by (apply Hq || apply Hp || congruence).
      rewrite !ExponentialDistributions.blocks_exp by assumption.
      now rewrite concat_zip_with_singletons.
    - intros v p Hv Hp. rewrite length_zip_with, Hv, Hp. apply Nat.min_id.
    - intros q p Hq Hp. rewrite length_zip_with, Hq, Hp. apply Nat.min_id.
  Defined.
End Contract.

(** ** Examples on concrete rates *)

Section Witnesses.
Local Abbreviation R1 := (mk_tensor [1%nat] [1]).
Local Abbreviation R2 := (mk_tensor [1%nat] [2]).

Lemma pos_R12 : pos R1 /\ pos R2.
  Proof. split; repeat constructor; lra. Qed.

Lemma exp_log_roundtrip_witness :
    exists l, ExponentialMetric.log R2 R1 = Ok l /\ ExponentialMetric.exp l R1 = Ok R2.
  Proof.
    apply exp_log_roundtrip; try reflexivity; apply pos_R12.
  Defined.

Lemma log_exp_roundtrip_witness :
    exists e, ExponentialMetric.exp R2 R1 = Ok e /\ ExponentialMetric.log e R1 = Ok R2.
  Proof.
    apply log_exp_roundtrip; try reflexivity; apply pos_R12.
  Defined.

Lemma squared_dist_closed_form_witness :
    ExponentialMetric.squared_dist (mk_tensor [2%nat; 1%nat] [1; 2]) (mk_tensor [2%nat; 1%nat] [3; 4])
      = Ok (mk_tensor [2%nat] [ln (1 / 3) ^ 2; ln (2 / 4) ^ 2])
    /\ default_squared_dist (Exponential_Metric 0)
         (mk_tensor [2%nat; 1%nat] [1; 2]) (mk_tensor [2%nat; 1%nat] [3; 4])
      = Ok (mk_tensor [2%nat] [ln (1 / 3) ^ 2; ln (2 / 4) ^ 2]).
  Proof.
    apply (squared_dist_closed_form 0 [2%nat]); try reflexivity; repeat constructor; lra.
  Defined.

Lemma geodesic_ivp_is_exp_witness :
    exists path, ExponentialMetric._geodesic_ivp R2 R1 = Ok path
      /\ path [0; 1] = Ok (mk_tensor [2%nat; 1%nat]
                           [ExponentialMetric.exp_pt (0 * 1) 2; ExponentialMetric.exp_pt (1 * 1) 2]).
  Proof.
    apply (geodesic_ivp_is_exp 2 1 [0; 1]). lra.
  Defined.

Lemma geodesic_bvp_endpoints_witness :
    exists path, ExponentialMetric._geodesic_bvp R1 R2 = Ok path
      /\ path [0; 1] = Ok (mk_tensor [2%nat; 1%nat] [1; 2]).
  Proof.
    apply geodesic_bvp_endpoints; lra.
  Defined.

Lemma geodesic_constant_speed_witness :
    exists path g, ExponentialMetric._geodesic_bvp R1 R2 = Ok path
      /\ path [1 / 2] = Ok g
      /\ ExponentialMetric.squared_dist R1 (mk_tensor [1%nat] (tdata g))
         = Ok (mk_tensor [] [(1 / 2) ^ 2 * ln (1 / 2) ^ 2])
      /\ ExponentialMetric.squared_dist R1 R2 = Ok (mk_tensor [] [ln (1 / 2) ^ 2]).
  Proof.
    apply geodesic_constant_speed; lra.
  Defined.
End Witnesses.
