(* ===== verification/ExponentialDensity.v ===== *)
(** * The density of an exponential distribution at real rates

    [ExponentialDistributions.point_to_pdf] ([exponential.py]) returns
    the density of the law a point stands for.  The theorem states the
    density the code computes, [point * exp(-point * x)] on [x >= 0] and
    [0] elsewhere: the point is used as the rate, where the docstring
    calls it the scale.  Module [ExponentialDistributionsRandomVariable]
    holds [_flatten_params], which hands scipy's sampler the scale
    [1 / point]; the second theorem shows that this scale and the rate
    of [point_to_pdf] describe the same law.  The same Module models the
    constructor and the base class's [rvs] (not in the repository; with
    the layout [[..., n_samples]] the docstring of [sample] gives), and
    Module
    [ExponentialDistributionsSampling] models [sample]: its samples are
    non-negative and the distribution function of the rate-[point] law
    maps them back to their uniform draws, so the sampler draws from the
    law whose density [point_to_pdf] computes. *)

From Stdlib Require Import String Arith Lia Bool List Reals Lra.
From S2P Require Import Prelude Tensor Manifold Exponential ExponentialMetric.
Import ListNotations.
Open Scope geom_scope.
Local Open Scope R_scope.

Module ExponentialDistributionsPdf.

(** [point_to_pdf(point)] returns [pdf]: [x = gs.reshape(gs.array(x), (-1,))],
    [pdf_at_x = point * gs.exp(-point * x)], [gs.where(x >= 0, pdf_at_x, 0.0)]. *)
Definition point_to_pdf (point : tensor R) : list R -> result (tensor R) :=
  fun x =>
    let x := mk_tensor [length x] x in
    e <- elementwise2 Rmult (tmap Ropp point) x ;;
    pdf_at_x <- elementwise2 Rmult point (tmap exp e) ;;
    gs_where (tmap (fun y => if Rle_dec 0 y then true else false) x) pdf_at_x 0.

(** The density of the exponential law of rate [rate] at [y]. *)
Definition density (rate y : R) : R := if Rle_dec 0 y then rate * exp (- rate * y) else 0.

(** Its distribution function on [y >= 0]. *)
Definition distribution (rate y : R) : R := 1 - exp (- rate * y).

End ExponentialDistributionsPdf.

Module ExponentialDistributionsRandomVariable.

(** [_flatten_params(point, pre_flat_shape)]:
    [gs.reshape(gs.broadcast_to(1 / point, pre_flat_shape), (-1,))],
    returned as the [scale] keyword of [scipy.stats.expon]. *)
Definition _flatten_params (point : tensor R) (pre_flat_shape : list nat)
  : result (string * tensor R) :=
  b <- broadcast_to (tmap Rinv point) pre_flat_shape ;;
  flat_scale_param <- reshape_infer b [] ;;
  Ok ("scale"%string, flat_scale_param).

(** [scipy.stats.expon.pdf(x, scale=s)] (not in the repository): the
    density [exp(-x / s) / s] on [x >= 0]. *)
Definition expon_pdf (scale x : R) : R := if Rle_dec 0 x then / scale * exp (- (x / scale)) else 0.

(** [scipy.stats.expon.rvs(scale=s)] (not in the repository): a sample,
    by inversion of a uniform draw [u] of [[0, 1)]. *)
Definition expon_rvs (scale u : R) : R := - scale * ln (1 - u).

(** [ScipyUnivariateRandomVariable] (not in the repository): the sampler
    and the density it is built with, and the parameter flattening of
    the subclass. *)
Record ScipyUnivariateRandomVariable : Type := mk_scipy_univariate_random_variable {
  rvs_func : R -> R -> R;
  pdf_func : R -> R -> R;
  flatten_params : tensor R -> list nat -> result (string * tensor R)
}.

(** [__init__(space)]: [super().__init__(space, expon.rvs, expon.pdf)],
    with this class's [_flatten_params]. *)
Definition init : ScipyUnivariateRandomVariable :=
  mk_scipy_univariate_random_variable expon_rvs expon_pdf _flatten_params.

(** [ScipyUnivariateRandomVariable.rvs(point, n_samples)] (not in the
    repository), with the layout the docstring of [sample] gives,
    [[..., n_samples]]: the parameters flattened for
    [point.shape[:-1] + (n_samples,)], one uniform draw per flattened
    parameter, the samples in that shape. *)
Definition rvs (rv : ScipyUnivariateRandomVariable) (point : tensor R) (n_samples : nat)
    (st : rng R) : result (tensor R) * rng R :=
  let pre_flat_shape := firstn (length (tshape point) - 1) (tshape point) ++ [n_samples] in
  match flatten_params rv point pre_flat_shape with
  | Err e => (Err e, st)
  | Ok (_, flat) =>
      let '(us, st') := rand (length (tdata flat)) st in
      (reshape (mk_tensor (tshape flat) (zip_with (rvs_func rv) (tdata flat) us)) pre_flat_shape, st')
  end.

End ExponentialDistributionsRandomVariable.

Module ExponentialDistributionsSampling.

(** [ExponentialDistributions.sample(point, n_samples)]:
    [self._scp_rv.rvs(point, n_samples)], with the random variable the
    constructor builds. *)
Definition sample (point : tensor R) (n_samples : nat) (st : rng R) : result (tensor R) * rng R :=
  ExponentialDistributionsRandomVariable.rvs ExponentialDistributionsRandomVariable.init
    point n_samples st.

End ExponentialDistributionsSampling.

Section Density.

Lemma point_to_pdf_single (rate : R) (xs : list R) :
ExponentialDistributionsPdf.point_to_pdf (mk_tensor [1%nat] [rate]) xs
= Ok (mk_tensor [length xs] (map (ExponentialDistributionsPdf.density rate) xs)).
Proof.
unfold ExponentialDistributionsPdf.point_to_pdf. cbv zeta.
change (tmap Ropp (mk_tensor [1%nat] [rate])) with (mk_tensor [1%nat] [- rate]).
rewrite elementwise2_single_l by reflexivity. cbn [rbind]. unfold tmap. cbn [tshape tdata].
rewrite elementwise2_single_l by now rewrite length_map, length_map. cbn [rbind].
rewrite gs_where_same by (unfold wf; cbn; rewrite ?length_map; try reflexivity; lia).
cbn [tshape tdata]. do 2 f_equal. rewrite map_map.
induction xs as [|y xs IH]; [reflexivity|]. cbn [zip_with map]. f_equal; [|exact IH].
unfold ExponentialDistributionsPdf.density. now destruct (Rle_dec 0 y).
Qed.

(** C29.  [point_to_pdf] computes the density of the exponential law whose
  RATE is the point: [rate * exp(-rate * x)] for [x >= 0] and [0] for
  [x < 0], non-negative for a positive rate; at [x = 0] it is the rate
  itself, where the law of scale [rate] that the docstring announces has
  density [1 / rate]. *)
Theorem point_to_pdf_is_rate_density (rate : R) (xs : list R) :
0 < rate ->
exists pdf, ExponentialDistributionsPdf.point_to_pdf (mk_tensor [1%nat] [rate]) xs = Ok pdf
  /\ tshape pdf = [length xs]
  /\ tdata pdf = map (fun y => if Rle_dec 0 y then rate * exp (- rate * y) else 0) xs
  /\ Forall (fun d => 0 <= d) (tdata pdf)
  /\ ExponentialDistributionsPdf.point_to_pdf (mk_tensor [1%nat] [rate]) [0]
     = Ok (mk_tensor [1%nat] [rate]).
Proof.
intros Hr. rewrite point_to_pdf_single. eexists. repeat split.
- apply Forall_forall. intros d Hd. apply in_map_iff in Hd as [y [<- _]].
  unfold ExponentialDistributionsPdf.density. destruct (Rle_dec 0 y); [|lra].
  apply Rmult_le_pos; [lra | left; apply exp_pos].
- rewrite point_to_pdf_single. cbn. unfold ExponentialDistributionsPdf.density.
  destruct (Rle_dec 0 0) as [_|H]; [|lra]. do 3 f_equal. rewrite Rmult_0_r, exp_0. ring.
Qed.

Lemma expon_pdf_inverse_rate (rate x : R) :
0 < rate -> ExponentialDistributionsRandomVariable.expon_pdf (/ rate) x = ExponentialDistributionsPdf.density rate x.
Proof.
intros Hr. unfold ExponentialDistributionsRandomVariable.expon_pdf, ExponentialDistributionsPdf.density.
destruct (Rle_dec 0 x); [|reflexivity]. rewrite Rinv_inv. f_equal. f_equal. field. lra.
Qed.

(** [_flatten_params] broadcasts the scales [1 / point] over [k]
  samples and flattens them: [k] copies of the scales, in one axis. *)
Lemma flatten_params_ok (point : tensor R) (k : nat) :
wf point ->
ExponentialDistributionsRandomVariable._flatten_params point (k :: tshape point)
  = Ok ("scale"%string, mk_tensor [(k * numel (tshape point))%nat]
                                   (concat (repeat (map Rinv (tdata point)) k))).
Proof.
intros Hwf. unfold ExponentialDistributionsRandomVariable._flatten_params.
pose proof (broadcast_to_lead (tmap Rinv point) k (wf_tmap _ _ Hwf)) as Hb.
cbn [tmap tshape tdata] in Hb |- *. rewrite Hb. cbn [rbind].
rewrite (reshape_infer_ok _ (k :: tshape point) []).
- reflexivity.
- unfold wf. cbn [tshape tdata]. rewrite (length_concat_same (length (tdata point))).
  + rewrite repeat_length, Hwf. reflexivity.
  + apply Forall_forall. intros y Hy. apply repeat_spec in Hy. subst. apply length_map.
- now rewrite app_nil_r.
- discriminate.
Qed.

(** C31.  The sampler and the density agree on the parameter: the
  sampler's [_flatten_params] hands scipy the scale [1 / point],
  broadcast over the [k] samples and flattened, and the scipy density
  at that scale is, entry by entry, the density [point_to_pdf] computes
  with the point as rate. *)
Theorem flatten_params_scale_is_inverse_rate (point : tensor R) (k : nat) (x : R) :
wf point -> Forall (fun r => 0 < r) (tdata point) ->
exists scales,
  ExponentialDistributionsRandomVariable._flatten_params point (k :: tshape point)
    = Ok ("scale"%string, mk_tensor [(k * numel (tshape point))%nat] scales)
  /\ scales = concat (repeat (map Rinv (tdata point)) k)
  /\ map (fun s => ExponentialDistributionsRandomVariable.expon_pdf s x) scales
     = concat (repeat (map (fun r => ExponentialDistributionsPdf.density r x) (tdata point)) k).
Proof.
intros Hwf Hpos. eexists. split; [apply flatten_params_ok, Hwf | split; [reflexivity|]].
rewrite map_concat_repeat, map_map. do 2 f_equal. apply map_ext_in. intros r Hr.
rewrite Forall_forall in Hpos. now apply expon_pdf_inverse_rate, Hpos.
Qed.

(** The distribution function of rate [r] has the density [density r]
  as its derivative on the positive half-line. *)
Lemma distribution_derivative (r y : R) :
0 < y -> derivable_pt_lim (ExponentialDistributionsPdf.distribution r) y
                          (ExponentialDistributionsPdf.density r y).
Proof.
intros Hy. unfold ExponentialDistributionsPdf.density. destruct (Rle_dec 0 y) as [_|]; [|lra].
replace (r * exp (- r * y)) with (0 - exp (- r * y) * (- r * 1)) by ring.
apply derivable_pt_lim_minus; [apply derivable_pt_lim_const|].
apply (derivable_pt_lim_comp (fun z => - r * z) exp); [|apply derivable_pt_lim_exp].
apply (derivable_pt_lim_scal id); apply derivable_pt_lim_id.
Qed.

(** The scipy sampler at the scale [1 / r] inverts the distribution
  function of rate [r]: a draw [u] of [[0, 1)] gives a non-negative
  sample at which the distribution function is [u]. *)
Lemma expon_rvs_inverts_distribution (r u : R) :
0 < r -> 0 <= u < 1 ->
0 <= ExponentialDistributionsRandomVariable.expon_rvs (/ r) u
/\ ExponentialDistributionsPdf.distribution r (ExponentialDistributionsRandomVariable.expon_rvs (/ r) u) = u.
Proof.
intros Hr Hu. unfold ExponentialDistributionsRandomVariable.expon_rvs, ExponentialDistributionsPdf.distribution.
pose proof (Rinv_0_lt_compat r Hr). split.
- assert (ln (1 - u) <= 0).
  { rewrite <- ln_1. destruct (Req_dec u 0) as [->|]; [right; f_equal; ring|].
    left. apply ln_increasing; lra. }
  nra.
- replace (- r * (- / r * ln (1 - u))) with (ln (1 - u)) by (field; lra).
  rewrite exp_ln by lra. ring.
Qed.

(** On a point (or batch) of shape [batch ++ [1]], [_flatten_params]
  for [batch ++ [n]] repeats each scale [1 / rate] [n] times in place
  and flattens the result. *)
Lemma flatten_params_trailing_ok (point : tensor R) (batch : list nat) (n : nat) :
wf point -> tshape point = batch ++ [1%nat] ->
ExponentialDistributionsRandomVariable._flatten_params point (batch ++ [n])
  = Ok ("scale"%string, mk_tensor [numel (batch ++ [n])]
                                   (concat (map (fun r => repeat (/ r) n) (tdata point)))).
Proof.
intros Hwf Hs. unfold ExponentialDistributionsRandomVariable._flatten_params.
pose proof (broadcast_to_trailing (tmap Rinv point) batch n (wf_tmap _ _ Hwf) Hs) as Hb.
cbn [tmap tshape tdata] in Hb |- *. rewrite Hb. cbn [rbind]. rewrite map_map.
rewrite (reshape_infer_ok _ (batch ++ [n]) []).
- reflexivity.
- unfold wf in Hwf |- *. cbn [tshape tdata].
  rewrite <- (map_concat_map_repeat Rinv), length_map, length_concat_map_repeat, Hwf, Hs, !numel_app.
  cbn. lia.
- now rewrite app_nil_r.
- discriminate.
Qed.

(** C30.  [sample(point, n_samples)] on a point or batch of shape
  [batch ++ [1]] returns samples of shape [batch ++ [n_samples]] (the
  docstring's [[..., n_samples]]), [n_samples] per parameter, drawing
  one uniform value per sample in order: each sample is non-negative,
  and the distribution function of the law whose RATE is its parameter
  (the law [point_to_pdf] gives the density of) maps it back to its
  uniform draw.  So the sampler and the density describe one law. *)
Theorem sample_inverts_distribution (point : tensor R) (batch : list nat) (n_samples : nat)
    (st : rng R) :
wf point -> tshape point = batch ++ [1%nat] -> Forall (fun r => 0 < r) (tdata point) ->
(forall i, 0 <= rng_gen st i < 1) ->
exists samples,
  ExponentialDistributionsSampling.sample point n_samples st
    = (Ok samples, snd (rand (numel batch * n_samples) st))
  /\ tshape samples = batch ++ [n_samples]
  /\ Forall (fun x => 0 <= x) (tdata samples)
  /\ zip_with ExponentialDistributionsPdf.distribution
       (concat (map (fun r => repeat r n_samples) (tdata point))) (tdata samples)
     = fst (rand (numel batch * n_samples) st).
Proof.
intros Hwf Hs Hpos Hst.
assert (Hd : length (tdata point) = numel batch).
{ unfold wf in Hwf. rewrite Hwf, Hs, numel_app. cbn. lia. }
unfold ExponentialDistributionsSampling.sample, ExponentialDistributionsRandomVariable.rvs,
  ExponentialDistributionsRandomVariable.init.
cbn [ExponentialDistributionsRandomVariable.flatten_params ExponentialDistributionsRandomVariable.rvs_func].
replace (firstn (length (tshape point) - 1) (tshape point)) with batch
  by (rewrite Hs, length_app, Nat.add_sub; symmetry; apply firstn_app_exact).
rewrite flatten_params_trailing_ok by assumption. cbn [tdata tshape].
rewrite <- (map_concat_map_repeat Rinv), length_map, length_concat_map_repeat, Hd.
pose proof (length_rand (numel batch * n_samples) st) as Hlen.
assert (Hus : forall u, In u (fst (rand (numel batch * n_samples) st)) -> 0 <= u < 1).
{ intros u Hu. apply in_map_iff in Hu as (i & <- & _). apply Hst. }
destruct (rand _ st) as [us st']. cbn [fst snd] in *.
rewrite reshape_ok.
2: { cbn [tdata]. rewrite zip_with_length_eq; rewrite ?length_map, length_concat_map_repeat, Hd, ?numel_app; cbn; lia. }
eexists. split; [reflexivity|]. cbn [tshape tdata]. split; [reflexivity|].
rewrite Forall_forall in Hpos.
rewrite zip_with_map_l. split.
- apply Forall_zip_with. intros r u Hr Hu.
  apply (expon_rvs_inverts_distribution r u); [apply Hpos, (in_concat_map_repeat _ _ _ Hr) | apply Hus, Hu].
- apply zip_with_cancel; [rewrite length_concat_map_repeat, Hlen, Hd; lia|].
  intros r u Hr Hu.
  apply (expon_rvs_inverts_distribution r u); [apply Hpos, (in_concat_map_repeat _ _ _ Hr) | apply Hus, Hu].
Qed.

End Density.

Section Witnesses.

Lemma point_to_pdf_is_rate_density_witness :
exists pdf, ExponentialDistributionsPdf.point_to_pdf (mk_tensor [1%nat] [2]) [-1; 0; 3] = Ok pdf
  /\ tshape pdf = [3%nat]
  /\ tdata pdf = map (fun y => if Rle_dec 0 y then 2 * exp (- 2 * y) else 0) [-1; 0; 3]
  /\ Forall (fun d => 0 <= d) (tdata pdf)
  /\ ExponentialDistributionsPdf.point_to_pdf (mk_tensor [1%nat] [2]) [0] = Ok (mk_tensor [1%nat] [2]).
Proof. apply point_to_pdf_is_rate_density. lra. Defined.

Lemma flatten_params_scale_is_inverse_rate_witness :
exists scales,
  ExponentialDistributionsRandomVariable._flatten_params (mk_tensor [2%nat] [2; 4]) [3%nat; 2%nat]
    = Ok ("scale"%string, mk_tensor [6%nat] scales)
  /\ scales = concat (repeat (map Rinv [2; 4]) 3)
  /\ map (fun s => ExponentialDistributionsRandomVariable.expon_pdf s 1) scales
     = concat (repeat (map (fun r => ExponentialDistributionsPdf.density r 1) [2; 4]) 3).
Proof.
apply (flatten_params_scale_is_inverse_rate (mk_tensor [2%nat] [2; 4]) 3 1);
  [reflexivity | repeat constructor; lra].
Defined.

Lemma sample_inverts_distribution_witness :
exists samples,
  ExponentialDistributionsSampling.sample (mk_tensor [2%nat; 1%nat] [2; 4]) 3 (mk_rng (fun _ => / 2) 5)
    = (Ok samples, snd (rand (numel [2%nat] * 3) (mk_rng (fun _ => / 2) 5)))
  /\ tshape samples = [2%nat] ++ [3%nat]
  /\ Forall (fun x => 0 <= x) (tdata samples)
  /\ zip_with ExponentialDistributionsPdf.distribution
       (concat (map (fun r => repeat r 3) (tdata (mk_tensor [2%nat; 1%nat] [2; 4])))) (tdata samples)
     = fst (rand (numel [2%nat] * 3) (mk_rng (fun _ => / 2) 5)).
Proof.
apply (sample_inverts_distribution (mk_tensor [2%nat; 1%nat] [2; 4]) [2%nat] 3 (mk_rng (fun _ => / 2) 5));
  [reflexivity | reflexivity | repeat constructor; lra | intros i; cbn; lra].
Defined.

End Witnesses.
