(* ===== verification/NFold.v ===== *)
(** * The N-fold product manifold ([nfold_manifold.py], class [NFoldManifold])

    [NFoldManifold] of a base manifold and a number of copies.  The
    constructor validates [n_copies]; every operation merges the copies
    axis into the batch axis ([gs.reshape(x, (-1, *base_shape))]), calls
    the base manifold once and reshapes the answer back, reducing with
    [gs.all] over the copies axis where the answer is a boolean per point.

    The theorems show that this flattening implementation refines the
    per-copy specification of a product manifold (section 4.3): a product
    point belongs iff every copy belongs, tangent projection acts copy by
    copy and is idempotent when the base projection is, random points come
    from one batched draw of the base, and [projection] fails with
    [NotImplementedError] exactly when the base has none.  Finally the
    product is itself a lawful manifold ([NFold_ManifoldLaws]), so the
    construction composes.  Over [ExponentialDistributions], the
    positional [bound] argument makes every sample with the default
    bound equal to 1.0.  The examples at the end run the definitions on
    the product of two exponential distributions at integer points. *)

From Stdlib Require Import String ZArith Arith Lia Bool List.
From S2P Require Import Prelude Tensor Manifold Exponential.
Import ListNotations.
Open Scope geom_scope.

Module NFoldManifold.

(** [geomstats.errors.check_integer(n_copies, "n_copies")]: the number of
    copies must be a strictly positive integer. *)
Definition check_integer (n : Z) (name : string) : result nat :=
  if Z.ltb 0 n then Ok (Z.to_nat n)
  else Err (ValueError (name ++ " is required to be a strictly positive integer")).

(** The descriptor built by [NFoldManifold.__init__]. *)
Record nfold_manifold (K : Type) : Type := mk_nfold {
  base_manifold : Manifold K;
  n_copies : nat
}.
Arguments mk_nfold {K} base_manifold n_copies.
Arguments base_manifold {K} n.
Arguments n_copies {K} n.

Definition init {K : Type} (base : Manifold K) (n_copies : Z) : result (nfold_manifold K) :=
  n <- check_integer n_copies "n_copies" ;;
  Ok (mk_nfold base n).

Section Ops.
  Context {K : Type} {base : Manifold K} (n_copies : nat).

  (** [dim = n_copies * base_manifold.dim], [shape = (n_copies,) + base_manifold.shape] *)
Definition dim : nat := n_copies * m_dim.
Definition shape : list nat := n_copies :: m_shape.
Definition point_ndim : nat := length shape.

Definition belongs (point : tensor K) (atol : K) : result (tensor bool) :=
    batch_shape <- get_batch_shape point_ndim [point] ;;
    point_ <- reshape_infer point m_shape ;;
    each_belongs <- m_belongs point_ atol ;;
    reshaped <- reshape each_belongs (batch_shape ++ [n_copies]) ;;
    all_last reshaped.

Definition is_tangent (vector base_point : tensor K) (atol : K) : result (tensor bool) :=
    '(vector_, base_point_) <- broadcast_arrays2 vector base_point ;;
    batch_shape <- get_batch_shape point_ndim [vector_] ;;
    base_point_ <- reshape_infer base_point_ m_shape ;;
    vector_ <- reshape_infer vector_ m_shape ;;
    each_tangent <- m_is_tangent vector_ base_point_ atol ;;
    reshaped <- reshape each_tangent (batch_shape ++ [n_copies]) ;;
    all_last reshaped.

Definition to_tangent (vector base_point : tensor K) : result (tensor K) :=
    '(vector_, base_point_) <- broadcast_arrays2 vector base_point ;;
    base_point_ <- reshape_infer base_point_ m_shape ;;
    batch_shape <- get_batch_shape point_ndim [vector_] ;;
    vector_ <- reshape_infer vector_ m_shape ;;
    each_tangent <- m_to_tangent vector_ base_point_ ;;
    reshape each_tangent (batch_shape ++ shape).

  (** One call of the base sampler for all [n_samples * n_copies] points;
      the leading axis is squeezed unless [n_samples > 1]. *)
Definition random_point (n_samples : nat) (bound : K) (st : rng K)
    : result (tensor K) * rng K :=
    let (sample, st') := m_random_point (n_samples * n_copies) bound st in
    ((s <- sample ;;
      reshaped <- reshape s (n_samples :: n_copies :: m_shape) ;;
      if Nat.ltb 1 n_samples then Ok reshaped else squeeze_axis0 reshaped), st').

Definition projection (point : tensor K) : result (tensor K) :=
    match m_projection with
    | Some base_projection =>
        batch_shape <- get_batch_shape point_ndim [point] ;;
        point_ <- reshape_infer point m_shape ;;
        projected <- base_projection point_ ;;
        reshape projected (batch_shape ++ shape)
    | None => Err (NotImplementedError "The base manifold does not implement a projection method.")
    end.
End Ops.

(** The product is a manifold: the class instance that lets it serve as a
    base of another construction. *)
Definition NFold_Manifold {K : Type} (base : Manifold K) (n_copies : nat) : Manifold K := {|
  m_dim := @dim K base n_copies;
  m_shape := @shape K base n_copies;
  m_belongs := @belongs K base n_copies;
  m_is_tangent := @is_tangent K base n_copies;
  m_to_tangent := @to_tangent K base n_copies;
  m_projection :=
    match @m_projection K base with
    | Some _ => Some (@projection K base n_copies)
    | None => None
    end;
  m_random_point := @random_point K base n_copies
|}.

(** ** Flattening lemmas shared by the operations *)

Section Flatten.
  Context {K : Type} {base : Manifold K} `{!ManifoldLaws K base} (n_copies : nat).

  (** The copies of a batch of product points, as a batch of base points. *)
Definition flat (batch : list nat) (t : tensor K) : tensor K :=
    mk_tensor (numel batch * n_copies :: m_shape) (tdata t).

Definition product_batch (batch : list nat) (t : tensor K) : Prop :=
    wf t /\ tshape t = batch ++ @shape K base n_copies.

Lemma product_batch_length (batch : list nat) (t : tensor K) :
    product_batch batch t ->
    length (tdata t) = numel batch * (n_copies * point_size base).
  Proof.
    intros [Hwf Hs]. unfold wf in Hwf. rewrite Hwf, Hs, numel_app. reflexivity.
  Qed.

Lemma flat_batch_of (batch : list nat) (t : tensor K) :
    product_batch batch t -> batch_of base (numel batch * n_copies) (flat batch t).
  Proof.
    intros Hp. split; [|reflexivity]. unfold wf; simpl.
    rewrite (product_batch_length batch t Hp). unfold point_size. lia.
  Qed.

Lemma batch_shape_ok (batch : list nat) (ts : list (tensor K)) :
    ts <> [] -> Forall (product_batch batch) ts ->
    get_batch_shape (@point_ndim K base n_copies) ts = Ok batch.
  Proof.
    intros Hne HF. apply (get_batch_shape_same _ batch (@shape K base n_copies)); auto.
    eapply Forall_impl; [|exact HF]. now intros t [_ Hs].
  Qed.

Lemma flatten_ok (batch : list nat) (t : tensor K) :
    product_batch batch t -> reshape_infer t m_shape = Ok (flat batch t).
  Proof.
    intros [Hwf Hs]. unfold flat. rewrite <- numel_snoc.
    apply reshape_infer_ok; [exact Hwf | | exact point_size_pos].
    rewrite Hs. unfold shape. now rewrite <- app_assoc.
  Qed.
End Flatten.


(** ** Functional behaviour of the operations *)

Section Behaviour.
  Context {K : Type} {base : Manifold K} `{!ManifoldLaws K base} (n_copies : nat).

Let psz := point_size base.

Lemma single_batch (batch : list nat) (t : tensor K) :
    product_batch n_copies batch t -> Forall (product_batch n_copies batch) [t].
  Proof. intros H. constructor; [exact H | constructor]. Qed.

Lemma blocks_length_all (batch : list nat) (t : tensor K) (x : list K) :
    product_batch n_copies batch t ->
    In x (chunk (numel batch * n_copies) psz (tdata t)) -> length x = psz.
  Proof.
    intros Hp. apply in_chunk_length. rewrite (product_batch_length n_copies batch t Hp). lia.
  Qed.

  (** The answer of a base operation that returns one block of [psz]
      entries per point fills the product shape exactly. *)
Lemma concat_blocks_size (batch : list nat) (f : list K -> list K -> list K) (v p : tensor K) :
    product_batch n_copies batch v -> product_batch n_copies batch p ->
    (forall x y, length x = psz -> length y = psz -> length (f x y) = psz) ->
    numel (batch ++ @shape K base n_copies)
    = length (concat (zip_with f (chunk (numel batch * n_copies) psz (tdata v))
                                 (chunk (numel batch * n_copies) psz (tdata p)))).
  Proof.
    intros Hv Hp Hf. rewrite (length_concat_same psz).
    - rewrite zip_with_length_eq by now rewrite !length_chunk.
      rewrite length_chunk, numel_app. unfold shape, psz, point_size. simpl. lia.
    - apply Forall_zip_with. intros x y Hx Hy.
      apply Hf; [exact (blocks_length_all batch v x Hv Hx) | exact (blocks_length_all batch p y Hp Hy)].
  Qed.

Lemma belongs_blocks (batch : list nat) (point : tensor K) (atol : K) :
    product_batch n_copies batch point ->
    belongs n_copies point atol
    = Ok (mk_tensor batch
            (map (fun g => forallb (belongs_pt atol) (chunk n_copies psz g))
                 (chunk (numel batch) (n_copies * psz) (tdata point)))).
  Proof.
    intros Hp. unfold belongs.
    rewrite (batch_shape_ok n_copies batch [point]) by (discriminate || now apply single_batch).
    rewrite (flatten_ok n_copies batch point Hp). cbn [rbind].
    destruct (belongs_vec _ _ atol (flat_batch_of n_copies batch point Hp)) as [s ->].
    cbn [rbind]. unfold blocks. simpl tdata.
    rewrite reshape_ok by (cbn [tdata]; rewrite length_map, length_chunk; apply numel_snoc).
    cbn [rbind].
    rewrite (all_last_app _ batch n_copies) by reflexivity. simpl tdata.
    rewrite regroup_map, map_map. do 2 f_equal. apply map_ext. intros g. apply forallb_map_id.
  Qed.

  (** C1.  A batch of product points is answered point by point, and a
      product point belongs iff every one of its [n_copies] copies belongs
      to the base manifold. *)
Theorem belongs_spec (batch : list nat) (point : tensor K) (atol : K) :
    product_batch n_copies batch point ->
    belongs n_copies point atol
    = Ok (mk_tensor batch
            (map (fun g => forallb (belongs_pt atol) (chunk n_copies psz g))
                 (chunk (numel batch) (n_copies * psz) (tdata point)))).
  Proof. apply belongs_blocks. Qed.

Lemma is_tangent_blocks (batch : list nat) (vector base_point : tensor K) (atol : K) :
    product_batch n_copies batch vector -> product_batch n_copies batch base_point ->
    is_tangent n_copies vector base_point atol
    = Ok (mk_tensor batch
            (zip_with (fun gv gp => forallb (fun b => b)
                        (zip_with (is_tangent_pt atol) (chunk n_copies psz gv) (chunk n_copies psz gp)))
               (chunk (numel batch) (n_copies * psz) (tdata vector))
               (chunk (numel batch) (n_copies * psz) (tdata base_point)))).
  Proof.
    intros Hv Hp. unfold is_tangent.
    rewrite broadcast_arrays2_same by (apply Hv || apply Hp || (destruct Hv, Hp; congruence)).
    cbn [rbind].
    rewrite (batch_shape_ok n_copies batch [vector]) by (discriminate || now apply single_batch).
    rewrite (flatten_ok n_copies batch base_point Hp), (flatten_ok n_copies batch vector Hv).
    cbn [rbind].
    destruct (is_tangent_vec _ _ _ atol (flat_batch_of n_copies batch vector Hv)
                (flat_batch_of n_copies batch base_point Hp)) as [s ->].
    cbn [rbind]. unfold blocks. simpl tdata.
    rewrite reshape_ok by (cbn [tdata]; rewrite zip_with_length_eq, length_chunk
                           by (now rewrite !length_chunk); apply numel_snoc).
    cbn [rbind]. rewrite (all_last_app _ batch n_copies) by reflexivity. simpl tdata.
    now rewrite regroup_zip, zip_with_map.
  Qed.

  (** C21.  Tangency is decided point by point, a vector being tangent
      at a product point iff each of its copies is tangent to the base
      manifold at the matching copy of the point. *)
Theorem is_tangent_spec (batch : list nat) (vector base_point : tensor K) (atol : K) :
    product_batch n_copies batch vector -> product_batch n_copies batch base_point ->
    is_tangent n_copies vector base_point atol
    = Ok (mk_tensor batch
            (zip_with (fun gv gp => forallb (fun b => b)
                        (zip_with (is_tangent_pt atol) (chunk n_copies psz gv) (chunk n_copies psz gp)))
               (chunk (numel batch) (n_copies * psz) (tdata vector))
               (chunk (numel batch) (n_copies * psz) (tdata base_point)))).
  Proof. apply is_tangent_blocks. Qed.

Lemma to_tangent_blocks (batch : list nat) (vector base_point : tensor K) :
    product_batch n_copies batch vector -> product_batch n_copies batch base_point ->
    to_tangent n_copies vector base_point
    = Ok (mk_tensor (batch ++ @shape K base n_copies)
            (concat (zip_with to_tangent_pt
                       (chunk (numel batch * n_copies) psz (tdata vector))
                       (chunk (numel batch * n_copies) psz (tdata base_point))))).
  Proof.
    intros Hv Hp. unfold to_tangent.
    rewrite broadcast_arrays2_same by (apply Hv || apply Hp || (destruct Hv, Hp; congruence)).
    cbn [rbind]. rewrite (flatten_ok n_copies batch base_point Hp). cbn [rbind].
    rewrite (batch_shape_ok n_copies batch [vector]) by (discriminate || now apply single_batch).
    rewrite (flatten_ok n_copies batch vector Hv). cbn [rbind].
    destruct (to_tangent_vec _ _ _ (flat_batch_of n_copies batch vector Hv)
                (flat_batch_of n_copies batch base_point Hp)) as [s ->].
    cbn [rbind]. unfold blocks. simpl tdata.
    apply reshape_ok. apply (concat_blocks_size batch); auto. apply to_tangent_pt_length.
  Qed.

  (** C4.  Tangent projection acts copy by copy: block [(i, j)] of the
      answer is the base projection of block [(i, j)] of the vector at
      block [(i, j)] of the base point. *)
Theorem to_tangent_spec (batch : list nat) (vector base_point : tensor K) :
    product_batch n_copies batch vector -> product_batch n_copies batch base_point ->
    to_tangent n_copies vector base_point
    = Ok (mk_tensor (batch ++ @shape K base n_copies)
            (concat (zip_with to_tangent_pt
                       (chunk (numel batch * n_copies) psz (tdata vector))
                       (chunk (numel batch * n_copies) psz (tdata base_point))))).
  Proof. apply to_tangent_blocks. Qed.

  (** C25.  When the base tangent projection is idempotent, so is the
      product's: projecting the projection again changes nothing. *)
Theorem to_tangent_idempotent (batch : list nat) (vector base_point : tensor K) :
    (forall x y, length x = psz -> length y = psz ->
       to_tangent_pt (to_tangent_pt x y) y = to_tangent_pt x y) ->
    product_batch n_copies batch vector -> product_batch n_copies batch base_point ->
    exists w, to_tangent n_copies vector base_point = Ok w
              /\ to_tangent n_copies w base_point = Ok w.
  Proof.
    intros Hidem Hv Hp.
    set (NN := numel batch * n_copies).
    set (Z := zip_with to_tangent_pt (chunk NN psz (tdata vector)) (chunk NN psz (tdata base_point))).
    assert (HZ : Forall (fun b => length b = psz) Z).
    { apply Forall_zip_with. intros x y Hx Hy. apply to_tangent_pt_length;
        [exact (blocks_length_all batch vector x Hv Hx) | exact (blocks_length_all batch base_point y Hp Hy)]. }
    assert (HlZ : length Z = NN) by (unfold Z; rewrite zip_with_length_eq; rewrite !length_chunk; reflexivity).
    exists (mk_tensor (batch ++ @shape K base n_copies) (concat Z)).
    split; [exact (to_tangent_blocks batch vector base_point Hv Hp)|].
    assert (Hw : product_batch n_copies batch (mk_tensor (batch ++ @shape K base n_copies) (concat Z))).
    { split; [|reflexivity]. unfold wf. cbn [tdata tshape]. symmetry.
      apply (concat_blocks_size batch); auto. apply to_tangent_pt_length. }
    rewrite (to_tangent_blocks batch _ base_point Hw Hp). cbn [tdata]. fold NN.
    rewrite (chunk_concat_len NN psz Z HlZ HZ). unfold Z at 1.
    rewrite zip_with_zip_with_r. do 3 f_equal. apply zip_with_ext_in. intros x y Hx Hy.
    apply Hidem; [exact (blocks_length_all batch vector x Hv Hx) | exact (blocks_length_all batch base_point y Hp Hy)].
  Qed.

  (** C20.  [random_point(n_samples)] with [n_samples > 1] makes ONE call of
      the base sampler for [n_samples * n_copies] points and returns its
      draws with the shape [(n_samples, n_copies, *base_shape)]; the
      generator state is the one that single call leaves. *)
Theorem random_point_batch (n_samples : nat) (bound : K) (st : rng K) :
    1 < n_samples -> n_copies <> 0 ->
    exists sample,
      fst (m_random_point (n_samples * n_copies) bound st) = Ok sample
      /\ random_point n_copies n_samples bound st
         = (Ok (mk_tensor (n_samples :: n_copies :: m_shape) (tdata sample)),
            snd (m_random_point (n_samples * n_copies) bound st)).
  Proof.
    intros Hn Hc.
    destruct (random_point_length (n_samples * n_copies) bound st) as [t [Ht Hl]]; [lia|].
    exists t. split; [exact Ht|]. unfold random_point.
    destruct (m_random_point (n_samples * n_copies) bound st) as [r st'] eqn:E.
    simpl in Ht. subst r. cbn [rbind fst snd].
    rewrite reshape_ok by (rewrite Hl; unfold point_size; simpl; lia). cbn [rbind].
    destruct (Nat.ltb_spec 1 n_samples); [reflexivity | lia].
  Qed.

  (** With [n_samples = 1] the leading axis is squeezed: one product point
      of shape [(n_copies, *base_shape)]. *)
Theorem random_point_single (bound : K) (st : rng K) :
    n_copies <> 0 ->
    exists sample,
      fst (m_random_point (1 * n_copies) bound st) = Ok sample
      /\ random_point n_copies 1 bound st
         = (Ok (mk_tensor (n_copies :: m_shape) (tdata sample)),
            snd (m_random_point (1 * n_copies) bound st)).
  Proof.
    intros Hc.
    destruct (random_point_length (1 * n_copies) bound st) as [t [Ht Hl]]; [lia|].
    exists t. split; [exact Ht|]. unfold random_point.
    destruct (m_random_point (1 * n_copies) bound st) as [r st'] eqn:E.
    simpl in Ht. subst r. cbn [rbind fst snd].
    rewrite reshape_ok by (rewrite Hl; unfold point_size; simpl; lia). reflexivity.
  Qed.

  (** [random_point(0)] raises: the empty sample of shape
      [(0, n_copies, *base_shape)] has no axis of size 1 to squeeze. *)
Theorem random_point_zero (bound : K) (st : rng K) :
    exists e, fst (random_point n_copies 0 bound st) = Err e.
  Proof.
    unfold random_point. destruct (m_random_point (0 * n_copies) bound st) as [[t|e] st'];
      cbn [rbind fst]; [|eauto].
    unfold reshape. destruct (Nat.eqb _ _); cbn [rbind]; [|eauto].
    unfold squeeze_axis0. simpl. eauto.
  Qed.

  (** [projection] fails with [NotImplementedError] when the base
      manifold has no [projection] method, whatever the point. *)
Theorem projection_not_implemented (point : tensor K) :
    @m_projection K base = None ->
    projection n_copies point
    = Err (NotImplementedError "The base manifold does not implement a projection method.").
  Proof. intros H. unfold projection. now rewrite H. Qed.

  (** When it has one, the product projection projects copy by copy. *)
Theorem projection_spec (proj : tensor K -> result (tensor K)) (batch : list nat) (point : tensor K) :
    @m_projection K base = Some proj -> product_batch n_copies batch point ->
    projection n_copies point
    = Ok (mk_tensor (batch ++ @shape K base n_copies)
            (concat (map projection_pt (chunk (numel batch * n_copies) psz (tdata point))))).
  Proof.
    intros Hproj Hp. unfold projection. rewrite Hproj.
    rewrite (batch_shape_ok n_copies batch [point]) by (discriminate || now apply single_batch).
    rewrite (flatten_ok n_copies batch point Hp). cbn [rbind].
    destruct (projection_vec proj Hproj _ _ (flat_batch_of n_copies batch point Hp)) as [s ->].
    cbn [rbind]. unfold blocks. apply reshape_ok. cbn [tdata].
    rewrite (length_concat_same psz).
    - rewrite length_map, length_chunk, numel_app. unfold shape, psz, point_size. simpl. lia.
    - apply Forall_forall. intros x Hx. apply in_map_iff in Hx as [y [<- Hy]].
      apply projection_pt_length. exact (blocks_length_all batch point y Hp Hy).
  Qed.
End Behaviour.

(** The constructor accepts exactly the strictly positive numbers of
    copies and fails with a [ValueError] otherwise. *)
Theorem init_spec {K : Type} (base : Manifold K) (n : Z) :
  (0 < n)%Z /\ init base n = Ok (mk_nfold base (Z.to_nat n))
  \/ (n <= 0)%Z /\ init base n = Err (ValueError "n_copies is required to be a strictly positive integer").
Proof.
  unfold init, check_integer. destruct (Z.ltb_spec 0 n); [left | right]; split; auto.
Qed.


(** ** The product satisfies the contract

    With at least one copy, [NFoldManifold] satisfies the vectorization
    laws it requires of its base: it can itself be the base of another
    product, each of its point-wise operations being the base operation
    applied copy by copy. *)
Section ProductLaws.
  Context {K : Type} {base : Manifold K} `{!ManifoldLaws K base} (n_copies : nat).
  Hypothesis n_copies_pos : n_copies <> 0.

Let psz := point_size base.

Lemma point_size_product : point_size (NFold_Manifold base n_copies) = n_copies * psz.
  Proof. reflexivity. Qed.

Lemma batch_of_product (m : nat) (t : tensor K) :
    batch_of (NFold_Manifold base n_copies) m t -> product_batch n_copies [m] t.
  Proof. intros [Hw Hs]. split; [exact Hw | exact Hs]. Qed.

Lemma blocks_product (m : nat) (l : list K) :
    blocks (NFold_Manifold base n_copies) m l = chunk (numel [m]) (n_copies * psz) l.
  Proof. unfold blocks. rewrite point_size_product. cbn [numel fold_right]. now rewrite Nat.mul_1_r. Qed.

#[export] Instance NFold_ManifoldLaws : ManifoldLaws K (NFold_Manifold base n_copies).
  Proof.
    refine {|
      belongs_pt := fun atol blk => forallb (belongs_pt atol) (chunk n_copies psz blk);
      is_tangent_pt := fun atol v p =>
        forallb (fun b => b) (zip_with (is_tangent_pt atol) (chunk n_copies psz v) (chunk n_copies psz p));
      to_tangent_pt := fun v p => concat (zip_with to_tangent_pt (chunk n_copies psz v) (chunk n_copies psz p));
      projection_pt := fun x => concat (map projection_pt (chunk n_copies psz x))
    |}.
    - rewrite point_size_product. intros E. apply Nat.mul_eq_0 in E as [E|E]; [auto | exact (point_size_pos E)].
    - intros m t atol Hb. eexists. cbn [m_belongs NFold_Manifold].
      rewrite (belongs_blocks n_copies [m] t atol (batch_of_product m t Hb)), blocks_product. reflexivity.
    - intros m v p atol Hv Hp. eexists. cbn [m_is_tangent NFold_Manifold].
      rewrite (is_tangent_blocks n_copies [m] v p atol (batch_of_product m v Hv) (batch_of_product m p Hp)).
      now rewrite !blocks_product.
    - intros m v p Hv Hp. eexists. cbn [m_to_tangent NFold_Manifold].
      rewrite (to_tangent_blocks n_copies [m] v p (batch_of_product m v Hv) (batch_of_product m p Hp)).
      now rewrite !blocks_product, concat_regroup_zip.
    - intros v p Hv Hp. rewrite point_size_product in *.
      rewrite (length_concat_same psz).
      + rewrite zip_with_length_eq; rewrite !length_chunk; reflexivity.
      + apply Forall_zip_with. intros x y Hx Hy. apply to_tangent_pt_length.
        * apply (in_chunk_length n_copies psz v); [lia | exact Hx].
        * apply (in_chunk_length n_copies psz p); [lia | exact Hy].
    - intros proj Hproj m t Hb. cbn [m_projection NFold_Manifold] in Hproj.
      destruct (@m_projection K base) as [bp|] eqn:Eb; [|discriminate]. injection Hproj as <-.
      eexists. rewrite (projection_spec n_copies bp [m] t Eb (batch_of_product m t Hb)).
      now rewrite blocks_product, concat_regroup_map.
    - intros x Hx. rewrite point_size_product in *. rewrite (length_concat_same psz).
      + now rewrite length_map, length_chunk.
      + apply Forall_forall. intros y Hy. apply in_map_iff in Hy as [z [<- Hz]].
        apply projection_pt_length. apply (in_chunk_length n_copies psz x); [lia | exact Hz].
    - intros m bound st Hm. rewrite point_size_product.
      destruct (random_point_length (m * n_copies) bound st) as [t [Ht Hl]]; [nia|].
      cbn [m_random_point NFold_Manifold]. unfold random_point.
      destruct (m_random_point (m * n_copies) bound st) as [r st'] eqn:E. cbn [fst] in Ht |- *. subst r.
      cbn [rbind]. rewrite reshape_ok by (rewrite Hl; unfold psz, point_size; rewrite !numel_cons; lia).
      cbn [rbind]. destruct (Nat.ltb_spec 1 m).
      + eexists. split; [reflexivity|]. cbn [tdata]. rewrite Hl. unfold psz. lia.
      + assert (m = 1) as -> by lia. eexists. split; [reflexivity|]. cbn [tdata]. rewrite Hl. unfold psz. lia.
  Defined.
End ProductLaws.

(** ** The product of exponential distributions

    [NFoldManifold.random_point(n_samples, bound)] passes [bound] as the
    second positional argument of the base sampler.  For
    [ExponentialDistributions] that argument is [lower_bound], and
    [upper_bound] keeps its default [1.0]; a draw [u] becomes
    [(1.0 - bound) * u + bound]. *)
Section ExponentialProduct.
  Context {K : Type} `{ScalarLaws K} (default_atol : K) (n_copies : nat).

Local Abbreviation EK := (ExponentialDistributions.Exponential_Manifold K default_atol).

(** C19.  With the default [bound = 1.0], every coordinate of every
    sampled product point is [1.0]: the sampler returns a constant array
    whatever the generator state. *)
Theorem random_point_exponential_constant (n_samples : nat) (st : rng K) :
  n_samples <> 0 ->
  exists sample, fst (random_point (base := EK) n_copies n_samples sone st) = Ok sample
    /\ tdata sample = repeat sone (n_samples * n_copies).
Proof.
  intros Hn. unfold random_point. cbn [m_random_point ExponentialDistributions.Exponential_Manifold].
  unfold ExponentialDistributions.random_point.
  set (size := if Nat.eqb (n_samples * n_copies) 1 then [ExponentialDistributions.dim]
               else [n_samples * n_copies; ExponentialDistributions.dim]).
  assert (Hu : length (fst (rand (numel size) st)) = numel size) by apply length_rand.
  destruct (rand (numel size) st) as [u st'] eqn:E. cbn [fst] in Hu. cbn [fst rbind].
  assert (Hsz : numel size = n_samples * n_copies)
    by (unfold size; destruct (Nat.eqb_spec (n_samples * n_copies) 1); cbn; lia).
  assert (Hd : map (fun x => sadd (smul (sadd sone (sopp sone)) x) sone) u = repeat sone (n_samples * n_copies)).
  { rewrite <- Hsz, <- Hu. clear E Hu. induction u as [|x u IH]; [reflexivity|].
    cbn [map repeat length]. rewrite IH, sadd_opp_r, smul_0_l, sadd_comm, sadd_0_r. reflexivity. }
  rewrite reshape_ok by (cbn [tdata]; rewrite length_map, Hu, Hsz; cbn; lia). cbn [rbind].
  destruct (Nat.ltb_spec 1 n_samples).
  - eexists. split; [reflexivity|]. exact Hd.
  - assert (n_samples = 1) as -> by lia. eexists. split; [reflexivity|]. cbn [tdata]. exact Hd.
Qed.
End ExponentialProduct.

(** ** Witnesses: the product of exponential distributions, at integer points *)

Section Witnesses.
Local Open Scope Z_scope.

Local Abbreviation EZ := (ExponentialDistributions.Exponential_Manifold Z 1).

(** The same manifold without a [projection] method. *)
Local Abbreviation EZ_noproj := ({|
  m_dim := @m_dim Z EZ; m_shape := @m_shape Z EZ; m_belongs := @m_belongs Z EZ;
  m_is_tangent := @m_is_tangent Z EZ; m_to_tangent := @m_to_tangent Z EZ;
  m_projection := None; m_random_point := @m_random_point Z EZ |} : Manifold Z).

Local Abbreviation P := (mk_tensor [3%nat; 2%nat; 1%nat] [1; -2; 3; 4; 0; -6]).
Local Abbreviation V := (mk_tensor [3%nat; 2%nat; 1%nat] [7; 8; 9; 10; 11; 12]).
Local Abbreviation st0 := (mk_rng Z.of_nat 5).

Lemma belongs_spec_witness :
  product_batch (base := EZ) 2 [3%nat] P
  /\ belongs (base := EZ) 2 P 0 = Ok (mk_tensor [3%nat] [false; true; false]).
Proof.
  split; [split; reflexivity|].
  rewrite (belongs_spec (base := EZ) 2 [3%nat] P 0); [reflexivity | split; reflexivity].
Defined.

Lemma is_tangent_spec_witness :
  is_tangent (base := EZ) 2 V P 0 = Ok (mk_tensor [3%nat] [true; true; true]).
Proof.
  rewrite (is_tangent_spec (base := EZ) 2 [3%nat] V P 0); [reflexivity | split; reflexivity ..].
Defined.

Lemma to_tangent_spec_witness :
  to_tangent (base := EZ) 2 V P = Ok V.
Proof.
  rewrite (to_tangent_spec (base := EZ) 2 [3%nat] V P); [reflexivity | split; reflexivity ..].
Defined.

Lemma to_tangent_idempotent_witness :
  exists w, to_tangent (base := EZ) 2 V P = Ok w /\ to_tangent (base := EZ) 2 w P = Ok w.
Proof.
  apply (to_tangent_idempotent (base := EZ) 2 [3%nat] V P); [| split; reflexivity ..].
  intros x y _ _. reflexivity.
Defined.

Lemma random_point_batch_witness :
  random_point (base := EZ) 3 2 0 st0
  = (Ok (mk_tensor [2%nat; 3%nat; 1%nat] [5; 6; 7; 8; 9; 10]), mk_rng Z.of_nat 11).
Proof.
  destruct (random_point_batch (base := EZ) 3 2 0 st0) as [sample [Hs ->]]; [lia | lia |].
  simpl in Hs. injection Hs as <-. reflexivity.
Defined.

Lemma random_point_single_witness :
  random_point (base := EZ) 3 1 0 st0
  = (Ok (mk_tensor [3%nat; 1%nat] [5; 6; 7]), mk_rng Z.of_nat 8).
Proof.
  destruct (random_point_single (base := EZ) 3 0 st0) as [sample [Hs ->]]; [lia |].
  simpl in Hs. injection Hs as <-. reflexivity.
Defined.

Lemma projection_not_implemented_witness :
  projection (base := EZ_noproj) 2 P
  = Err (NotImplementedError "The base manifold does not implement a projection method.").
Proof. apply (projection_not_implemented (base := EZ_noproj) 2 P). reflexivity. Defined.

Lemma projection_spec_witness :
  projection (base := EZ) 2 P = Ok (mk_tensor [3%nat; 2%nat; 1%nat] [1; 1; 3; 4; 1; 1]).
Proof.
  rewrite (projection_spec (base := EZ) 2 (fun p => Ok (ExponentialDistributions.projection p 1))
             [3%nat] P); [reflexivity | reflexivity | split; reflexivity].
Defined.
Lemma random_point_exponential_constant_witness :
  exists sample, fst (random_point (base := EZ) 2 3 1 st0) = Ok sample
    /\ tdata sample = [1; 1; 1; 1; 1; 1].
Proof. refine (random_point_exponential_constant 1 2 3 st0 _). lia. Defined.

End Witnesses.

End NFoldManifold.
