(* ===== verification/NFoldMetric.v ===== *)
(** * The product metric ([nfold_manifold.py], class [NFoldMetric])

    [NFoldMetric] equips an [NFoldManifold] with the metric of its base,
    copy by copy, each copy optionally weighted by a positive scale.  The
    constructor validates [scales]; [metric_matrix], [inner_product],
    [exp] and [log] merge the copies into the batch axis, call the base
    metric once and reshape back ([inner_product] then weights and sums
    over the copies axis); [geodesic] checks its arguments and returns a
    path that maps times to points through [exp].

    The theorems show that the product inner product is the scaled sum of
    the per-copy inner products (section 4.3, "metric additivity"), that
    [exp] and [log] act copy by copy and inherit the base's round trips,
    that the constructor and [geodesic] fail exactly as the code raises,
    that a geodesic between two points starts and ends at them, and
    that [metric_matrix] fails whenever the base metric matrix is not
    [shape[-1]] by [shape[-1]].  [NFold_Metric] and [NFold_MetricLaws]
    make the product metric a lawful base metric, so a product of
    products is covered; the examples apply the theorems to
    [NFoldMetric(ExponentialMetric(), 2)] at real rates and to a product
    of such products. *)

From Stdlib Require Import String ZArith Arith Lia Bool List Reals Lra.
From S2P Require Import Prelude Tensor Manifold Exponential ExponentialMetric NFold.
Import ListNotations.
Open Scope geom_scope.

Module NFoldMetric.

(** [geomstats.errors.check_positive(scale, "Each value in scales")] *)
Definition check_positive {K : Type} `{Scalar K} (x : K) (name : string) : result unit :=
  if sleb x szero then Err (ValueError (name ++ " must be positive.")) else Ok tt.

(** [NFoldMetric.__init__]: every scale is checked, in order, then their
    number; the scales are kept as given ([None] when absent). *)
Definition init {K : Type} `{Scalar K} (n_copies : nat) (scales : option (list K))
  : result (option (list K)) :=
  match scales with
  | None => Ok None
  | Some sc =>
      _ <- rmapM (fun s => check_positive s "Each value in scales") sc ;;
      if Nat.eqb (length sc) n_copies then Ok (Some sc)
      else Err (ValueError "Number of scales should be equal to number of factors")
  end.

Section Ops.
  Context {K : Type} `{Scalar K} {base : Manifold K} {G : RiemannianMetric K base}.
  Context (n_copies : nat) (scales : option (list K)).

Let pnd := @NFoldManifold.point_ndim K base n_copies.
Let shape := @NFoldManifold.shape K base n_copies.

Definition metric_matrix (base_point : tensor K) : result (tensor K) :=
    batch_shape <- get_batch_shape pnd [base_point] ;;
    point_ <- reshape_infer base_point m_shape ;;
    matrices <- g_metric_matrix point_ ;;
    '(_, dim) <- of_option (split_last m_shape) (IndexError "tuple index out of range") ;;
    reshaped <- reshape matrices (batch_shape ++ [n_copies; dim; dim]) ;;
    match scales with
    | Some sc => einsum_scale_blocks sc reshaped
    | None => Ok reshaped
    end.

Definition inner_product (tangent_vec_a tangent_vec_b base_point : tensor K) : result (tensor K) :=
    '(tangent_vec_a_, tangent_vec_b_, point_) <- broadcast_arrays3 tangent_vec_a tangent_vec_b base_point ;;
    batch_shape <- get_batch_shape pnd [tangent_vec_a_] ;;
    point_ <- reshape_infer point_ m_shape ;;
    vector_a <- reshape_infer tangent_vec_a_ m_shape ;;
    vector_b <- reshape_infer tangent_vec_b_ m_shape ;;
    inner_each <- g_inner_product vector_a vector_b point_ ;;
    reshaped <- reshape inner_each (batch_shape ++ [n_copies]) ;;
    reshaped <- match scales with
                | Some sc => einsum_scale_last sc reshaped
                | None => Ok reshaped
                end ;;
    sum_last reshaped.

Definition exp (tangent_vec base_point : tensor K) : result (tensor K) :=
    batch_shape <- get_batch_shape pnd [tangent_vec; base_point] ;;
    '(tangent_vec, point_) <- broadcast_arrays2 tangent_vec base_point ;;
    point_ <- reshape_infer point_ m_shape ;;
    vector_ <- reshape_infer tangent_vec m_shape ;;
    each_exp <- g_exp vector_ point_ ;;
    reshape each_exp (batch_shape ++ shape).

Definition log (point base_point : tensor K) : result (tensor K) :=
    batch_shape <- get_batch_shape pnd [point; base_point] ;;
    '(point_, base_point_) <- broadcast_arrays2 point base_point ;;
    base_point_ <- reshape_infer base_point_ m_shape ;;
    point_ <- reshape_infer point_ m_shape ;;
    each_log <- g_log point_ base_point_ ;;
    reshape each_log (batch_shape ++ shape).

  (** The times of a path: a 0-dimensional array becomes an array of one. *)
Definition path_times (t : tensor K) : tensor K :=
    match tshape t with
    | [] => mk_tensor [1] (tdata t)
    | _ => t
    end.

  (** [idx = "ijk"[: point_ndim]] names at most three point axes: the
      einsum broadcasts [t] against the axes before the last
      [min point_ndim 3] ones. *)
Definition _path_single (t initial_tangent_vec initial_point : tensor K) : result (tensor K) :=
    tangent_vec <- einsum_scalar_lead (Nat.min pnd 3) t initial_tangent_vec ;;
    exp tangent_vec initial_point.

  (** [geodesic]: exactly one of [end_point] and [initial_tangent_vec] is
      needed; when both are given the shooting vector [log(end_point)]
      must be [allclose] to the given one.  [close] is the entry-wise
      test of [gs.allclose]. *)
Definition geodesic (close : K -> K -> bool) (initial_point : tensor K)
    (end_point initial_tangent_vec : option (tensor K))
    : result (tensor K -> result (tensor K)) :=
    initial_tangent_vec <-
      match end_point, initial_tangent_vec with
      | None, None =>
          Err (ValueError ("Specify an end landmark set or an initial tangent"
                           ++ "vector to define the geodesic."))
      | Some q, itv =>
          shooting_tangent_vec <- log q initial_point ;;
          match itv with
          | Some v =>
              c <- allclose close shooting_tangent_vec v ;;
              if c then Ok shooting_tangent_vec
              else Err (RuntimeError ("The shooting tangent vector is too"
                                      ++ " far from the initial tangent vector."))
          | None => Ok shooting_tangent_vec
          end
      | None, Some v => Ok v
      end ;;
    '(initial_point, initial_tangent_vec) <- broadcast_arrays2 initial_point initial_tangent_vec ;;
    let is_batch := Nat.ltb pnd (length (tshape initial_tangent_vec)) in
    Ok (fun t =>
          let t := path_times t in
          if negb is_batch then _path_single t initial_tangent_vec initial_point
          else
            paths <- rmapM (fun vp => _path_single t (fst vp) (snd vp))
                           (combine (unstack initial_tangent_vec) (unstack initial_point)) ;;
            stack paths).
End Ops.

(** ** Behaviour of the product metric *)

(** The per-copy weighting the [scales] stand for. *)
Definition scaled {K : Type} `{Scalar K} (scales : option (list K)) (l : list K) : list K :=
  match scales with
  | Some sc => zip_with smul sc l
  | None => l
  end.

Definition scales_fit {K : Type} (n_copies : nat) (scales : option (list K)) : Prop :=
  match scales with
  | Some sc => length sc = n_copies
  | None => True
  end.


Definition scaled_blocks {K : Type} `{Scalar K} (scales : option (list K)) (ms : list (list K))
  : list (list K) :=
  match scales with
  | Some sc => zip_with (fun s m => map (smul s) m) sc ms
  | None => ms
  end.

Lemma rmapM_check_positive {K : Type} `{Scalar K} (name : string) (sc : list K) :
  Forall (fun s => sleb s szero = false) sc ->
  rmapM (fun s => check_positive s name) sc = Ok (map (fun _ => tt) sc).
Proof.
  intros HF. apply rmapM_ok. intros x Hx. unfold check_positive.
  rewrite Forall_forall in HF. now rewrite (HF x Hx).
Qed.

Lemma rmapM_check_not_positive {K : Type} `{Scalar K} (name : string) (sc : list K) :
  Exists (fun s => sleb s szero = true) sc ->
  rmapM (fun s => check_positive s name) sc = Err (ValueError (name ++ " must be positive.")).
Proof.
  induction 1 as [x l Hx | x l _ IH]; cbn [rmapM].
  - unfold check_positive. now rewrite Hx.
  - unfold check_positive at 1. destruct (sleb x szero); cbn [rbind]; [reflexivity|].
    now rewrite IH.
Qed.

(** C36.  The constructor accepts a list of scales exactly when every
    scale is positive and there is one per copy; otherwise it raises a
    [ValueError], the positivity of each scale being checked first. *)
Theorem metric_init_spec {K : Type} `{Scalar K} (n_copies : nat) (sc : list K) :
  (Forall (fun s => sleb s szero = false) sc -> length sc = n_copies ->
   init n_copies (Some sc) = Ok (Some sc))
  /\ (Forall (fun s => sleb s szero = false) sc -> length sc <> n_copies ->
      init n_copies (Some sc)
      = Err (ValueError "Number of scales should be equal to number of factors"))
  /\ (Exists (fun s => sleb s szero = true) sc ->
      init n_copies (Some sc) = Err (ValueError "Each value in scales must be positive.")).
Proof.
  unfold init. repeat split.
  - intros HF Hl. rewrite rmapM_check_positive by exact HF. cbn [rbind]. now rewrite Hl, Nat.eqb_refl.
  - intros HF Hl. rewrite rmapM_check_positive by exact HF. cbn [rbind].
    now destruct (Nat.eqb_spec (length sc) n_copies).
  - intros HE. now rewrite rmapM_check_not_positive.
Qed.

Section Behaviour.
Context {K : Type} `{Scalar K} {base : Manifold K} `{!ManifoldLaws K base}.
Context {G : RiemannianMetric K base} `{!MetricLaws K base G}.
Context (n_copies : nat).

Local Abbreviation psz := (point_size base).
Local Abbreviation product_batch := (@NFoldManifold.product_batch K base n_copies).

Lemma sum_scaled_groups (scales : option (list K)) (N : nat) (D : list K) (batch : list nat) :
  scales_fit n_copies scales -> length D = N * n_copies -> numel batch = N ->
  (reshaped <- match scales with
               | Some sc => einsum_scale_last sc (mk_tensor (batch ++ [n_copies]) D)
               | None => Ok (mk_tensor (batch ++ [n_copies]) D)
               end ;;
   sum_last reshaped)
  = Ok (mk_tensor batch (map (fun g => ssum (scaled scales g)) (chunk N n_copies D))).
Proof.
  intros Hfit HD HN. destruct scales as [sc|]; cbn in Hfit.
  - rewrite (einsum_scale_last_app sc _ batch) by (cbn; now rewrite Hfit). cbn [rbind tshape tdata].
    rewrite Hfit. rewrite (sum_last_app _ batch n_copies) by reflexivity. cbn [tdata]. rewrite HN.
    rewrite chunk_concat_len; [| now rewrite length_map, length_chunk |].
    + now rewrite map_map.
    + apply Forall_forall. intros x Hx. apply in_map_iff in Hx as [g [<- Hg]].
      rewrite length_zip_with, Hfit. apply (in_chunk_length N n_copies D) in Hg; [lia | lia].
  - cbn [rbind]. rewrite (sum_last_app _ batch n_copies) by reflexivity. now rewrite HN.
Qed.

Lemma inner_product_blocks (scales : option (list K)) (batch : list nat) (u v p : tensor K) :
  scales_fit n_copies scales ->
  product_batch batch u -> product_batch batch v -> product_batch batch p ->
  inner_product n_copies scales u v p
  = Ok (mk_tensor batch
          (zip_with3 (fun gu gv gp => ssum (scaled scales
                         (zip_with3 inner_product_pt (chunk n_copies psz gu)
                                    (chunk n_copies psz gv) (chunk n_copies psz gp))))
             (chunk (numel batch) (n_copies * psz) (tdata u))
             (chunk (numel batch) (n_copies * psz) (tdata v))
             (chunk (numel batch) (n_copies * psz) (tdata p)))).
Proof.
  intros Hfit Hu Hv Hp. unfold inner_product.
  rewrite broadcast_arrays3_same
    by (apply Hu || apply Hv || apply Hp || (destruct Hu, Hv, Hp; congruence)).
  cbn [rbind].
  rewrite (NFoldManifold.batch_shape_ok n_copies batch [u])
    by (discriminate || now apply NFoldManifold.single_batch).
  rewrite (NFoldManifold.flatten_ok n_copies batch p Hp), (NFoldManifold.flatten_ok n_copies batch u Hu),
    (NFoldManifold.flatten_ok n_copies batch v Hv). cbn [rbind].
  destruct (inner_product_vec _ _ _ _ (NFoldManifold.flat_batch_of n_copies batch u Hu)
              (NFoldManifold.flat_batch_of n_copies batch v Hv)
              (NFoldManifold.flat_batch_of n_copies batch p Hp)) as [s ->].
  cbn [rbind]. unfold blocks. cbn [tdata NFoldManifold.flat].
  rewrite reshape_ok
    by (cbn [tdata]; rewrite length_zip_with3_eq, length_chunk by (now rewrite !length_chunk);
        apply numel_snoc).
  cbn [rbind]. rewrite (sum_scaled_groups scales (numel batch)); auto.
  - cbn [tdata]. rewrite regroup_zip3. now rewrite map_zip_with3.
  - cbn [tdata]. rewrite length_zip_with3_eq; now rewrite ?length_chunk.
Qed.

(** C2.  Metric additivity: the product inner product of a batch is,
    point by point, the sum over the copies of the base inner products of
    the copies, each weighted by its scale. *)
Theorem inner_product_spec (scales : option (list K)) (batch : list nat) (u v p : tensor K) :
  scales_fit n_copies scales ->
  product_batch batch u -> product_batch batch v -> product_batch batch p ->
  inner_product n_copies scales u v p
  = Ok (mk_tensor batch
          (zip_with3 (fun gu gv gp => ssum (scaled scales
                         (zip_with3 inner_product_pt (chunk n_copies psz gu)
                                    (chunk n_copies psz gv) (chunk n_copies psz gp))))
             (chunk (numel batch) (n_copies * psz) (tdata u))
             (chunk (numel batch) (n_copies * psz) (tdata v))
             (chunk (numel batch) (n_copies * psz) (tdata p)))).
Proof. apply inner_product_blocks. Qed.


(** Unweighted is weighted by ones: [scales=None] and [scales=[1, ..., 1]]
    give the same inner products. *)
Theorem inner_product_unit_scales `{!ScalarLaws K} (batch : list nat) (u v p : tensor K) :
  product_batch batch u -> product_batch batch v -> product_batch batch p ->
  inner_product n_copies None u v p = inner_product n_copies (Some (repeat sone n_copies)) u v p.
Proof.
  intros Hu Hv Hp.
  rewrite (inner_product_blocks None batch), (inner_product_blocks (Some (repeat sone n_copies)) batch);
    try exact I; try assumption; [| apply repeat_length].
  do 2 f_equal. apply zip_with3_ext_in. intros gu gv gp Hgu Hgv Hgp. cbn [scaled]. f_equal.
  rewrite zip_with_repeat_l_len.
  - rewrite <- (map_id (zip_with3 _ _ _ _)) at 1. apply map_ext. intros a. now rewrite smul_1_l.
  - rewrite length_zip_with3_eq; now rewrite ?length_chunk.
Qed.


Lemma metric_blocks_length (batch : list nat) (p : tensor K) (g : list K) :
  product_batch batch p -> In g (chunk (numel batch) (n_copies * psz) (tdata p)) ->
  length (concat (map metric_matrix_pt (chunk n_copies psz g))) = n_copies * metric_len.
Proof.
  intros Hp Hg. assert (Hlg : length g = n_copies * psz).
  { apply (in_chunk_length (numel batch) _ (tdata p)); auto.
    rewrite (NFoldManifold.product_batch_length n_copies batch p Hp). lia. }
  rewrite (length_concat_same metric_len).
  - now rewrite length_map, length_chunk.
  - apply Forall_forall. intros x Hx. apply in_map_iff in Hx as [y [<- Hy]].
    apply metric_matrix_pt_length. apply (in_chunk_length n_copies psz g); auto.
Qed.

Lemma metric_matrix_blocks (scales : option (list K)) (batch pre : list nat) (d : nat) (p : tensor K) :
  scales_fit n_copies scales -> product_batch batch p ->
  split_last (@m_shape K base) = Some (pre, d) -> metric_len = d * d ->
  metric_matrix n_copies scales p
  = Ok (mk_tensor (batch ++ [n_copies; d; d])
          (concat (map (fun g => concat (scaled_blocks scales
                                   (map metric_matrix_pt (chunk n_copies psz g))))
                       (chunk (numel batch) (n_copies * psz) (tdata p))))).
Proof.
  intros Hfit Hp Hsplit Hlen. unfold metric_matrix.
  rewrite (NFoldManifold.batch_shape_ok n_copies batch [p])
    by (discriminate || now apply NFoldManifold.single_batch).
  rewrite (NFoldManifold.flatten_ok n_copies batch p Hp). cbn [rbind].
  destruct (metric_matrix_vec _ _ (NFoldManifold.flat_batch_of n_copies batch p Hp)) as [s ->].
  cbn [rbind]. rewrite Hsplit. cbn [of_option rbind]. unfold blocks. cbn [tdata NFoldManifold.flat].
  rewrite concat_map_chunk_mul.
  assert (HG : Forall (fun b => length b = n_copies * (d * d))
                 (map (fun g => concat (map metric_matrix_pt (chunk n_copies psz g)))
                      (chunk (numel batch) (n_copies * psz) (tdata p)))).
  { apply Forall_forall. intros x Hx. apply in_map_iff in Hx as [g [<- Hg]].
    rewrite <- Hlen. exact (metric_blocks_length batch p g Hp Hg). }
  rewrite reshape_ok.
  2:{ cbn [tdata]. rewrite (length_concat_same _ _ HG), length_map, length_chunk, numel_app. cbn. lia. }
  destruct scales as [sc|]; cbn in Hfit |- *; [|reflexivity].
  unfold einsum_scale_blocks. cbn [tshape tdata].
  rewrite rev_app_distr. cbn [rev app]. rewrite Hfit, Nat.eqb_refl, rev_involutive.
  rewrite chunk_concat_len by (now rewrite ?length_map, ?length_chunk).
  do 2 f_equal. rewrite map_map. f_equal. apply map_ext_in. intros g Hg. f_equal. f_equal.
  apply chunk_concat_len; [now rewrite length_map, length_chunk|].
  apply Forall_forall. intros x Hx. apply in_map_iff in Hx as [y [<- Hy]].
  rewrite <- Hlen. apply metric_matrix_pt_length. apply (in_chunk_length n_copies psz g); auto.
  apply (in_chunk_length (numel batch) _ (tdata p)); auto.
  rewrite (NFoldManifold.product_batch_length n_copies batch p Hp). lia.
Qed.

(** C26.  When the base metric matrix at a point has [d * d] entries, [d]
    being the last axis of the base shape, [metric_matrix] returns, for
    every point of the batch, the [n_copies] base matrices, the [j]-th
    multiplied by [scales[j]]. *)
Theorem metric_matrix_spec (scales : option (list K)) (batch pre : list nat) (d : nat) (p : tensor K) :
  scales_fit n_copies scales -> product_batch batch p ->
  split_last (@m_shape K base) = Some (pre, d) -> metric_len = d * d ->
  metric_matrix n_copies scales p
  = Ok (mk_tensor (batch ++ [n_copies; d; d])
          (concat (map (fun g => concat (scaled_blocks scales
                                   (map metric_matrix_pt (chunk n_copies psz g))))
                       (chunk (numel batch) (n_copies * psz) (tdata p))))).
Proof. apply metric_matrix_blocks. Qed.

(** C22.  [metric_matrix] reshapes the base matrices to [d x d], [d] being
    the last axis of the base shape, not the base metric's dimension:
    whenever the base matrices have another number of entries it fails
    with numpy's reshape [ValueError], for every non-empty batch. *)
Theorem metric_matrix_size_mismatch (scales : option (list K)) (batch pre : list nat) (d : nat)
  (p : tensor K) :
  product_batch batch p -> split_last (@m_shape K base) = Some (pre, d) ->
  metric_len <> d * d -> numel batch * n_copies <> 0 ->
  metric_matrix n_copies scales p = Err shape_error.
Proof.
  intros Hp Hsplit Hlen Hne. unfold metric_matrix.
  rewrite (NFoldManifold.batch_shape_ok n_copies batch [p])
    by (discriminate || now apply NFoldManifold.single_batch).
  rewrite (NFoldManifold.flatten_ok n_copies batch p Hp). cbn [rbind].
  destruct (metric_matrix_vec _ _ (NFoldManifold.flat_batch_of n_copies batch p Hp)) as [s ->].
  cbn [rbind]. rewrite Hsplit. cbn [of_option rbind]. unfold reshape, blocks.
  cbn [tdata NFoldManifold.flat]. rewrite (length_concat_same metric_len).
  - rewrite length_map, length_chunk, numel_app. cbn [numel fold_right].
    destruct (Nat.eqb_spec (numel batch * (n_copies * (d * (d * 1)))) (numel batch * n_copies * metric_len))
      as [E|_]; [|reflexivity].
    exfalso. apply Hlen. apply (Nat.mul_cancel_l _ _ (numel batch * n_copies)); [exact Hne|]. lia.
  - apply Forall_forall. intros x Hx. apply in_map_iff in Hx as [y [<- Hy]].
    apply metric_matrix_pt_length.
    exact (NFoldManifold.blocks_length_all n_copies batch p y Hp Hy).
Qed.

Lemma exp_by_copies (batch : list nat) (tangent_vec base_point : tensor K) :
  product_batch batch tangent_vec -> product_batch batch base_point ->
  exp n_copies tangent_vec base_point
  = Ok (mk_tensor (batch ++ @NFoldManifold.shape K base n_copies)
          (concat (zip_with exp_pt (chunk (numel batch * n_copies) psz (tdata tangent_vec))
                                   (chunk (numel batch * n_copies) psz (tdata base_point))))).
Proof.
  intros Hv Hp. unfold exp.
  rewrite (NFoldManifold.batch_shape_ok n_copies batch [tangent_vec; base_point])
    by (discriminate || (constructor; [assumption | constructor; [assumption | constructor]])).
  cbn [rbind]. rewrite broadcast_arrays2_same by (apply Hv || apply Hp || (destruct Hv, Hp; congruence)).
  cbn [rbind]. rewrite (NFoldManifold.flatten_ok n_copies batch base_point Hp),
    (NFoldManifold.flatten_ok n_copies batch tangent_vec Hv). cbn [rbind].
  destruct (exp_vec _ _ _ (NFoldManifold.flat_batch_of n_copies batch tangent_vec Hv)
              (NFoldManifold.flat_batch_of n_copies batch base_point Hp)) as [s ->].
  cbn [rbind]. unfold blocks. cbn [tdata NFoldManifold.flat]. apply reshape_ok.
  apply (NFoldManifold.concat_blocks_size n_copies batch); auto. apply exp_pt_length.
Qed.

Lemma log_by_copies (batch : list nat) (point base_point : tensor K) :
  product_batch batch point -> product_batch batch base_point ->
  log n_copies point base_point
  = Ok (mk_tensor (batch ++ @NFoldManifold.shape K base n_copies)
          (concat (zip_with log_pt (chunk (numel batch * n_copies) psz (tdata point))
                                   (chunk (numel batch * n_copies) psz (tdata base_point))))).
Proof.
  intros Hq Hp. unfold log.
  rewrite (NFoldManifold.batch_shape_ok n_copies batch [point; base_point])
    by (discriminate || (constructor; [assumption | constructor; [assumption | constructor]])).
  cbn [rbind]. rewrite broadcast_arrays2_same by (apply Hq || apply Hp || (destruct Hq, Hp; congruence)).
  cbn [rbind]. rewrite (NFoldManifold.flatten_ok n_copies batch base_point Hp),
    (NFoldManifold.flatten_ok n_copies batch point Hq). cbn [rbind].
  destruct (log_vec _ _ _ (NFoldManifold.flat_batch_of n_copies batch point Hq)
              (NFoldManifold.flat_batch_of n_copies batch base_point Hp)) as [s ->].
  cbn [rbind]. unfold blocks. cbn [tdata NFoldManifold.flat]. apply reshape_ok.
  apply (NFoldManifold.concat_blocks_size n_copies batch); auto. apply log_pt_length.
Qed.

(** C3.  [exp] and [log] act copy by copy: on a batch of shape
    [batch ++ (n_copies, base_shape)], block [(i, j)] of the answer is the
    base exponential (logarithm) of block [(i, j)] of the arguments, and
    the answer keeps the batch shape. *)
Theorem exp_log_copywise (batch : list nat) (a b : tensor K) :
  product_batch batch a -> product_batch batch b ->
  exp n_copies a b
  = Ok (mk_tensor (batch ++ @NFoldManifold.shape K base n_copies)
          (concat (zip_with exp_pt (chunk (numel batch * n_copies) psz (tdata a))
                                   (chunk (numel batch * n_copies) psz (tdata b)))))
  /\ log n_copies a b
  = Ok (mk_tensor (batch ++ @NFoldManifold.shape K base n_copies)
          (concat (zip_with log_pt (chunk (numel batch * n_copies) psz (tdata a))
                                   (chunk (numel batch * n_copies) psz (tdata b))))).
Proof. intros Ha Hb. split; [apply exp_by_copies | apply log_by_copies]; assumption. Qed.

Lemma product_batch_concat (batch : list nat) (f : list K -> list K -> list K) (a b : tensor K) :
  product_batch batch a -> product_batch batch b ->
  (forall x y, length x = psz -> length y = psz -> length (f x y) = psz) ->
  product_batch batch
    (mk_tensor (batch ++ @NFoldManifold.shape K base n_copies)
       (concat (zip_with f (chunk (numel batch * n_copies) psz (tdata a))
                           (chunk (numel batch * n_copies) psz (tdata b))))).
Proof.
  intros Ha Hb Hf. split; [|reflexivity]. unfold wf. cbn [tdata tshape]. symmetry.
  apply (NFoldManifold.concat_blocks_size n_copies batch); auto.
Qed.

Lemma chunk_concat_blocks (batch : list nat) (f : list K -> list K -> list K) (a b : tensor K) :
  product_batch batch a -> product_batch batch b ->
  (forall x y, length x = psz -> length y = psz -> length (f x y) = psz) ->
  chunk (numel batch * n_copies) psz
    (concat (zip_with f (chunk (numel batch * n_copies) psz (tdata a))
                        (chunk (numel batch * n_copies) psz (tdata b))))
  = zip_with f (chunk (numel batch * n_copies) psz (tdata a))
               (chunk (numel batch * n_copies) psz (tdata b)).
Proof.
  intros Ha Hb Hf. apply chunk_concat_len.
  - rewrite zip_with_length_eq; now rewrite !length_chunk.
  - apply Forall_zip_with. intros x y Hx Hy. apply Hf;
      [exact (NFoldManifold.blocks_length_all n_copies batch a x Ha Hx)
      | exact (NFoldManifold.blocks_length_all n_copies batch b y Hb Hy)].
Qed.

(** C5.  The product inherits the base's round trip: when the base
    exponential inverts the base logarithm on the copies involved, the
    product [exp] inverts the product [log]. *)
Theorem exp_log_roundtrip_nfold (batch : list nat) (point base_point : tensor K) :
  (forall x y, In x (chunk (numel batch * n_copies) psz (tdata point)) ->
               In y (chunk (numel batch * n_copies) psz (tdata base_point)) ->
               exp_pt (log_pt x y) y = x) ->
  product_batch batch point -> product_batch batch base_point ->
  exists l, log n_copies point base_point = Ok l /\ exp n_copies l base_point = Ok point.
Proof.
  intros Hrt Hq Hp. eexists. split; [exact (log_by_copies batch point base_point Hq Hp)|].
  rewrite (exp_by_copies batch); [| apply product_batch_concat; auto; apply log_pt_length | exact Hp].
  cbn [tdata]. rewrite chunk_concat_blocks by (auto; apply log_pt_length).
  rewrite zip_with_zip_with_r, (zip_with_ext_in _ (fun x _ => x)) by exact Hrt.
  rewrite zip_with_fst by (now rewrite !length_chunk).
  destruct Hq as [Hwf Hs]. rewrite concat_chunk.
  - destruct point; cbn in *; now subst.
  - now rewrite (NFoldManifold.product_batch_length n_copies batch point (conj Hwf Hs)), Nat.mul_assoc.
Qed.

Theorem log_exp_roundtrip_nfold (batch : list nat) (tangent_vec base_point : tensor K) :
  (forall x y, In x (chunk (numel batch * n_copies) psz (tdata tangent_vec)) ->
               In y (chunk (numel batch * n_copies) psz (tdata base_point)) ->
               log_pt (exp_pt x y) y = x) ->
  product_batch batch tangent_vec -> product_batch batch base_point ->
  exists e, exp n_copies tangent_vec base_point = Ok e /\ log n_copies e base_point = Ok tangent_vec.
Proof.
  intros Hrt Hv Hp. eexists. split; [exact (exp_by_copies batch tangent_vec base_point Hv Hp)|].
  rewrite (log_by_copies batch); [| apply product_batch_concat; auto; apply exp_pt_length | exact Hp].
  cbn [tdata]. rewrite chunk_concat_blocks by (auto; apply exp_pt_length).
  rewrite zip_with_zip_with_r, (zip_with_ext_in _ (fun x _ => x)) by exact Hrt.
  rewrite zip_with_fst by (now rewrite !length_chunk).
  destruct Hv as [Hwf Hs]. rewrite concat_chunk.
  - destruct tangent_vec; cbn in *; now subst.
  - now rewrite (NFoldManifold.product_batch_length n_copies batch tangent_vec (conj Hwf Hs)), Nat.mul_assoc.
Qed.

(** ** Geodesics *)

(** C35.  [geodesic] checks its arguments as the code does: with neither
    an end point nor an initial tangent vector it raises the
    [ValueError] (whose message lacks the space between "tangent" and
    "vector"); with both, the shooting vector [log(end_point)] must be
    [allclose] to the given one, or it raises the [RuntimeError], and when
    it is, the given vector is dropped for the shooting vector. *)
Theorem geodesic_argument_errors (close : K -> K -> bool) (batch : list nat)
  (initial_point end_point initial_tangent_vec : tensor K) :
  geodesic n_copies close initial_point None None
  = Err (ValueError "Specify an end landmark set or an initial tangentvector to define the geodesic.")
  /\ (product_batch batch initial_point -> product_batch batch end_point ->
      (forall l, log n_copies end_point initial_point = Ok l ->
                 allclose close l initial_tangent_vec = Ok false) ->
      geodesic n_copies close initial_point (Some end_point) (Some initial_tangent_vec)
      = Err (RuntimeError "The shooting tangent vector is too far from the initial tangent vector."))
  /\ (product_batch batch initial_point -> product_batch batch end_point ->
      (forall l, log n_copies end_point initial_point = Ok l ->
                 allclose close l initial_tangent_vec = Ok true) ->
      geodesic n_copies close initial_point (Some end_point) (Some initial_tangent_vec)
      = geodesic n_copies close initial_point (Some end_point) None).
Proof.
  split; [reflexivity|]. split; intros Hp Hq Hc; unfold geodesic;
    rewrite (log_by_copies batch end_point initial_point Hq Hp); cbn [rbind];
    rewrite (Hc _ (log_by_copies batch end_point initial_point Hq Hp)); reflexivity.
Qed.

Lemma exp_broadcast_point (k : nat) (tangent_vec base_point : tensor K) :
  product_batch [k] tangent_vec -> product_batch [] base_point ->
  exp n_copies tangent_vec base_point
  = exp n_copies tangent_vec
      (mk_tensor (k :: @NFoldManifold.shape K base n_copies) (concat (repeat (tdata base_point) k))).
Proof.
  intros [Hwv Hsv] [Hwp Hsp]. cbn [app] in Hsv, Hsp.
  assert (Hp2 : wf (mk_tensor (k :: @NFoldManifold.shape K base n_copies)
                              (concat (repeat (tdata base_point) k)))).
  { unfold wf in Hwp |- *. cbn [tdata tshape]. rewrite length_concat_same with (c := length (tdata base_point)).
    - rewrite repeat_length, Hwp, Hsp. reflexivity.
    - apply Forall_forall. intros x Hx. apply repeat_spec in Hx. now subst. }
  unfold exp. rewrite (get_batch_shape_lead _ k) by (rewrite ?Hsp; auto).
  rewrite (get_batch_shape_same _ [k] (@NFoldManifold.shape K base n_copies))
    by (reflexivity || discriminate || (repeat constructor; assumption)).
  cbn [rbind]. rewrite (broadcast_arrays2_lead_r _ _ k Hwv Hwp) by now rewrite Hsv, Hsp.
  rewrite broadcast_arrays2_same by (auto; now rewrite Hsv). rewrite Hsv. reflexivity.
Qed.

Lemma numel_lead_shape (k : nat) :
  numel (k :: @NFoldManifold.shape K base n_copies) = k * (n_copies * psz).
Proof. reflexivity. Qed.

Lemma block_length_unbatched (t : tensor K) (x : list K) :
  product_batch [] t -> In x (chunk n_copies psz (tdata t)) -> length x = psz.
Proof.
  intros Ht Hx. apply (NFoldManifold.blocks_length_all n_copies [] t x Ht).
  now replace (numel [] * n_copies) with n_copies by (cbn; lia).
Qed.

Lemma chunk_double (l1 l2 : list K) :
  length l1 = n_copies * psz ->
  chunk (numel [2] * n_copies) psz (l1 ++ l2) = chunk n_copies psz l1 ++ chunk n_copies psz l2.
Proof.
  intros Hl. cbn [numel fold_right].
  replace (2 * 1 * n_copies) with (n_copies + n_copies) by lia.
  now apply chunk_app_exact.
Qed.

(** Without an initial tangent vector the geodesic shoots with the
    logarithm of the end point, and on a single point the path is
    [_path_single] of that vector. *)
Lemma geodesic_shoot (close : K -> K -> bool) (p q : tensor K) :
  product_batch [] p -> product_batch [] q ->
  exists path, geodesic n_copies close p (Some q) None = Ok path
    /\ forall t, path t = _path_single n_copies (path_times t)
         (mk_tensor ([] ++ @NFoldManifold.shape K base n_copies)
            (concat (zip_with log_pt (chunk n_copies psz (tdata q)) (chunk n_copies psz (tdata p))))) p.
Proof.
  intros Hp Hq.
  pose proof (product_batch_concat [] log_pt q p Hq Hp log_pt_length) as HL.
  pose proof (log_by_copies [] q p Hq Hp) as HlogL.
  replace (numel [] * n_copies) with n_copies in HL, HlogL by (cbn; lia).
  unfold geodesic. rewrite HlogL. cbn [rbind].
  rewrite broadcast_arrays2_same by (apply Hp || apply HL || (destruct Hp, HL; congruence)).
  cbn [rbind tshape]. eexists. split; [reflexivity|]. intros t. cbv beta zeta.
  now rewrite Nat.ltb_irrefl.
Qed.

(** The path of a single point at two times [a] and [b]: the base
    exponential of the scaled copies of [v] at the copies of [p]. *)
Lemma path_single_two_times (a b : K) (v p : tensor K) :
  length (@m_shape K base) <= 2 -> product_batch [] v -> product_batch [] p ->
  _path_single n_copies (mk_tensor [2] [a; b]) v p
  = Ok (mk_tensor (2 :: @NFoldManifold.shape K base n_copies)
          (concat (zip_with exp_pt (chunk n_copies psz (map (smul a) (tdata v))) (chunk n_copies psz (tdata p)))
           ++ concat (zip_with exp_pt (chunk n_copies psz (map (smul b) (tdata v))) (chunk n_copies psz (tdata p))))).
Proof.
  intros Hnd Hv Hp. unfold _path_single.
  assert (Hs : tshape v = @NFoldManifold.shape K base n_copies) by apply Hv.
  rewrite (einsum_scalar_lead_times _ [a; b] v)
    by (apply Hv || (rewrite Hs; unfold NFoldManifold.point_ndim, NFoldManifold.shape; cbn [length]; lia)).
  cbn [rbind]. rewrite Hs.
  assert (Hvd : length (tdata v) = n_copies * psz)
    by (rewrite (NFoldManifold.product_batch_length n_copies [] v Hv); cbn; lia).
  assert (Hpd : length (tdata p) = n_copies * psz)
    by (rewrite (NFoldManifold.product_batch_length n_copies [] p Hp); cbn; lia).
  assert (HT : product_batch [2] (mk_tensor (2 :: @NFoldManifold.shape K base n_copies)
                 (concat (map (fun c => map (smul c) (tdata v)) [a; b])))).
  { split; [|reflexivity]. unfold wf. cbn [tdata tshape concat map].
    rewrite !length_app, !length_map, Hvd, numel_lead_shape. cbn [length]. lia. }
  change (length [a; b]) with 2. rewrite (exp_broadcast_point 2 _ p HT Hp).
  rewrite (exp_by_copies [2%nat]); [| exact HT |].
  2:{ split; [|reflexivity]. unfold wf. cbn [tdata tshape repeat concat]. rewrite app_nil_r, length_app.
      rewrite Hpd, numel_lead_shape. cbn [numel fold_right]. lia. }
  cbn [tdata concat map repeat]. rewrite !app_nil_r.
  rewrite !chunk_double by (rewrite ?length_map; assumption).
  rewrite zip_with_app by (now rewrite !length_chunk).
  now rewrite concat_app.
Qed.

(** The two ends of the path of one point: scaling the shooting vector
    by 0 gives back the point, by 1 the end point. *)
Lemma endpoint_blocks `{!ScalarLaws K} (pd qd : list K) :
  length pd = n_copies * psz -> length qd = n_copies * psz ->
  (forall v y, length v = psz -> In y (chunk n_copies psz pd) -> exp_pt (map (smul szero) v) y = y) ->
  (forall x y, In x (chunk n_copies psz qd) -> In y (chunk n_copies psz pd) -> exp_pt (log_pt x y) y = x) ->
  let Ld := concat (zip_with log_pt (chunk n_copies psz qd) (chunk n_copies psz pd)) in
  concat (zip_with exp_pt (chunk n_copies psz (map (smul szero) Ld)) (chunk n_copies psz pd))
  ++ concat (zip_with exp_pt (chunk n_copies psz (map (smul sone) Ld)) (chunk n_copies psz pd))
  = pd ++ qd.
Proof.
  intros Hpd Hqd Hzero Hrt Ld. unfold Ld. clear Ld. rewrite !chunk_map.
  set (Q := chunk n_copies psz qd). set (P := chunk n_copies psz pd).
  assert (HQ : forall x, In x Q -> length x = psz) by (intros x; apply in_chunk_length; lia).
  assert (HP : forall x, In x P -> length x = psz) by (intros x; apply in_chunk_length; lia).
  rewrite chunk_concat_len.
  2:{ rewrite zip_with_length_eq; unfold Q, P; now rewrite !length_chunk. }
  2:{ apply Forall_zip_with. intros x y Hx Hy. apply log_pt_length; auto. }
  rewrite !zip_with_map_l_zip. f_equal.
  - rewrite (zip_with_ext_in _ (fun _ y => y)).
    + rewrite zip_with_snd by (unfold Q, P; now rewrite !length_chunk).
      apply concat_chunk. lia.
    + intros x y Hx Hy. apply Hzero; [apply log_pt_length; auto | exact Hy].
  - rewrite (zip_with_ext_in _ (fun x _ => x)).
    + rewrite zip_with_fst by (unfold Q, P; now rewrite !length_chunk).
      apply concat_chunk. lia.
    + intros x y Hx Hy. rewrite map_ext with (g := fun a => a) by apply smul_1_l.
      rewrite map_id. now apply Hrt.
Qed.

(** C6.  Geodesic consistency: the geodesic from [p] to [q] is at [p] at
    time 0 and at [q] at time 1, when the base exponential maps a zero
    vector to its base point and inverts the base logarithm on the copies
    of [p] and [q], for a base of at most two axes (the einsum of
    [_path_single] names three point axes). *)
Theorem geodesic_endpoints `{!ScalarLaws K} (close : K -> K -> bool) (p q : tensor K) :
  length (@m_shape K base) <= 2 -> product_batch [] p -> product_batch [] q ->
  (forall v y, length v = psz -> In y (chunk n_copies psz (tdata p)) -> exp_pt (map (smul szero) v) y = y) ->
  (forall x y, In x (chunk n_copies psz (tdata q)) -> In y (chunk n_copies psz (tdata p)) ->
               exp_pt (log_pt x y) y = x) ->
  exists path, geodesic n_copies close p (Some q) None = Ok path
    /\ path (mk_tensor [2] [szero; sone])
       = Ok (mk_tensor (2 :: @NFoldManifold.shape K base n_copies) (tdata p ++ tdata q)).
Proof.
  intros Hnd Hp Hq Hzero Hrt.
  destruct (geodesic_shoot close p q Hp Hq) as [path [Hg Hpath]].
  exists path. split; [exact Hg|]. rewrite Hpath. cbn [path_times tshape].
  assert (HL := product_batch_concat [] log_pt q p Hq Hp log_pt_length).
  replace (numel [] * n_copies) with n_copies in HL by (cbn; lia).
  rewrite path_single_two_times by assumption. cbn [tdata].
  rewrite endpoint_blocks; auto.
  - rewrite (NFoldManifold.product_batch_length n_copies [] p Hp). cbn. lia.
  - rewrite (NFoldManifold.product_batch_length n_copies [] q Hq). cbn. lia.
Qed.
(** *** A batch of geodesics *)

Lemma unstack_product (k : nat) (t : tensor K) :
  product_batch [k] t ->
  unstack t = map (mk_tensor (@NFoldManifold.shape K base n_copies)) (chunk k (n_copies * psz) (tdata t)).
Proof. intros [_ Hs]. unfold unstack. rewrite Hs. reflexivity. Qed.

Lemma chunk_copies_regroup (k : nat) (f : list K -> list K -> list K) (a b : tensor K) :
  (forall x y, length x = psz -> length y = psz -> length (f x y) = psz) ->
  product_batch [k] a -> product_batch [k] b ->
  chunk k (n_copies * psz)
    (concat (zip_with f (chunk (numel [k] * n_copies) psz (tdata a)) (chunk (numel [k] * n_copies) psz (tdata b))))
  = zip_with (fun g1 g2 => concat (zip_with f (chunk n_copies psz g1) (chunk n_copies psz g2)))
      (chunk k (n_copies * psz) (tdata a)) (chunk k (n_copies * psz) (tdata b)).
Proof.
  intros Hf Ha Hb. replace (numel [k] * n_copies) with (k * n_copies) by (cbn; lia).
  rewrite concat_regroup_zip. apply chunk_concat_len.
  - rewrite zip_with_length_eq; now rewrite !length_chunk.
  - apply Forall_zip_with. intros g1 g2 Hg1 Hg2. rewrite (length_concat_same psz).
    + rewrite zip_with_length_eq; now rewrite !length_chunk.
    + assert (Hl : forall t g, product_batch [k] t -> In g (chunk k (n_copies * psz) (tdata t)) ->
                               forall x, In x (chunk n_copies psz g) -> length x = psz).
      { intros t g Ht Hg x Hx. apply (in_chunk_length n_copies psz g); [|exact Hx].
        apply (in_chunk_length k _ (tdata t)); [|exact Hg].
        rewrite (NFoldManifold.product_batch_length n_copies [k] t Ht). cbn. lia. }
      apply Forall_zip_with. intros x y Hx Hy. apply Hf; [exact (Hl a g1 Ha Hg1 x Hx) | exact (Hl b g2 Hb Hg2 y Hy)].
Qed.

(** On a batch of points the geodesic shoots each point to its end point
    and evaluates the paths one point at a time. *)
Lemma geodesic_shoot_batch (k : nat) (close : K -> K -> bool) (p q : tensor K) :
  product_batch [k] p -> product_batch [k] q ->
  exists path, geodesic n_copies close p (Some q) None = Ok path
    /\ forall t, path t
         = (paths <- rmapM (fun qp => _path_single n_copies (path_times t)
                                        (mk_tensor (@NFoldManifold.shape K base n_copies)
                                           (concat (zip_with log_pt (chunk n_copies psz (fst qp))
                                                                    (chunk n_copies psz (snd qp)))))
                                        (mk_tensor (@NFoldManifold.shape K base n_copies) (snd qp)))
                           (combine (chunk k (n_copies * psz) (tdata q)) (chunk k (n_copies * psz) (tdata p))) ;;
            stack paths).
Proof.
  intros Hp Hq.
  assert (HL := product_batch_concat [k] log_pt q p Hq Hp log_pt_length).
  unfold geodesic. rewrite (log_by_copies [k] q p Hq Hp). cbn [rbind].
  rewrite broadcast_arrays2_same by (apply Hp || apply HL || (destruct Hp, HL; congruence)).
  cbn [rbind tshape]. eexists. split; [reflexivity|]. intros t. cbv beta zeta.
  replace (Nat.ltb _ _) with true
    by (symmetry; apply Nat.ltb_lt; rewrite length_app; cbn [length]; unfold NFoldManifold.point_ndim; lia).
  cbn [negb]. rewrite (unstack_product k _ HL), (unstack_product k p Hp). cbn [tdata].
  rewrite (chunk_copies_regroup k log_pt q p log_pt_length Hq Hp).
  rewrite combine_map, combine_zip_with_l, !rmapM_map. reflexivity.
Qed.

(** C7.  A batch of geodesics: on a batch of [k] product points the
    geodesic shoots each point to its end point, and the path at times
    [0] and [1] returns, for each point of the batch, the point and its
    end point, stacked along the batch axis (for a base of at most two
    axes). *)
Theorem geodesic_batch_endpoints `{!ScalarLaws K} (k : nat) (close : K -> K -> bool) (p q : tensor K) :
  length (@m_shape K base) <= 2 -> k <> 0 -> product_batch [k] p -> product_batch [k] q ->
  (forall v y, length v = psz -> In y (chunk (numel [k] * n_copies) psz (tdata p)) ->
               exp_pt (map (smul szero) v) y = y) ->
  (forall x y, In x (chunk (numel [k] * n_copies) psz (tdata q)) ->
               In y (chunk (numel [k] * n_copies) psz (tdata p)) -> exp_pt (log_pt x y) y = x) ->
  exists path, geodesic n_copies close p (Some q) None = Ok path
    /\ path (mk_tensor [2] [szero; sone])
       = Ok (mk_tensor (k :: 2 :: @NFoldManifold.shape K base n_copies)
               (concat (zip_with (fun pi qi => pi ++ qi) (chunk k (n_copies * psz) (tdata p))
                                                         (chunk k (n_copies * psz) (tdata q))))).
Proof.
  intros Hnd Hk Hp Hq Hzero Hrt.
  destruct (geodesic_shoot_batch k close p q Hp Hq) as [path [Hg Hpath]].
  exists path. split; [exact Hg|]. rewrite Hpath. cbn [path_times tshape].
  assert (Hlen : forall t, product_batch [k] t -> length (tdata t) = k * n_copies * psz)
    by (intros t Ht; rewrite (NFoldManifold.product_batch_length n_copies [k] t Ht); cbn; lia).
  assert (Hblk : forall t g, product_batch [k] t -> In g (chunk k (n_copies * psz) (tdata t)) ->
                             length g = n_copies * psz)
    by (intros t g Ht Htg; apply (in_chunk_length k _ (tdata t)); [rewrite (Hlen t Ht); lia | exact Htg]).
  replace (numel [k] * n_copies) with (k * n_copies) in Hzero, Hrt by (cbn; lia).
  rewrite (rmapM_ok _ (fun qp => mk_tensor (2 :: @NFoldManifold.shape K base n_copies) (snd qp ++ fst qp))).
  2:{ intros [qi pi] Hin. cbn [fst snd].
      pose proof (Hblk q qi Hq (in_combine_l _ _ _ _ Hin)) as Hqi.
      pose proof (Hblk p pi Hp (in_combine_r _ _ _ _ Hin)) as Hpi.
      rewrite path_single_two_times; [| exact Hnd | |].
      - cbn [tdata]. rewrite endpoint_blocks; auto.
        + intros v y Hv Hy. apply Hzero; [exact Hv|].
          apply (in_chunk_chunk k n_copies psz _ pi); [apply Hlen, Hp | exact (in_combine_r _ _ _ _ Hin) | exact Hy].
        + intros x y Hx Hy. apply Hrt.
          * apply (in_chunk_chunk k n_copies psz _ qi); [apply Hlen, Hq | exact (in_combine_l _ _ _ _ Hin) | exact Hx].
          * apply (in_chunk_chunk k n_copies psz _ pi); [apply Hlen, Hp | exact (in_combine_r _ _ _ _ Hin) | exact Hy].
      - split; [|reflexivity]. unfold wf. cbn [tdata tshape]. rewrite (length_concat_same psz).
        + rewrite zip_with_length_eq; rewrite !length_chunk; reflexivity.
        + apply Forall_zip_with. intros x y Hx Hy.
          apply log_pt_length; [apply (in_chunk_length n_copies psz qi) | apply (in_chunk_length n_copies psz pi)];
            auto; lia.
      - split; [exact Hpi | reflexivity]. }
  cbn [rbind]. rewrite (stack_same _ (2 :: @NFoldManifold.shape K base n_copies)).
  - rewrite length_map, length_combine, !length_chunk, Nat.min_id, map_map. cbn [tdata].
    rewrite (map_combine (fun qi pi => pi ++ qi)), zip_with_flip. reflexivity.
  - destruct k as [|k]; [contradiction|]. cbn. discriminate.
  - apply Forall_forall. intros x Hx. apply in_map_iff in Hx as [y [<- _]]. reflexivity.
Qed.

Lemma broadcast_times_mismatch (T k : nat) :
  T <> k -> T <> 1 -> k <> 1 -> broadcast_shapes [T] [k] = None.
Proof.
  intros H1 H2 H3. unfold broadcast_shapes. cbn.
  destruct (Nat.eqb_spec T k), (Nat.eqb_spec T 1), (Nat.eqb_spec k 1); simpl; congruence.
Qed.

(** C23.  With more than one batch axis the path of [geodesic] zips only
    the first batch axis, and each per-point path broadcasts the times
    against the remaining batch axis: times whose number is neither 1 nor
    the size [k2] of the second batch axis make every evaluation of the
    path fail with the [einsum] broadcasting error (here for a base of at
    most two axes). *)
Theorem geodesic_multi_batch_error (k1 k2 : nat) (ts : list K) (close : K -> K -> bool) (p q : tensor K) :
  length (@m_shape K base) <= 2 -> k1 <> 0 -> length ts <> k2 -> length ts <> 1 -> k2 <> 1 ->
  product_batch [k1; k2] p -> product_batch [k1; k2] q ->
  exists path, geodesic n_copies close p (Some q) None = Ok path
    /\ path (mk_tensor [length ts] ts) = Err einsum_error.
Proof.
  intros Hnd Hk1 H1 H2 H3 Hp Hq.
  assert (HL := product_batch_concat [k1; k2] log_pt q p Hq Hp log_pt_length).
  unfold geodesic. rewrite (log_by_copies [k1; k2] q p Hq Hp). cbn [rbind].
  rewrite broadcast_arrays2_same by (apply Hp || apply HL || (destruct Hp, HL; congruence)).
  cbn [rbind tshape]. eexists. split; [reflexivity|]. cbv beta zeta.
  replace (Nat.ltb _ _) with true
    by (symmetry; apply Nat.ltb_lt; rewrite length_app; cbn [length]; unfold NFoldManifold.point_ndim; lia).
  cbn [negb path_times tshape]. unfold unstack. cbn [tshape app]. destruct Hp as [_ Hs]. rewrite Hs.
  cbn [app]. destruct k1 as [|k1]; [contradiction|]. cbn [chunk map combine rmapM].
  unfold _path_single, einsum_scalar_lead. cbn [tshape length].
  replace (S (length (@NFoldManifold.shape K base n_copies)) - Nat.min (NFoldManifold.point_ndim n_copies) 3)
    with 1 by (unfold NFoldManifold.point_ndim, NFoldManifold.shape; cbn [length]; lia).
  cbn [firstn].
  cbn [fst tshape]. rewrite broadcast_times_mismatch by assumption. reflexivity.
Qed.

(** C24.  [_path_single] names the point axes with ["ijk"[: point_ndim]],
    three letters at most: for a base of three axes the einsum takes the
    copies axis for a batch axis and broadcasts the times against it, so
    the geodesic of a single point fails at any number of times other
    than 1 and [n_copies]. *)
Theorem geodesic_deep_point_error (ts : list K) (close : K -> K -> bool) (p q l : tensor K) :
  length (@m_shape K base) = 3 -> length ts <> n_copies -> length ts <> 1 -> n_copies <> 1 ->
  product_batch [] p -> log n_copies q p = Ok l -> product_batch [] l ->
  exists path, geodesic n_copies close p (Some q) None = Ok path
    /\ path (mk_tensor [length ts] ts) = Err einsum_error.
Proof.
  intros Hnd H1 H2 H3 Hp Hlog Hl. unfold geodesic. rewrite Hlog. cbn [rbind].
  rewrite broadcast_arrays2_same by (apply Hp || apply Hl || (destruct Hp, Hl; congruence)).
  cbn [rbind]. eexists. split; [reflexivity|]. cbv beta zeta. destruct Hl as [_ Hs]. rewrite Hs.
  rewrite Nat.ltb_irrefl. cbn [negb path_times tshape].
  unfold _path_single, einsum_scalar_lead. rewrite Hs. cbn [app].
  replace (length (@NFoldManifold.shape K base n_copies) - Nat.min (NFoldManifold.point_ndim n_copies) 3)
    with 1 by (unfold NFoldManifold.point_ndim, NFoldManifold.shape; cbn [length]; lia).
  unfold NFoldManifold.shape. cbn [firstn tshape]. rewrite broadcast_times_mismatch by assumption.
  reflexivity.
Qed.

End Behaviour.

(** ** The product metric satisfies the contract

    [NFoldMetric] is a [RiemannianMetric] of the product manifold, and it
    satisfies the vectorization laws it requires of its base metric as
    long as its [metric_matrix] succeeds, that is when the base metric
    matrix at a point has [d * d] entries, [d] being the last axis of the
    base shape: the product of products is then covered by the theorems
    above. *)
Definition NFold_Metric {K : Type} `{Scalar K} (base : Manifold K) (G : RiemannianMetric K base)
  (n_copies : nat) (scales : option (list K))
  : RiemannianMetric K (NFoldManifold.NFold_Manifold base n_copies) := {|
  g_metric_matrix := metric_matrix (base := base) (G := G) n_copies scales;
  g_inner_product := inner_product (base := base) (G := G) n_copies scales;
  g_exp := exp (base := base) (G := G) n_copies;
  g_log := log (base := base) (G := G) n_copies
|}.

(** ** The product distance

    [NFoldMetric] does not override [squared_dist]: it is the contract's
    default, [inner_product(log(b, a), log(b, a), a)], computed with the
    product [log] and [inner_product]. *)
Section ProductDistance.
Context {K : Type} `{Scalar K} {base : Manifold K} `{!ManifoldLaws K base}.
Context {G : RiemannianMetric K base} `{!MetricLaws K base G}.
Context (n_copies : nat).

Local Abbreviation psz := (point_size base).

(** The base's squared distance from [x] to [y], point by point. *)
Definition squared_dist_pt (x y : list K) : K :=
  inner_product_pt (log_pt y x) (log_pt y x) x.

(** C10. Squared distances add up over the copies: on a batch of product
    points, the squared distance from [a] to [b] is, point by point, the
    sum over the copies of the base squared distances between the
    matching copies, each multiplied by its scale. *)
Theorem squared_dist_additive (scales : option (list K)) (batch : list nat) (a b : tensor K) :
  scales_fit n_copies scales ->
  NFoldManifold.product_batch n_copies batch a -> NFoldManifold.product_batch n_copies batch b ->
  default_squared_dist (NFold_Metric base G n_copies scales) a b
  = Ok (mk_tensor batch
          (zip_with (fun ga gb => ssum (scaled scales
                        (zip_with squared_dist_pt (chunk n_copies psz ga) (chunk n_copies psz gb))))
             (chunk (numel batch) (n_copies * psz) (tdata a))
             (chunk (numel batch) (n_copies * psz) (tdata b)))).
Proof.
  intros Hfit Ha Hb. unfold default_squared_dist. cbn [g_log g_inner_product NFold_Metric].
  rewrite (log_by_copies n_copies batch b a Hb Ha). cbn [rbind].
  rewrite (inner_product_blocks n_copies scales batch) by
    (exact Hfit || exact Ha || (apply product_batch_concat; [exact Hb | exact Ha | apply log_pt_length])).
  do 2 f_equal. cbn [tdata].
  match goal with |- zip_with3 _ (chunk _ _ ?L) _ _ = _ => set (LL := L) end.
  transitivity (map (fun r => ssum (scaled scales r))
    (chunk (numel batch) n_copies
       (zip_with3 inner_product_pt (chunk (numel batch * n_copies) psz LL)
          (chunk (numel batch * n_copies) psz LL) (chunk (numel batch * n_copies) psz (tdata a))))).
  { now rewrite regroup_zip3, map_zip_with3. }
  unfold LL. rewrite (chunk_concat_blocks n_copies batch log_pt b a Hb Ha log_pt_length).
  rewrite zip_with3_pair, zip_with_flip, regroup_zip, zip_with_map. reflexivity.
Qed.
End ProductDistance.

Section ProductMetricLaws.
Context {K : Type} `{Scalar K} {base : Manifold K} `{!ManifoldLaws K base}.
Context {G : RiemannianMetric K base} `{!MetricLaws K base G}.
Context (n_copies : nat) (scales : option (list K)) (pre : list nat) (d : nat).
Hypothesis scales_ok : scales_fit n_copies scales.
Hypothesis base_last : split_last (@m_shape K base) = Some (pre, d).
Hypothesis base_square : @metric_len K base G _ = d * d.

Local Abbreviation psz := (point_size base).
Local Abbreviation NF := (NFoldManifold.NFold_Manifold base n_copies).

Lemma length_scaled_blocks (ms : list (list K)) (c : nat) :
  length ms = n_copies -> Forall (fun b => length b = c) ms ->
  length (concat (scaled_blocks scales ms)) = n_copies * c.
Proof.
  intros Hl HF. destruct scales as [sc|]; cbn in scales_ok |- *.
  - rewrite (length_concat_same c).
    + rewrite zip_with_length_eq; congruence.
    + apply Forall_zip_with. intros x y _ Hy. rewrite length_map. rewrite Forall_forall in HF. auto.
  - rewrite (length_concat_same c); [congruence | exact HF].
Qed.

Lemma copies_length (f : list K -> list K -> list K) (x y : list K) :
  (forall a b, length a = psz -> length b = psz -> length (f a b) = psz) ->
  length x = point_size NF -> length y = point_size NF ->
  length (concat (zip_with f (chunk n_copies psz x) (chunk n_copies psz y))) = point_size NF.
Proof.
  intros Hf Hx Hy. rewrite NFoldManifold.point_size_product in *. rewrite (length_concat_same psz).
  - rewrite zip_with_length_eq; now rewrite !length_chunk.
  - apply Forall_zip_with. intros a b Ha Hb. apply Hf.
    + apply (in_chunk_length n_copies psz x); [lia | exact Ha].
    + apply (in_chunk_length n_copies psz y); [lia | exact Hb].
Qed.

#[export] Instance NFold_MetricLaws : MetricLaws K NF (NFold_Metric base G n_copies scales).
Proof.
  refine {|
    metric_len := n_copies * @metric_len K base G _;
    metric_matrix_pt := fun g => concat (scaled_blocks scales (map metric_matrix_pt (chunk n_copies psz g)));
    inner_product_pt := fun gu gv gp =>
      ssum (scaled scales (zip_with3 inner_product_pt (chunk n_copies psz gu)
                             (chunk n_copies psz gv) (chunk n_copies psz gp)));
    exp_pt := fun x y => concat (zip_with exp_pt (chunk n_copies psz x) (chunk n_copies psz y));
    log_pt := fun x y => concat (zip_with log_pt (chunk n_copies psz x) (chunk n_copies psz y))
  |}.
  - intros m p Hp. eexists. cbn [g_metric_matrix NFold_Metric].
    rewrite (metric_matrix_blocks n_copies scales [m] pre d p scales_ok
               (NFoldManifold.batch_of_product n_copies m p Hp) base_last base_square).
    now rewrite NFoldManifold.blocks_product.
  - intros p Hp. rewrite NFoldManifold.point_size_product in Hp. apply length_scaled_blocks.
    + now rewrite length_map, length_chunk.
    + apply Forall_forall. intros x Hx. apply in_map_iff in Hx as [y [<- Hy]].
      apply metric_matrix_pt_length. apply (in_chunk_length n_copies psz p); [lia | exact Hy].
  - intros m u v p Hu Hv Hp. eexists. cbn [g_inner_product NFold_Metric].
    rewrite (inner_product_blocks n_copies scales [m] u v p scales_ok
               (NFoldManifold.batch_of_product n_copies m u Hu) (NFoldManifold.batch_of_product n_copies m v Hv)
               (NFoldManifold.batch_of_product n_copies m p Hp)).
    now rewrite !NFoldManifold.blocks_product.
  - intros m v p Hv Hp. eexists. cbn [g_exp NFold_Metric].
    rewrite (exp_by_copies n_copies [m] v p (NFoldManifold.batch_of_product n_copies m v Hv)
               (NFoldManifold.batch_of_product n_copies m p Hp)).
    now rewrite !NFoldManifold.blocks_product, concat_regroup_zip.
  - intros m q p Hq Hp. eexists. cbn [g_log NFold_Metric].
    rewrite (log_by_copies n_copies [m] q p (NFoldManifold.batch_of_product n_copies m q Hq)
               (NFoldManifold.batch_of_product n_copies m p Hp)).
    now rewrite !NFoldManifold.blocks_product, concat_regroup_zip.
  - intros v p Hv Hp. apply copies_length; auto. apply exp_pt_length.
  - intros q p Hq Hp. apply copies_length; auto. apply log_pt_length.
Defined.
End ProductMetricLaws.

(** ** The product of two copies of the exponential distributions

    The theorems above, applied to [NFoldMetric(ExponentialMetric(), 2)]
    on arrays of rates. *)

Section Witnesses.
Local Open Scope R_scope.

Local Abbreviation ER := (ExponentialDistributions.Exponential_Manifold R 0).
Local Abbreviation GR := (Exponential_Metric 0).
Local Abbreviation P := (mk_tensor [2%nat; 1%nat] [1; 2]).
Local Abbreviation Q := (mk_tensor [2%nat; 1%nat] [3; 1]).
Local Abbreviation V := (mk_tensor [2%nat; 1%nat] [5; 7]).

Lemma squared_dist_additive_witness :
  scales_fit 2 (Some [2; 3]) /\ NFoldManifold.product_batch (base := ER) 2 [] P
  /\ NFoldManifold.product_batch (base := ER) 2 [] Q
  /\ default_squared_dist (NFold_Metric ER GR 2 (Some [2; 3])) P Q
     = Ok (mk_tensor []
             (zip_with (fun ga gb => ssum (scaled (Some [2; 3])
                           (zip_with (squared_dist_pt (base := ER) (G := GR))
                              (chunk 2 1 ga) (chunk 2 1 gb))))
                (chunk 1 2 [1; 2]) (chunk 1 2 [3; 1]))).
Proof.
  refine (conj eq_refl (conj (conj eq_refl eq_refl) (conj (conj eq_refl eq_refl) _))).
  apply (squared_dist_additive (base := ER) (G := GR) 2 (Some [2; 3]) []); split; reflexivity.
Defined.

Lemma inner_product_spec_witness :
  exists r, inner_product (base := ER) (G := GR) 2 (Some [2; 3]) V V P = Ok r
            /\ tdata r = [2 * (5 * 5) + 3 * (7 * 7 / 4)].
Proof.
  eexists. split.
  - apply (inner_product_spec (base := ER) (G := GR) 2 (Some [2; 3]) []); split; reflexivity.
  - cbn. f_equal. field.
Defined.

Lemma exp_log_copywise_witness :
  exp (base := ER) (G := GR) 2 V P
  = Ok (mk_tensor [2%nat; 1%nat] [ExponentialMetric.exp_pt 5 1; ExponentialMetric.exp_pt 7 2])
  /\ log (base := ER) (G := GR) 2 V P
  = Ok (mk_tensor [2%nat; 1%nat] [ExponentialMetric.log_pt 5 1; ExponentialMetric.log_pt 7 2]).
Proof.
  destruct (exp_log_copywise (base := ER) (G := GR) 2 [] V P) as [-> ->]; split; reflexivity.
Defined.

Lemma exp_log_roundtrip_nfold_witness :
  exists l, log (base := ER) (G := GR) 2 Q P = Ok l /\ exp (base := ER) (G := GR) 2 l P = Ok Q.
Proof.
  apply (exp_log_roundtrip_nfold (base := ER) (G := GR) 2 []); [| split; reflexivity ..].
  intros x y Hx Hy. cbn in Hx, Hy.
  destruct Hx as [<- | [<- | []]], Hy as [<- | [<- | []]]; cbn; f_equal;
    try (rewrite exp_log_pt; lra); discriminate.
Defined.
Lemma metric_matrix_spec_witness :
  exists r, metric_matrix (base := ER) (G := GR) 2 (Some [2; 3]) P = Ok r
            /\ tshape r = [2%nat; 1%nat; 1%nat] /\ tdata r = [2 * (1 / 1 ^ 2); 3 * (1 / 2 ^ 2)].
Proof.
  eexists. split.
  - apply (metric_matrix_spec (base := ER) (G := GR) 2 (Some [2; 3]) [] [] 1); try reflexivity.
    split; reflexivity.
  - split; reflexivity.
Defined.

Lemma geodesic_endpoints_witness :
  exists path, geodesic (base := ER) (G := GR) 2 (fun _ _ => true) P (Some Q) None = Ok path
    /\ path (mk_tensor [2%nat] [0; 1]) = Ok (mk_tensor [2%nat; 2%nat; 1%nat] [1; 2; 3; 1]).
Proof.
  destruct (geodesic_endpoints (base := ER) (G := GR) 2 (fun _ _ => true) P Q) as [path [H1 H2]];
    [cbn; lia | split; reflexivity | split; reflexivity | | | exists path; split; [exact H1 | exact H2]].
  - intros [|a [|b v]] y Hv Hy; try discriminate. cbn in Hy.
    destruct Hy as [<- | [<- | []]]; cbn; f_equal; unfold ExponentialMetric.exp_pt;
      replace (0 * a / _) with 0 by field; rewrite exp_0; ring.
  - intros x y Hx Hy. cbn in Hx, Hy.
    destruct Hx as [<- | [<- | []]], Hy as [<- | [<- | []]]; cbn; f_equal; rewrite exp_log_pt; lra.
Defined.

Lemma geodesic_argument_errors_witness :
  geodesic (base := ER) (G := GR) 2 (fun a b => if Req_EM_T a b then true else false) P (Some P) (Some V)
  = Err (RuntimeError "The shooting tangent vector is too far from the initial tangent vector.").
Proof.
  apply (geodesic_argument_errors (base := ER) (G := GR) 2 _ []); [split; reflexivity .. |].
  intros l Hl. rewrite (log_by_copies (base := ER) (G := GR) 2 [] P P) in Hl by (split; reflexivity).
  injection Hl as <-. cbn. unfold ExponentialMetric.log_pt.
  replace (1 / 1) with 1 by field. rewrite ln_1.
  destruct (Req_EM_T (1 * 0) 5) as [E|_]; [lra | reflexivity].
Defined.
Lemma two_copies : 2%nat <> 0%nat.
Proof. discriminate. Qed.

(** The product of three copies of [NFoldMetric(ExponentialMetric(), 2)]:
    the base metric matrix at a point is [2 x 1 x 1], two entries, while
    the last axis of the base shape [(2, 1)] is [1]. *)
Lemma metric_matrix_size_mismatch_witness :
  metric_matrix (base := NFoldManifold.NFold_Manifold ER 2) (G := NFold_Metric ER GR 2 None) 3 None
    (mk_tensor [3%nat; 2%nat; 1%nat] [1; 2; 3; 4; 5; 6]) = Err shape_error.
Proof.
  refine (@metric_matrix_size_mismatch R _ (NFoldManifold.NFold_Manifold ER 2)
            (NFoldManifold.NFold_ManifoldLaws 2 two_copies) (NFold_Metric ER GR 2 None)
            (@NFold_MetricLaws R _ ER _ GR _ 2 None [] 1 I eq_refl eq_refl) 3 None [] [2%nat] 1 _ _ _ _ _);
    [split; reflexivity | reflexivity | cbn; discriminate | cbn; discriminate].
Defined.

Lemma geodesic_batch_endpoints_witness :
  exists path, geodesic (base := ER) (G := GR) 2 (fun _ _ => true)
                 (mk_tensor [2%nat; 2%nat; 1%nat] [1; 2; 3; 4]) (Some (mk_tensor [2%nat; 2%nat; 1%nat] [3; 1; 2; 5]))
                 None = Ok path
    /\ path (mk_tensor [2%nat] [0; 1]) = Ok (mk_tensor [2%nat; 2%nat; 2%nat; 1%nat] [1; 2; 3; 1; 3; 4; 2; 5]).
Proof.
  destruct (geodesic_batch_endpoints (base := ER) (G := GR) 2 2 (fun _ _ => true)
              (mk_tensor [2%nat; 2%nat; 1%nat] [1; 2; 3; 4]) (mk_tensor [2%nat; 2%nat; 1%nat] [3; 1; 2; 5]))
    as [path [H1 H2]];
    [cbn; lia | discriminate | split; reflexivity | split; reflexivity | |
     | exists path; split; [exact H1 | exact H2]].
  - intros [|a [|b v]] y Hv Hy; try discriminate. cbn in Hy.
    destruct Hy as [<- | [<- | [<- | [<- | []]]]]; cbn; f_equal; unfold ExponentialMetric.exp_pt;
      replace (0 * a / _) with 0 by field; rewrite exp_0; ring.
  - intros x y Hx Hy. cbn in Hx, Hy.
    destruct Hx as [<- | [<- | [<- | [<- | []]]]], Hy as [<- | [<- | [<- | [<- | []]]]];
      cbn; f_equal; rewrite exp_log_pt; lra.
Defined.

Lemma geodesic_multi_batch_error_witness :
  exists path, geodesic (base := ER) (G := GR) 2 (fun _ _ => true)
                 (mk_tensor [2%nat; 2%nat; 2%nat; 1%nat] [1; 2; 3; 4; 5; 6; 7; 8])
                 (Some (mk_tensor [2%nat; 2%nat; 2%nat; 1%nat] [8; 7; 6; 5; 4; 3; 2; 1])) None = Ok path
    /\ path (mk_tensor [3%nat] [0; 1 / 2; 1]) = Err einsum_error.
Proof.
  apply (geodesic_multi_batch_error (base := ER) (G := GR) 2 2 2 [0; 1 / 2; 1]);
    [cbn; lia | discriminate .. | split; reflexivity | split; reflexivity].
Defined.

Lemma one_copy : 1%nat <> 0%nat.
Proof. discriminate. Qed.

(** A base of three axes: [NFoldManifold(NFoldManifold(ExponentialDistributions(), 1), 1)],
    of shape [(1, 1, 1)], with its lawful product metric. *)
Local Abbreviation E1 := (NFoldManifold.NFold_Manifold ER 1).
Local Abbreviation E11 := (NFoldManifold.NFold_Manifold E1 1).
Local Abbreviation G1 := (NFold_Metric ER GR 1 None).
Local Abbreviation G11 := (NFold_Metric E1 G1 1 None).
Local Abbreviation E11_laws := (NFoldManifold.NFold_ManifoldLaws (base := E1)
                                  (ManifoldLaws0 := NFoldManifold.NFold_ManifoldLaws 1 one_copy) 1 one_copy).
Local Abbreviation G11_laws := (@NFold_MetricLaws R _ E1 (NFoldManifold.NFold_ManifoldLaws 1 one_copy) G1
                                  (@NFold_MetricLaws R _ ER _ GR _ 1 None [] 1 I eq_refl eq_refl)
                                  1 None [1%nat] 1 I eq_refl eq_refl).

Lemma geodesic_deep_point_error_witness :
  exists path, geodesic (base := E11) (G := G11) 3 (fun _ _ => true)
                 (mk_tensor [3%nat; 1%nat; 1%nat; 1%nat] [1; 1; 1])
                 (Some (mk_tensor [3%nat; 1%nat; 1%nat; 1%nat] [2; 2; 2])) None = Ok path
    /\ path (mk_tensor [2%nat] [0; 1]) = Err einsum_error.
Proof.
  eapply (geodesic_deep_point_error (base := E11) (G := G11) 3 [0; 1]);
    [reflexivity | discriminate .. | split; reflexivity | |].
  - exact (@log_by_copies R E11 E11_laws G11 G11_laws 3 []
             (mk_tensor [3%nat; 1%nat; 1%nat; 1%nat] [2; 2; 2]) (mk_tensor [3%nat; 1%nat; 1%nat; 1%nat] [1; 1; 1])
             (conj eq_refl eq_refl) (conj eq_refl eq_refl)).
  - split; reflexivity.
Defined.

End Witnesses.

End NFoldMetric.
