(* ===== verification/Iteration.v ===== *)
(** * Bounded iterative solvers

    The two iterative routines of the discrete-curves shape space (the
    closed-curve projection [srv_projection] and the alignment loop of
    [horizontal_geodesic], specification sections 4.4 and 4.5) share one
    control structure: test a stopping condition, otherwise apply a
    correction step, at most [max_iter] times, and return the last
    iterate without saying whether the test or the budget ended the loop.
    [iterate_until] is that loop, the budget being its structural
    argument; the lemmas characterise its result (what was returned, how
    many steps were spent, why it stopped) and give the budget after
    which a contracting step is guaranteed to stop. *)

From Stdlib Require Import Arith Lia List Reals Lra.
From S2P Require Import Prelude.
Import ListNotations.

Section Iterate.
Context {X : Type} (stop : X -> bool) (step : X -> X).

(** The loop [for _ in range(max_iter): if stop(x): break; x = step(x)],
    returning the last iterate and the number of steps applied. *)
Fixpoint iterate_until (max_iter : nat) (x : X) : X * nat :=
  match max_iter with
  | O => (x, O)
  | S m => if stop x then (x, O)
           else let '(y, n) := iterate_until m (step x) in (y, S n)
  end.

(** The iterate reached after [n] steps. *)
Definition nth_iterate (n : nat) (x : X) : X := Nat.iter n step x.

Lemma nth_iterate_S (n : nat) (x : X) : nth_iterate (S n) x = nth_iterate n (step x).
Proof. unfold nth_iterate. now rewrite Nat.iter_succ_r. Qed.

(** What the loop returns: the iterate after the steps it counts, no
    more steps than the budget, no earlier iterate passing the test, and
    either the returned iterate passes the test or the budget is spent. *)
Lemma iterate_until_spec (max_iter : nat) (x : X) :
  let '(y, n) := iterate_until max_iter x in
  y = nth_iterate n x /\ n <= max_iter
  /\ (forall i, i < n -> stop (nth_iterate i x) = false)
  /\ (stop y = true \/ n = max_iter).
Proof.
  revert x. induction max_iter as [|m IH]; intros x; cbn [iterate_until].
  - refine (conj eq_refl (conj (le_n 0) (conj _ (or_intror eq_refl)))). intros i Hi; lia.
  - destruct (stop x) eqn:Hs.
    { refine (conj eq_refl (conj (Nat.le_0_l _) (conj _ (or_introl Hs)))). intros i Hi; lia. }
    specialize (IH (step x)). destruct (iterate_until m (step x)) as [y n].
    destruct IH as (Hy & Hn & Hpre & Hend). repeat split.
    + now rewrite nth_iterate_S.
    + lia.
    + intros [|i] Hi; [exact Hs|]. rewrite nth_iterate_S. apply Hpre. lia.
    + destruct Hend; [now left | right; lia].
Qed.

Lemma iterate_until_steps_le (max_iter : nat) (x : X) :
  snd (iterate_until max_iter x) <= max_iter.
Proof.
  pose proof (iterate_until_spec max_iter x) as H.
  destruct (iterate_until max_iter x). cbn. tauto.
Qed.

(** A point that already passes the test is returned unchanged. *)
Lemma iterate_until_stopped (max_iter : nat) (x : X) :
  stop x = true -> iterate_until max_iter x = (x, O).
Proof. intros Hs. destruct max_iter; cbn; [reflexivity|]. now rewrite Hs. Qed.

(** If the [k]-th iterate passes the test and the budget exceeds [k],
    the loop stops at the latest there, with a passing iterate. *)
Lemma iterate_until_reaches (k max_iter : nat) (x : X) :
  k < max_iter -> stop (nth_iterate k x) = true ->
  stop (fst (iterate_until max_iter x)) = true /\ snd (iterate_until max_iter x) <= k.
Proof.
  revert k x. induction max_iter as [|m IH]; intros k x Hk Hs; [lia|].
  cbn [iterate_until]. destruct (stop x) eqn:Hx; [cbn; split; [exact Hx | lia]|].
  destruct k as [|k]; [cbn in Hs; congruence|]. rewrite nth_iterate_S in Hs.
  destruct (IH k (step x)) as [H1 H2]; [lia | exact Hs |].
  destruct (iterate_until m (step x)) as [y n]. cbn in *. split; [exact H1 | lia].
Qed.

(** ** Contraction gives convergence within a computable budget *)
Section Contraction.
Local Open Scope R_scope.
Variables (measure : X -> R) (c tol : R).
Hypothesis measure_nonneg : forall x, 0 <= measure x.
Hypothesis c_range : 0 <= c < 1.
Hypothesis tol_pos : 0 < tol.
Hypothesis step_contracts : forall x, measure (step x) <= c * measure x.
Hypothesis stop_below : forall x, measure x < tol -> stop x = true.

Lemma measure_nth_iterate (n : nat) (x : X) : measure (nth_iterate n x) <= c ^ n * measure x.
Proof.
  revert x. induction n as [|n IH]; intros x; [cbn; lra|].
  rewrite nth_iterate_S. cbn [pow].
  specialize (IH (step x)). specialize (step_contracts x).
  pose proof (pow_le c n (proj1 c_range)).
  apply Rle_trans with (1 := IH).
  replace (c * c ^ n * measure x) with (c ^ n * (c * measure x)) by ring.
  apply Rmult_le_compat_l; lra.
Qed.

(** There is a number of steps [N] after which the [N]-th iterate
    passes the test; any budget beyond it makes the loop stop on a
    passing iterate within [N] steps. *)
Lemma iterate_until_converges (x : X) :
  exists N, forall max_iter, (N < max_iter)%nat ->
    stop (fst (iterate_until max_iter x)) = true /\ (snd (iterate_until max_iter x) <= N)%nat.
Proof.
  destruct (Req_dec (measure x) 0) as [H0|H0].
  - exists O. intros m Hm. apply iterate_until_reaches; [exact Hm|].
    apply stop_below. cbn. lra.
  - assert (Hpos : 0 < tol / measure x).
    { pose proof (measure_nonneg x). apply Rdiv_lt_0_compat; lra. }
    destruct (pow_lt_1_zero c ltac:(rewrite Rabs_right; lra) _ Hpos) as [N HN].
    exists N. intros m Hm. apply iterate_until_reaches; [exact Hm|]. apply stop_below.
    specialize (HN N (le_n N)). rewrite Rabs_right in HN by (apply Rle_ge, pow_le; lra).
    pose proof (measure_nonneg x).
    apply Rle_lt_trans with (1 := measure_nth_iterate N x).
    apply Rmult_lt_compat_r with (r := measure x) in HN; [|lra].
    unfold Rdiv in HN. rewrite Rmult_assoc, Rinv_l, Rmult_1_r in HN; lra.
Qed.
End Contraction.
End Iterate.

Arguments iterate_until {X} stop step max_iter x.
Arguments nth_iterate {X} step n x.
