(* ===== verification/FiberBundle.v ===== *)
(** * The fiber-bundle interface of the discrete-curves shape space

    The shape bundle [SRVShapeBundle] that the test cases of
    [src/geomstats/test_cases/geometry/discrete_curves.py] exercise is
    not under [src/]; this file models it from the specification
    (section 4.4).  A total-space point or tangent vector is the flat
    buffer of a discretised curve ([list R]).  The class [FiberBundle]
    is the interface the tests call: the total-space inner product, the
    vertical directions at a point (the tangent directions of the
    reparametrisation orbit, one per moved sampling point), the
    total-space geodesic, and one step of the alignment of an end point
    on an initial point with the change it makes.  [FiberBundleLaws]
    are its laws: a symmetric bilinear inner product, and vertical
    directions that are mutually orthogonal and of positive norm.

    Module [FiberBundle] builds the operations of the bundle on it:
    [vertical_projection] (orthogonal projection on the vertical
    directions), [horizontal_projection] (its complement),
    [vertical_norms] (the norms returned with [return_norm=True]) and
    [horizontal_geodesic] (the alignment loop of [Iteration] followed by
    the total-space geodesic).  The lemmas are the invariant of the
    decomposition (horizontal and vertical parts are orthogonal), the
    identity between the returned norms and the vertical part, and the
    end points, budget and convergence of [horizontal_geodesic]. *)

From Stdlib Require Import Arith Lia List Reals Lra.
From S2P Require Import Prelude Iteration.
Import ListNotations.
Local Open Scope R_scope.

(** ** Vectors of the total space (numpy arithmetic on flat buffers) *)

Definition vadd (u v : list R) : list R := zip_with Rplus u v.
Definition vsub (u v : list R) : list R := zip_with Rminus u v.
Definition vscale (c : R) (u : list R) : list R := map (Rmult c) u.
Definition vzero (n : nat) : list R := repeat 0 n.
Definition vsum (n : nat) (vs : list (list R)) : list R := fold_right vadd (vzero n) vs.
Definition rsum (l : list R) : R := fold_right Rplus 0 l.

Lemma vsub_vadd_opp (u v : list R) : vsub u v = vadd u (vscale (-1) v).
Proof.
  revert v. induction u as [|x u IH]; intros [|y v]; cbn; [reflexivity..|].
  f_equal; [ring | apply IH].
Qed.

Lemma vzero_vscale (n : nat) : vzero n = vscale 0 (vzero n).
Proof. induction n as [|n IH]; cbn; [reflexivity|]. f_equal; [ring | exact IH]. Qed.

Lemma length_vadd (n : nat) (u v : list R) : length u = n -> length v = n -> length (vadd u v) = n.
Proof. intros Hu Hv. unfold vadd. rewrite zip_with_length_eq; congruence. Qed.

Lemma length_vsub (n : nat) (u v : list R) : length u = n -> length v = n -> length (vsub u v) = n.
Proof. intros Hu Hv. unfold vsub. rewrite zip_with_length_eq; congruence. Qed.

Lemma length_vscale (c : R) (u : list R) : length (vscale c u) = length u.
Proof. apply length_map. Qed.

Lemma length_vsum (n : nat) (vs : list (list R)) :
  Forall (fun v => length v = n) vs -> length (vsum n vs) = n.
Proof.
  induction 1 as [|v vs Hv _ IH]; cbn; [apply repeat_length|]. now apply length_vadd.
Qed.

Lemma rsum_zero {A : Type} (f : A -> R) (l : list A) :
  (forall x, In x l -> f x = 0) -> rsum (map f l) = 0.
Proof.
  induction l as [|a l IH]; intros Hz; [reflexivity|].
  change (f a + rsum (map f l) = 0).
  rewrite Hz by now left. rewrite IH by (intros x Hx; apply Hz; now right). ring.
Qed.

Lemma rsum_ext_in {A : Type} (f g : A -> R) (l : list A) :
  (forall x, In x l -> f x = g x) -> rsum (map f l) = rsum (map g l).
Proof. intros H. now rewrite (map_ext_in f g l H). Qed.

#[export] Hint Resolve length_vadd length_vsub length_vsum : geom.
#[export] Hint Rewrite length_vscale : geom_rw.

(** ** The interface *)

Class FiberBundle : Type := {
  fb_dim : nat;                                   (* size of a flat curve *)
  fb_inner : list R -> list R -> list R -> R;     (* metric.inner_product(u, v, p) *)
  fb_vertical_dirs : list R -> list (list R);      (* directions of the orbit at p *)
  fb_geodesic : list R -> list R -> R -> list R;  (* total-space geodesic, at a time *)
  fb_align : list R -> list R -> list R;          (* one alignment of q on p *)
  fb_gap : list R -> list R -> R;                 (* change between two iterates *)
  fb_max_iter : nat;                               (* default budget of the alignment *)
  fb_threshold : R                                 (* default threshold of the alignment *)
}.

Class FiberBundleLaws `{FiberBundle} : Prop := {
  inner_sym : forall u v p, fb_inner u v p = fb_inner v u p;
  inner_add_l : forall u v w p, length u = fb_dim -> length v = fb_dim ->
    fb_inner (vadd u v) w p = fb_inner u w p + fb_inner v w p;
  inner_scale_l : forall c u w p, fb_inner (vscale c u) w p = c * fb_inner u w p;
  dirs_length : forall p w, In w (fb_vertical_dirs p) -> length w = fb_dim;
  dirs_pos : forall p w, In w (fb_vertical_dirs p) -> 0 < fb_inner w w p;
  dirs_orth : forall p, ForallOrdPairs (fun a b => fb_inner a b p = 0) (fb_vertical_dirs p);
  align_length : forall p q, length q = fb_dim -> length (fb_align p q) = fb_dim;
  geodesic_at_0 : forall p q, length p = fb_dim -> length q = fb_dim -> fb_geodesic p q 0 = p;
  geodesic_at_1 : forall p q, length p = fb_dim -> length q = fb_dim -> fb_geodesic p q 1 = q
}.

Module ShapeBundle.

Section Operations.
Context `{FiberBundle}.

(** The coordinate of [tangent_vec] along a vertical direction. *)
Definition vertical_coef (tangent_vec base_point w : list R) : R :=
  fb_inner tangent_vec w base_point / fb_inner w w base_point.

(** [vertical_projection(tangent_vec, base_point)]: the orthogonal
    projection on the vertical space. *)
Definition vertical_projection (tangent_vec base_point : list R) : list R :=
  vsum fb_dim (map (fun w => vscale (vertical_coef tangent_vec base_point w) w)
                   (fb_vertical_dirs base_point)).

(** [vertical_projection(..., return_norm=True)]: the norm of the
    vertical part along each vertical direction. *)
Definition vertical_norms (tangent_vec base_point : list R) : list R :=
  map (fun w => Rabs (vertical_coef tangent_vec base_point w) * sqrt (fb_inner w w base_point))
      (fb_vertical_dirs base_point).

(** [horizontal_projection(tangent_vec, base_point)]: the complement. *)
Definition horizontal_projection (tangent_vec base_point : list R) : list R :=
  vsub tangent_vec (vertical_projection tangent_vec base_point).

(** The stopping test of the alignment: the next alignment changes the
    end point by less than [threshold]. *)
Definition alignment_converged (initial_point : list R) (threshold : R) (q : list R) : bool :=
  if Rlt_dec (fb_gap q (fb_align initial_point q)) threshold then true else false.

(** The aligned representative of [end_point]: align until the change
    is below [threshold] or [max_iter] alignments were made, then align
    once more. *)
Definition aligned_end_point (initial_point end_point : list R) (threshold : R)
    (max_iter : nat) : list R :=
  fb_align initial_point
    (fst (iterate_until (alignment_converged initial_point threshold)
            (fb_align initial_point) max_iter end_point)).

(** [horizontal_geodesic(initial_point, end_point, threshold)]: the
    total-space geodesic to the aligned end point, as a function of
    the time. *)
Definition horizontal_geodesic (initial_point end_point : list R) (threshold : R) : R -> list R :=
  fb_geodesic initial_point (aligned_end_point initial_point end_point threshold fb_max_iter).
End Operations.

Section Laws.
Context `{FiberBundleLaws}.

Lemma inner_sub_l (u v w p : list R) :
  length u = fb_dim -> length v = fb_dim ->
  fb_inner (vsub u v) w p = fb_inner u w p - fb_inner v w p.
Proof.
  intros Hu Hv. rewrite vsub_vadd_opp, inner_add_l, inner_scale_l; [ring | exact Hu|].
  now rewrite length_vscale.
Qed.

Lemma inner_vzero_l (n : nat) (w p : list R) : fb_inner (vzero n) w p = 0.
Proof. rewrite vzero_vscale, inner_scale_l. ring. Qed.

(** The inner product of a linear combination of vectors of the total
    space is the combination of the inner products. *)
Lemma inner_combination_l (a : list R -> R) (ws : list (list R)) (u p : list R) :
  Forall (fun w => length w = fb_dim) ws ->
  fb_inner (vsum fb_dim (map (fun w => vscale (a w) w) ws)) u p
  = rsum (map (fun w => a w * fb_inner w u p) ws).
Proof.
  induction 1 as [|w ws Hw Hws IH]; [apply inner_vzero_l|].
  cbn [map vsum fold_right]. fold (vsum fb_dim (map (fun w => vscale (a w) w) ws)).
  rewrite inner_add_l, inner_scale_l, IH; [reflexivity | now rewrite length_vscale|].
  apply length_vsum. apply Forall_map. eapply Forall_impl; [|exact Hws].
  intros x Hx. now rewrite length_vscale.
Qed.

Lemma dirs_Forall_length (p : list R) : Forall (fun w => length w = fb_dim) (fb_vertical_dirs p).
Proof. apply Forall_forall. intros w Hw. now apply (dirs_length p). Qed.

Lemma length_vertical_projection (v p : list R) : length (vertical_projection v p) = fb_dim.
Proof.
  apply length_vsum. apply Forall_map. eapply Forall_impl; [|apply dirs_Forall_length].
  intros x Hx. now rewrite length_vscale.
Qed.

Lemma coef_times_norm (v p w : list R) :
  In w (fb_vertical_dirs p) -> vertical_coef v p w * fb_inner w w p = fb_inner v w p.
Proof.
  intros Hw. pose proof (dirs_pos p w Hw). unfold vertical_coef. field. lra.
Qed.

(** Against one vertical direction, a sum over mutually orthogonal
    directions keeps only that direction's term. *)
Lemma rsum_orthogonal_dirs (v p w : list R) (ws : list (list R)) :
  ForallOrdPairs (fun a b => fb_inner a b p = 0) ws ->
  (forall x, In x ws -> 0 < fb_inner x x p) -> In w ws ->
  rsum (map (fun x => fb_inner v x p / fb_inner x x p * fb_inner x w p) ws) = fb_inner v w p.
Proof.
  induction 1 as [|a ws Ha Hws IH]; intros Hpos Hin; [destruct Hin|].
  change (fb_inner v a p / fb_inner a a p * fb_inner a w p
          + rsum (map (fun x => fb_inner v x p / fb_inner x x p * fb_inner x w p) ws)
          = fb_inner v w p).
  rewrite Forall_forall in Ha. destruct Hin as [<- | Hin].
  - rewrite rsum_zero.
    + pose proof (Hpos a (or_introl eq_refl)). field. lra.
    + intros x Hx. rewrite (inner_sym x a), (Ha x Hx). ring.
  - rewrite (Ha w Hin), IH; [ring | | exact Hin]. intros x Hx. apply Hpos. now right.
Qed.

(** The vertical projection has the same coordinate as the vector
    along every vertical direction. *)
Lemma inner_vertical_projection_dir (v p w : list R) :
  In w (fb_vertical_dirs p) -> fb_inner (vertical_projection v p) w p = fb_inner v w p.
Proof.
  intros Hw. unfold vertical_projection.
  rewrite inner_combination_l by apply dirs_Forall_length.
  apply rsum_orthogonal_dirs; [apply dirs_orth | apply dirs_pos | exact Hw].
Qed.

(** The squared norm of the vertical part, as a sum over the vertical
    directions. *)
Lemma inner_vertical_vertical (v p : list R) :
  fb_inner (vertical_projection v p) (vertical_projection v p) p
  = rsum (map (fun w => vertical_coef v p w * fb_inner v w p) (fb_vertical_dirs p)).
Proof.
  unfold vertical_projection at 1. rewrite inner_combination_l by apply dirs_Forall_length.
  apply rsum_ext_in. intros w Hw. f_equal.
  rewrite inner_sym. now apply inner_vertical_projection_dir.
Qed.

(** The invariant of the decomposition (specification, section 4.4):
    the horizontal and the vertical parts of a tangent vector are
    orthogonal for the total-space metric. *)
Lemma horizontal_vertical_orthogonal (v p : list R) :
  length v = fb_dim ->
  fb_inner (horizontal_projection v p) (vertical_projection v p) p = 0.
Proof.
  intros Hv. unfold horizontal_projection.
  rewrite inner_sub_l by (exact Hv || apply length_vertical_projection).
  rewrite inner_vertical_vertical, inner_sym. unfold vertical_projection at 1.
  rewrite inner_combination_l by apply dirs_Forall_length.
  rewrite (rsum_ext_in _ (fun w => vertical_coef v p w * fb_inner v w p)); [ring|].
  intros w _. now rewrite inner_sym.
Qed.

(** The norms returned with [return_norm=True] measure the vertical
    part: their squares add up to its squared norm. *)
Lemma vertical_norms_squared (v p : list R) :
  rsum (map (fun r => r * r) (vertical_norms v p))
  = fb_inner (vertical_projection v p) (vertical_projection v p) p.
Proof.
  rewrite inner_vertical_vertical. unfold vertical_norms. rewrite map_map.
  apply rsum_ext_in. intros w Hw. pose proof (dirs_pos p w Hw).
  rewrite <- (coef_times_norm v p w Hw).
  replace (Rabs (vertical_coef v p w) * sqrt (fb_inner w w p)
           * (Rabs (vertical_coef v p w) * sqrt (fb_inner w w p)))
    with ((Rabs (vertical_coef v p w) * Rabs (vertical_coef v p w))
          * (sqrt (fb_inner w w p) * sqrt (fb_inner w w p))) by ring.
  rewrite sqrt_sqrt, <- Rabs_mult, Rabs_right by (lra || apply Rle_ge, Rle_0_sqr).
  ring.
Qed.

(** A vector is horizontal (no vertical part: every returned norm is
    zero) exactly when it is orthogonal to every vertical direction. *)
Lemma vertical_norms_zero_iff (v p : list R) :
  Forall (fun r => r = 0) (vertical_norms v p)
  <-> Forall (fun w => fb_inner v w p = 0) (fb_vertical_dirs p).
Proof.
  unfold vertical_norms. rewrite Forall_map, !Forall_forall.
  split; intros Hz w Hw; specialize (Hz w Hw); pose proof (dirs_pos p w Hw);
    pose proof (sqrt_lt_R0 _ H1); rewrite <- (coef_times_norm v p w Hw) in *.
  - apply Rmult_integral in Hz as [Hz|Hz]; [|lra].
    destruct (Req_dec (vertical_coef v p w) 0) as [Hc|Hc]; [rewrite Hc; ring|].
    exfalso. exact (Rabs_no_R0 _ Hc Hz).
  - apply Rmult_integral in Hz as [Hz|Hz]; [|lra]. rewrite Hz, Rabs_R0. ring.
Qed.

(** Scaling the tangent vector scales the returned norms. *)
Lemma vertical_norms_scale (c : R) (v p : list R) :
  vertical_norms (vscale c v) p = map (Rmult (Rabs c)) (vertical_norms v p).
Proof.
  unfold vertical_norms, vertical_coef. rewrite map_map. apply map_ext. intros w.
  rewrite inner_scale_l. unfold Rdiv. rewrite Rmult_assoc, Rabs_mult. ring.
Qed.

(** The horizontal geodesic starts at the initial point and ends at an
    aligned representative of the end point: the end point after
    [n + 1] alignments, [n] within the budget, where either the
    alignment had converged or the budget was spent. *)
Lemma length_nth_align (p q : list R) (n : nat) :
  length q = fb_dim -> length (nth_iterate (fb_align p) n q) = fb_dim.
Proof.
  intros Hq. induction n as [|n IH]; [exact Hq|].
  unfold nth_iterate in *. rewrite Nat.iter_succ. now apply align_length.
Qed.

Lemma horizontal_geodesic_ends (p q : list R) (threshold : R) :
  length p = fb_dim -> length q = fb_dim ->
  horizontal_geodesic p q threshold 0 = p
  /\ exists n, (n <= fb_max_iter)%nat
     /\ horizontal_geodesic p q threshold 1 = nth_iterate (fb_align p) (S n) q
     /\ (alignment_converged p threshold (nth_iterate (fb_align p) n q) = true
         \/ n = fb_max_iter).
Proof.
  intros Hp Hq. unfold horizontal_geodesic, aligned_end_point.
  pose proof (iterate_until_spec (alignment_converged p threshold) (fb_align p) fb_max_iter q) as Hs.
  destruct (iterate_until _ _ fb_max_iter q) as [y n]. destruct Hs as (-> & Hn & _ & Hend).
  cbn [fst]. assert (Hl : length (fb_align p (nth_iterate (fb_align p) n q)) = fb_dim)
    by (apply align_length, length_nth_align, Hq).
  rewrite geodesic_at_0, geodesic_at_1 by assumption. split; [reflexivity|].
  exists n. split; [exact Hn | split; [|exact Hend]].
  unfold nth_iterate. now rewrite Nat.iter_succ.
Qed.
End Laws.

(** ** Convergence of the alignment when it contracts *)
Section Alignment.
Context `{FiberBundle}.
Variables (p : list R) (c threshold : R).
Hypothesis gap_nonneg : forall q q', 0 <= fb_gap q q'.
Hypothesis c_range : 0 <= c < 1.
Hypothesis threshold_pos : 0 < threshold.
Hypothesis align_contracts : forall q,
  fb_gap (fb_align p q) (fb_align p (fb_align p q)) <= c * fb_gap q (fb_align p q).

(** When each alignment shrinks the change of the next by the factor
    [c < 1], there is a budget [N] beyond which the alignment always
    converges, within [N] steps, to an end point whose next alignment
    changes it by less than [threshold]. *)
Lemma aligned_end_point_converges (q : list R) :
  exists N, forall max_iter, (N < max_iter)%nat ->
    exists k, (k <= N)%nat
      /\ aligned_end_point p q threshold max_iter = nth_iterate (fb_align p) (S k) q
      /\ fb_gap (nth_iterate (fb_align p) k q) (nth_iterate (fb_align p) (S k) q) < threshold.
Proof.
  destruct (iterate_until_converges (alignment_converged p threshold) (fb_align p)
              (fun q => fb_gap q (fb_align p q)) c threshold) with (x := q) as [N HN];
    [intros; apply gap_nonneg | exact c_range | exact threshold_pos | exact align_contracts
    | intros x Hx; unfold alignment_converged; now destruct (Rlt_dec _ _) |].
  exists N. intros m Hm. destruct (HN m Hm) as [Hstop Hle].
  pose proof (iterate_until_spec (alignment_converged p threshold) (fb_align p) m q) as Hs.
  unfold aligned_end_point. destruct (iterate_until _ _ m q) as [y n].
  cbn [fst snd] in *. destruct Hs as (-> & _ & _ & _).
  exists n. split; [exact Hle|]. unfold nth_iterate at 2. rewrite Nat.iter_succ. split; [reflexivity|].
  unfold alignment_converged in Hstop. destruct (Rlt_dec _ _) as [Hlt|]; [exact Hlt | discriminate].
Qed.
End Alignment.

End ShapeBundle.

(** ** A lawful bundle: the plane with a one-dimensional vertical space

    The Euclidean inner product of flat buffers, the first axis as the
    vertical direction (the orbit of a point is the line along it),
    straight lines as geodesics, and as alignment the point of the orbit
    of [q] nearest to [p].  The examples of the test cases run on it. *)

Definition dot (u v : list R) : R := rsum (zip_with Rmult u v).

Lemma dot_sym (u v : list R) : dot u v = dot v u.
Proof. unfold dot. f_equal. rewrite zip_with_flip. apply zip_with_ext_in. intros; ring. Qed.

Lemma dot_add_l (u v w : list R) :
  length u = length v -> dot (vadd u v) w = dot u w + dot v w.
Proof.
  unfold dot, rsum, vadd. revert v w. induction u as [|x u IH]; intros [|y v] [|z w] Hl;
    cbn in *; try lia; try ring. rewrite IH by lia. ring.
Qed.

Lemma dot_scale_l (c : R) (u w : list R) : dot (vscale c u) w = c * dot u w.
Proof.
  unfold dot, rsum, vscale. revert w. induction u as [|x u IH]; intros [|z w]; cbn; try ring.
  rewrite IH. ring.
Qed.

Lemma vadd_vscale_01 (p q : list R) :
  length p = length q -> vadd (vscale (1 - 0) p) (vscale 0 q) = p /\ vadd (vscale (1 - 1) p) (vscale 1 q) = q.
Proof.
  unfold vadd, vscale. revert q. induction p as [|x p IH]; intros [|y q] Hl; cbn in *; try lia; [tauto|].
  destruct (IH q) as [H0 H1]; [lia|]. rewrite H0, H1. split; f_equal; ring.
Qed.

#[export] Instance Plane_bundle : FiberBundle := {|
  fb_dim := 2;
  fb_inner := fun u v _ => dot u v;
  fb_vertical_dirs := fun _ => [[1; 0]];
  fb_geodesic := fun p q t => vadd (vscale (1 - t) p) (vscale t q);
  fb_align := fun p q => [hd 0 p; nth 1 q 0];
  fb_gap := fun q q' => dot (vsub q q') (vsub q q');
  fb_max_iter := 20;
  fb_threshold := / 1000
|}.

#[export] Instance Plane_bundle_laws : FiberBundleLaws.
Proof.
  split; cbn.
  - intros; apply dot_sym.
  - intros u v w _ Hu Hv. apply dot_add_l. congruence.
  - intros; apply dot_scale_l.
  - intros _ w [<- | []]. reflexivity.
  - intros _ w [<- | []]. unfold dot, rsum. cbn. lra.
  - intros _. repeat constructor.
  - reflexivity.
  - intros p q Hp Hq. apply vadd_vscale_01. congruence.
  - intros p q Hp Hq. apply vadd_vscale_01. congruence.
Qed.
