(* ===== verification/ClosedCurves.v ===== *)
(** * The closed-curve space and its projector

    [ClosedDiscreteCurves] is not under [src/]; its test cases are.  This
    file models, from the specification (section 4.5), what those tests
    read of it: the ambient manifold and the number of sampling points
    ([ClosedDiscreteCurves]), and [srv_projection], the iterative solver
    that corrects an SRV representation until its closure violation is
    below [atol] or [max_iter] corrections were made.  The violation and
    the correction step are the interface [ClosedCurveProjector]; a batch
    is projected element by element (specification, section 5: batch
    operations are independent per element).  The lemmas give the result
    of the solver on every branch and its convergence when the correction
    contracts the violation. *)

From Stdlib Require Import Arith Lia List Reals Lra.
From S2P Require Import Prelude Iteration FiberBundle.
Import ListNotations.
Local Open Scope R_scope.

(** The ambient manifolds the test data use. *)
Inductive AmbientManifold : Type :=
| Euclidean (dim : nat)
| Hypersphere (dim : nat)
| OtherManifold (dim : nat).

Definition ambient_dim (m : AmbientManifold) : nat :=
  match m with
  | Euclidean d => d
  | Hypersphere d => S d
  | OtherManifold d => d
  end.

Record ClosedDiscreteCurves : Type := mk_closed_discrete_curves {
  ambient_manifold : AmbientManifold;
  k_sampling_points : nat
}.

(** The flat size of a discretised curve: [k_sampling_points] points of
    the ambient space. *)
Definition curve_size (space : ClosedDiscreteCurves) : nat :=
  k_sampling_points space * ambient_dim (ambient_manifold space).

Class ClosedCurveProjector : Type := {
  closure_violation : list R -> R;      (* how far the curve is from closing up *)
  closure_correction : list R -> list R (* one correction step *)
}.

Module ClosedDiscreteCurves.
Section Projection.
Context `{ClosedCurveProjector}.

Definition closed_within (atol : R) (srv : list R) : bool :=
  if Rlt_dec (closure_violation srv) atol then true else false.

(** [srv_projection(srv, atol, max_iter)] on one SRV representation. *)
Definition srv_projection (srv : list R) (atol : R) (max_iter : nat) : list R :=
  fst (iterate_until (closed_within atol) closure_correction max_iter srv).

(** [srv_projection] on a batch, element by element. *)
Definition srv_projection_batch (srv : list (list R)) (atol : R) (max_iter : nat) : list (list R) :=
  map (fun s => srv_projection s atol max_iter) srv.

(** The solver returns the SRV corrected [n] times, [n] within the
    budget, no earlier iterate being closed within [atol]; either its
    result is closed within [atol] or the whole budget was spent, and
    nothing in the result says which. *)
Lemma srv_projection_spec (srv : list R) (atol : R) (max_iter : nat) :
  exists n, (n <= max_iter)%nat
    /\ srv_projection srv atol max_iter = nth_iterate closure_correction n srv
    /\ (forall i, (i < n)%nat -> atol <= closure_violation (nth_iterate closure_correction i srv))
    /\ (closure_violation (srv_projection srv atol max_iter) < atol \/ n = max_iter).
Proof.
  pose proof (iterate_until_spec (closed_within atol) closure_correction max_iter srv) as Hs.
  unfold srv_projection. destruct (iterate_until _ _ max_iter srv) as [y n].
  destruct Hs as (-> & Hn & Hpre & Hend). exists n. cbn [fst].
  split; [exact Hn | split; [reflexivity | split]].
  - intros i Hi. specialize (Hpre i Hi). unfold closed_within in Hpre.
    destruct (Rlt_dec _ _); [discriminate | lra].
  - destruct Hend as [Hc | ->]; [left | now right].
    unfold closed_within in Hc. now destruct (Rlt_dec _ _).
Qed.

(** When the correction shrinks the violation by a factor [c < 1],
    there is a budget [N] beyond which the projection is the SRV
    corrected at most [N] times and closed within [atol]. *)
Lemma srv_projection_converges (c atol : R) (srv : list R) :
  (forall s, 0 <= closure_violation s) -> 0 <= c < 1 -> 0 < atol ->
  (forall s, closure_violation (closure_correction s) <= c * closure_violation s) ->
  exists N, forall max_iter, (N < max_iter)%nat ->
    exists n, (n <= N)%nat
      /\ srv_projection srv atol max_iter = nth_iterate closure_correction n srv
      /\ closure_violation (srv_projection srv atol max_iter) < atol.
Proof.
  intros Hnn Hc Ha Hcontr.
  destruct (iterate_until_converges (closed_within atol) closure_correction
              closure_violation c atol Hnn Hc Ha Hcontr) with (x := srv) as [N HN].
  { intros s Hs. unfold closed_within. now destruct (Rlt_dec _ _). }
  exists N. intros m Hm. destruct (HN m Hm) as [Hstop Hle].
  pose proof (iterate_until_spec (closed_within atol) closure_correction m srv) as Hs.
  unfold srv_projection. destruct (iterate_until _ _ m srv) as [y n].
  destruct Hs as (-> & _). cbn [fst snd] in *. exists n. split; [exact Hle | split; [reflexivity|]].
  unfold closed_within in Hstop. destruct (Rlt_dec _ _); [assumption | discriminate].
Qed.
End Projection.
End ClosedDiscreteCurves.

(** ** A projector for the examples: the violation is the absolute sum
    of the entries, and a correction halves the representation. *)
#[export] Instance Halving_projector : ClosedCurveProjector := {|
  closure_violation := fun s => Rabs (rsum s);
  closure_correction := vscale (/ 2)
|}.

Lemma rsum_vscale (c : R) (s : list R) : rsum (vscale c s) = c * rsum s.
Proof.
  induction s as [|x s IH]; [cbn; ring|].
  change (c * x + rsum (vscale c s) = c * (x + rsum s)). rewrite IH. ring.
Qed.
