(* ===== verification/DiscreteCurvesTests.v ===== *)
(** * The test cases of the discrete-curves shape space

    [src/geomstats/test_cases/geometry/discrete_curves.py] holds two
    test-case classes; each test method is modelled here as a function
    from its arguments (and the state of the random generator, threaded
    explicitly) to an [outcome]: [Passed], [Failed] (an assertion does
    not hold), [Raised] (an exception) or [Skipped] (a skip mark).  A method that
    [return]s early has passed.  [assertAllClose] is numpy's [assert_allclose] with
    geomstats' default [rtol]; [_test_vectorization] is the harness's
    vectorization check.

    - Module [ClosedDiscreteCurvesTestCase] ([ClosedDiscreteCurvesTestCase]):
      [_get_srv_point], [_is_planar] and the tests of the projection on
      closed curves, over a [ClosedDiscreteCurves] space and a
      [ClosedCurveProjector] ([ClosedCurves]).  The tests it inherits
      from [LevelSetTestCase] and the space's own sampler and projection,
      which are not in the repository, are section variables.
    - Module [SRVShapeBundleTestCase] ([SRVShapeBundleTestCase]): the
      test-case state (its optional [data_generator] and
      [n_discretized_curves] attributes), [setup_method], and the tests
      of the horizontal and vertical projections and of the horizontal
      geodesic, over any [FiberBundle] ([FiberBundle]).

    The theorems show what the tests check of their arguments: the
    horizontal-derivative test ignores its [n_times], compares 19
    residuals, scales its velocities by 20 where its samples are 1/19
    apart, and refuses more than one point before drawing; the tests
    guarded by [_is_planar] pass without testing off the plane. *)

From Stdlib Require Import String Arith Lia Bool List Reals Lra.
From S2P Require Import Prelude Tensor Manifold Iteration FiberBundle ClosedCurves.
Import ListNotations.
Local Open Scope R_scope.

(** ** The test harness *)

Inductive outcome : Type :=
| Passed
| Failed
| Raised (e : error)
| Skipped.

(** [gs.rtol], the default relative tolerance of [assertAllClose]. *)
Definition gs_rtol : R := / 100000.

(** numpy's closeness test of one entry: [|a - b| <= atol + rtol * |b|]. *)
Definition close_entry (rtol atol a b : R) : bool :=
  if Rle_dec (Rabs (a - b)) (atol + rtol * Rabs b) then true else false.

(** [self.assertAllClose(actual, desired, atol=atol)] on flat buffers:
    the shapes must agree and every entry be close. *)
Definition assertAllClose (actual desired : list R) (atol : R) : outcome :=
  if Nat.eqb (length actual) (length desired)
     && forallb (fun ab => close_entry gs_rtol atol (fst ab) (snd ab)) (combine actual desired)
  then Passed else Failed.

(** [gs.linspace(start, stop, num)]. *)
Definition linspace (start stop : R) (num : nat) : list R :=
  map (fun i => start + INR i * ((stop - start) / INR (num - 1))) (seq 0 num).

(** [generate_vectorization_data] followed by [_test_vectorization]: the
    method is checked on the datum and on the datum repeated [n_reps]
    times along a new batch axis, against the expected value repeated. *)
Definition _test_vectorization {A : Type} (f : list A -> list (list R)) (arg : list A)
    (expected : list (list R)) (n_reps : nat) (atol : R) : outcome :=
  match assertAllClose (concat (f arg)) (concat expected) atol with
  | Passed => assertAllClose (concat (f (concat (repeat arg n_reps))))
                             (concat (concat (repeat expected n_reps))) atol
  | o => o
  end.

Lemma close_entry_refl (atol a : R) : 0 <= atol -> close_entry gs_rtol atol a a = true.
Proof.
  intros Ha. unfold close_entry. destruct (Rle_dec _ _) as [|Hn]; [reflexivity|].
  exfalso. apply Hn. unfold Rminus. rewrite Rplus_opp_r, Rabs_R0.
  pose proof (Rabs_pos a). unfold gs_rtol. apply Rplus_le_le_0_compat; [exact Ha|].
  apply Rmult_le_pos; [left; apply Rinv_0_lt_compat; lra | exact H].
Qed.

(** A buffer is close to itself, for every non-negative [atol]. *)
Lemma assertAllClose_refl (l : list R) (atol : R) : 0 <= atol -> assertAllClose l l atol = Passed.
Proof.
  intros Ha. unfold assertAllClose. rewrite Nat.eqb_refl. cbn [andb].
  replace (forallb _ (combine l l)) with true; [reflexivity|].
  symmetry. apply forallb_forall. intros [x y] Hxy.
  pose proof (in_combine_l _ _ _ _ Hxy) as Hx. pose proof (in_combine_r _ _ _ _ Hxy) as Hy.
  induction l as [|a l IH]; [destruct Hxy|]. destruct Hxy as [Heq | Hin].
  - injection Heq as <- <-. now apply close_entry_refl.
  - apply IH; auto; [eapply in_combine_l | eapply in_combine_r]; exact Hin.
Qed.

(** A buffer of zeros passes against [gs.zeros]. *)
Lemma assertAllClose_zeros (l : list R) (atol : R) :
  0 <= atol -> Forall (fun r => r = 0) l -> assertAllClose l (repeat 0 (length l)) atol = Passed.
Proof.
  intros Ha Hz. replace (repeat 0 (length l)) with l; [now apply assertAllClose_refl|].
  induction Hz as [|x l -> _ IH]; cbn; congruence.
Qed.

(** The vectorization check passes for a method that acts element by
    element, when the expected value is the method's own answer. *)
Lemma test_vectorization_elementwise {A : Type} (g : A -> list R) (arg : list A)
    (n_reps : nat) (atol : R) :
  0 <= atol -> _test_vectorization (map g) arg (map g arg) n_reps atol = Passed.
Proof.
  intros Ha. unfold _test_vectorization. rewrite assertAllClose_refl by exact Ha.
  rewrite map_concat_repeat. now apply assertAllClose_refl.
Qed.

(** [k] draws of [n] entries each. *)
Definition draw_blocks (k n : nat) (st : rng R) : list (list R) * rng R :=
  let '(xs, st') := rand (k * n) st in (chunk k n xs, st').

Lemma draw_blocks_spec (k n : nat) (st : rng R) :
  length (fst (draw_blocks k n st)) = k /\ Forall (fun v => length v = n) (fst (draw_blocks k n st)).
Proof.
  unfold draw_blocks. pose proof (length_rand (k * n) st) as Hl.
  destruct (rand _ st) as [xs st']. cbn [fst] in *. split; [apply length_chunk|].
  apply chunk_blocks_length. rewrite Hl. apply Nat.le_refl.
Qed.

(** [DiscreteCurves(ambient_manifold, k_sampling_points).random_point(n)]
    (not in the repository): [n] curves of [k_sampling_points] points of
    the ambient space, drawn from the generator. *)
Definition discrete_curves_random_point (ambient : AmbientManifold) (k : nat) (n_points : nat)
    (st : rng R) : list (list R) * rng R :=
  draw_blocks n_points (k * ambient_dim ambient) st.

Module ClosedDiscreteCurvesTestCase.
Section TestCase.
Context `{ClosedCurveProjector}.
Variable space : ClosedDiscreteCurves.
(** The tests of [LevelSetTestCase] that the guarded tests delegate to. *)
Variable level_set_test_projection_vec : nat -> R -> outcome.
Variable level_set_test_projection_belongs : nat -> R -> rng R -> outcome * rng R.
(** The space's [random_point] and [projection]. *)
Variable space_random_point : nat -> rng R -> list (list R) * rng R.
Variable space_projection : list R -> list R.

Definition _get_srv_point (n_points : nat) (st : rng R) : list (list R) * rng R :=
  discrete_curves_random_point (ambient_manifold space) (k_sampling_points space) n_points st.

Definition _is_planar : bool :=
  match ambient_manifold space with
  | Euclidean dim => Nat.eqb dim 2
  | _ => false
  end.

Definition test_projection_vec (n_reps : nat) (atol : R) : outcome :=
  if negb _is_planar then Passed
  else level_set_test_projection_vec n_reps atol.

Definition test_projection_belongs (n_points : nat) (atol : R) (st : rng R) : outcome * rng R :=
  if negb _is_planar then (Passed, st)
  else level_set_test_projection_belongs n_points atol st.

Definition test_srv_projection (srv expected : list (list R)) (atol : R) (max_iter : nat) : outcome :=
  let res := ClosedDiscreteCurves.srv_projection_batch srv atol max_iter in
  assertAllClose (concat res) (concat expected) atol.

Definition test_srv_projection_vec (n_reps : nat) (atol : R) (max_iter : nat) (st : rng R)
    : outcome * rng R :=
  if negb _is_planar then (Passed, st)
  else
    let '(srv, st') := _get_srv_point 1 st in
    let expected := ClosedDiscreteCurves.srv_projection_batch srv atol max_iter in
    (_test_vectorization (fun s => ClosedDiscreteCurves.srv_projection_batch s atol max_iter)
       srv expected n_reps atol, st').

Definition test_projection_is_itself (n_points : nat) (atol : R) (st : rng R) : outcome * rng R :=
  if negb _is_planar then (Passed, st)
  else
    let '(point, st') := space_random_point n_points st in
    let proj_point := map space_projection point in
    (assertAllClose (concat proj_point) (concat point) atol, st').

(** [point[..., 0, :]] and [point[..., -1, :]]: the first and the last
    sampling point of each curve. *)
Definition test_random_point_is_closed (n_points : nat) (atol : R) (st : rng R) : outcome * rng R :=
  let '(point, st') := space_random_point n_points st in
  let d := ambient_dim (ambient_manifold space) in
  (assertAllClose (concat (map (firstn d) point))
                  (concat (map (fun c => skipn (length c - d) c) point)) atol, st').

(** The four tests guarded by [_is_planar] return before testing
    anything on a space that is not the plane: they pass, and draw
    nothing from the generator, whatever the code they should exercise
    does. *)
Lemma guarded_tests_pass_off_plane (n : nat) (atol : R) (max_iter : nat) (st : rng R) :
  _is_planar = false ->
  test_projection_vec n atol = Passed
  /\ test_projection_belongs n atol st = (Passed, st)
  /\ test_srv_projection_vec n atol max_iter st = (Passed, st)
  /\ test_projection_is_itself n atol st = (Passed, st).
Proof.
  intros Hp. unfold test_projection_vec, test_projection_belongs, test_srv_projection_vec,
    test_projection_is_itself. now rewrite Hp.
Qed.

(** [test_srv_projection_vec] passes on every space and for every
    budget: the batched projection of the repeated SRV is the repeated
    projection. *)
Lemma test_srv_projection_vec_passes (n_reps : nat) (atol : R) (max_iter : nat) (st : rng R) :
  0 <= atol -> fst (test_srv_projection_vec n_reps atol max_iter st) = Passed.
Proof.
  intros Ha. unfold test_srv_projection_vec. destruct (negb _is_planar); [reflexivity|].
  destruct (_get_srv_point 1 st) as [srv st']. cbn [fst].
  unfold ClosedDiscreteCurves.srv_projection_batch. now apply test_vectorization_elementwise.
Qed.
End TestCase.
End ClosedDiscreteCurvesTestCase.

(** [ShapeBundleRandomDataGenerator(total_space, sphere,
    n_discretized_curves)] (not in the repository): its [random_point]
    draws [n_points] flat curves of the total space, [random_tangent_vec]
    one tangent vector per base point. *)
Record DataGenerator : Type := ShapeBundleRandomDataGenerator {
  n_discretized_curves : nat
}.

Section DataGeneration.
Context `{FiberBundle}.

Definition dg_random_point (dg : DataGenerator) (n_points : nat) (st : rng R)
    : list (list R) * rng R :=
  draw_blocks n_points fb_dim st.

Definition dg_random_tangent_vec (dg : DataGenerator) (base_point : list (list R)) (st : rng R)
    : list (list R) * rng R :=
  draw_blocks (length base_point) fb_dim st.
End DataGeneration.

Module SRVShapeBundleTestCase.

(** The attributes of the test-case object that the methods read. *)
Record TestCase : Type := mk_test_case {
  data_generator : option DataGenerator;
  n_discretized_curves_attr : option nat
}.

(** [setup_method]: create the data generator unless there is one, with
    [n_discretized_curves] from the attribute, 5 without it. *)
Definition setup_method (self : TestCase) : TestCase :=
  match data_generator self with
  | Some _ => self
  | None =>
      let n_discretized_curves :=
        match n_discretized_curves_attr self with Some n => n | None => 5%nat end in
      {| data_generator := Some (ShapeBundleRandomDataGenerator n_discretized_curves);
         n_discretized_curves_attr := n_discretized_curves_attr self |}
  end.

(** Reading [self.data_generator] before it is set. *)
Definition no_data_generator : error := AttributeError "data_generator".

Section Tests.
Context `{FiberBundle}.

Definition test_tangent_vector_projections_orthogonality_with_metric
    (self : TestCase) (n_points : nat) (atol : R) (st : rng R) : outcome * rng R :=
  match data_generator self with
  | None => (Raised no_data_generator, st)
  | Some dg =>
      let '(base_point, st1) := dg_random_point dg n_points st in
      let '(tangent_vec, st2) := dg_random_tangent_vec dg base_point st1 in
      let tangent_vec_hor := zip_with ShapeBundle.horizontal_projection tangent_vec base_point in
      let tangent_vec_ver := zip_with ShapeBundle.vertical_projection tangent_vec base_point in
      let res := zip_with3 fb_inner tangent_vec_hor tangent_vec_ver base_point in
      let expected := repeat 0 (length base_point) in
      (assertAllClose res expected atol, st2)
  end.

Definition test_horizontal_geodesic (initial_point end_point : list R) (times : list R)
    (expected : list (list R)) (atol threshold : R) : outcome :=
  let res := map (ShapeBundle.horizontal_geodesic initial_point end_point threshold) times in
  assertAllClose (concat res) (concat expected) atol.

(** [random_point()]: one point, without batch axis. *)
Definition dg_random_point_single (dg : DataGenerator) (st : rng R) : list R * rng R :=
  let '(pts, st') := dg_random_point dg 1 st in (hd [] pts, st').

Definition test_horizontal_geodesic_vec (self : TestCase) (n_reps n_times : nat) (atol : R)
    (st : rng R) : outcome * rng R :=
  let times := linspace 0 1 n_times in
  match data_generator self with
  | None => (Raised no_data_generator, st)
  | Some dg =>
      let '(initial_point, st1) := dg_random_point_single dg st in
      let '(end_point, st2) := dg_random_point_single dg st1 in
      let geodesic_at_times := fun '(p, q) =>
        concat (map (ShapeBundle.horizontal_geodesic p q fb_threshold) times) in
      let expected := geodesic_at_times (initial_point, end_point) in
      (_test_vectorization (map geodesic_at_times) [(initial_point, end_point)] [expected]
         n_reps atol, st2)
  end.

(** [velocity_vec = factor * (horizontal_geo[1:] - horizontal_geo[:-1])],
    its vertical norms at [horizontal_geo[:-1]], and
    [gs.sum(vertical_norms**2, axis=1) ** (1 / 2)]. *)
Definition finite_difference_residuals (factor : R) (horizontal_geo : list (list R)) : list R :=
  let velocity_vec := map (vscale factor) (zip_with vsub (tl horizontal_geo) (removelast horizontal_geo)) in
  let vertical_norms := zip_with ShapeBundle.vertical_norms velocity_vec (removelast horizontal_geo) in
  map (fun ns => sqrt (rsum (map (fun r => r * r) ns))) vertical_norms.

Definition test_horizontal_geodesic_has_horizontal_derivative (self : TestCase)
    (n_points n_times : nat) (atol : R) (st : rng R) : outcome * rng R :=
  if Nat.ltb 1 n_points then (Raised (NotImplementedError "Not implemented for n_points > 1"), st)
  else
    match data_generator self with
    | None => (Raised no_data_generator, st)
    | Some dg =>
        let '(initial_point, st1) := dg_random_point dg n_points st in
        let '(end_point, st2) := dg_random_point dg n_points st1 in
        match initial_point, end_point with
        | [p], [q] =>
            let hor_geo_fun := ShapeBundle.horizontal_geodesic p q fb_threshold in
            let n_times := 20%nat in
            let times := linspace 0 1 n_times in
            let horizontal_geo := map hor_geo_fun times in
            let res := finite_difference_residuals (INR n_times) horizontal_geo in
            let expected := repeat 0 (n_times - 1) in
            (assertAllClose res expected atol, st2)
        | _, _ => (Failed, st2)
        end
    end.
End Tests.

(** With no point ([n_points = 0]) the arrays are empty and the
    comparison with [n_times - 1] zeros fails on the shapes: the last
    branch above. *)

Section Laws.
Context `{FiberBundleLaws}.

Lemma finite_difference_residuals_cons (c : R) (a b : list R) (rest : list (list R)) :
  finite_difference_residuals c (a :: b :: rest)
  = sqrt (rsum (map (fun r => r * r) (ShapeBundle.vertical_norms (vscale c (vsub b a)) a)))
    :: finite_difference_residuals c (b :: rest).
Proof. reflexivity. Qed.

Lemma length_finite_difference_residuals (c : R) (hg : list (list R)) :
  length (finite_difference_residuals c hg) = (length hg - 1)%nat.
Proof.
  induction hg as [|a [|b rest] IH]; [reflexivity | reflexivity |].
  rewrite finite_difference_residuals_cons. cbn [length] in *. rewrite IH. lia.
Qed.

Lemma rsum_squares_scale (k : R) (ns : list R) :
  rsum (map (fun r => r * r) (map (Rmult k) ns)) = (k * k) * rsum (map (fun r => r * r) ns).
Proof.
  induction ns as [|x ns IH]; [cbn; ring|].
  change ((k * x) * (k * x) + rsum (map (fun r => r * r) (map (Rmult k) ns))
          = k * k * (x * x + rsum (map (fun r => r * r) ns))).
  rewrite IH. ring.
Qed.

Lemma rsum_squares_nonneg (ns : list R) : 0 <= rsum (map (fun r => r * r) ns).
Proof.
  induction ns as [|x ns IH]; [cbn; lra|].
  change (0 <= x * x + rsum (map (fun r => r * r) ns)). pose proof (Rle_0_sqr x). unfold Rsqr in *. lra.
Qed.

(** Scaling the velocities by [a] scales the residuals by [|a|]. *)
Lemma finite_difference_residuals_scale (a b : R) (hg : list (list R)) :
  finite_difference_residuals (a * b) hg = map (Rmult (Rabs a)) (finite_difference_residuals b hg).
Proof.
  induction hg as [|x [|y rest] IH]; [reflexivity | reflexivity |].
  rewrite !finite_difference_residuals_cons, IH. cbn [map]. f_equal.
  replace (vscale (a * b) (vsub y x)) with (vscale a (vscale b (vsub y x)))
    by (unfold vscale; rewrite map_map; apply map_ext; intros; ring).
  rewrite ShapeBundle.vertical_norms_scale, rsum_squares_scale, sqrt_mult
    by (apply Rle_0_sqr || apply rsum_squares_nonneg).
  f_equal. apply sqrt_square, Rabs_pos.
Qed.

Lemma dg_random_point_one (dg : DataGenerator) (st : rng R) :
  exists p st', dg_random_point dg 1 st = ([p], st') /\ length p = fb_dim.
Proof.
  pose proof (draw_blocks_spec 1 fb_dim st) as [Hl Hf]. unfold dg_random_point.
  destruct (draw_blocks 1 fb_dim st) as [[|p [|]] st']; cbn in Hl; try lia.
  exists p, st'. split; [reflexivity|]. now inversion Hf.
Qed.

Lemma length_linspace (a b : R) (n : nat) : length (linspace a b n) = n.
Proof. unfold linspace. now rewrite length_map, length_seq. Qed.

(** On one point, the horizontal-derivative test draws the two end
    points and compares the residuals of the 20 samples with 19 zeros,
    whatever [n_times] it was given. *)
Lemma horizontal_derivative_one_point (self : TestCase) (dg : DataGenerator)
    (n_times : nat) (atol : R) (st : rng R) :
  data_generator self = Some dg ->
  exists p q st', length p = fb_dim /\ length q = fb_dim
    /\ test_horizontal_geodesic_has_horizontal_derivative self 1 n_times atol st
       = (assertAllClose (finite_difference_residuals (INR 20)
            (map (ShapeBundle.horizontal_geodesic p q fb_threshold) (linspace 0 1 20)))
            (repeat 0 19) atol, st').
Proof.
  intros Hdg. unfold test_horizontal_geodesic_has_horizontal_derivative. rewrite Hdg.
  cbn [Nat.ltb Nat.leb negb].
  destruct (dg_random_point_one dg st) as (p & st1 & -> & Hp).
  destruct (dg_random_point_one dg st1) as (q & st2 & -> & Hq).
  now exists p, q, st2.
Qed.

Lemma linspace_nth (a b : R) (n i : nat) :
  (i < n)%nat -> nth i (linspace a b n) 0 = a + INR i * ((b - a) / INR (n - 1)).
Proof.
  intros Hi. unfold linspace.
  pose proof (map_nth (fun j => a + INR j * ((b - a) / INR (n - 1))) (seq 0 n) 0%nat i) as Hm.
  rewrite seq_nth in Hm by exact Hi. rewrite Nat.add_0_l in Hm. rewrite <- Hm.
  apply nth_indep. now rewrite length_map, length_seq.
Qed.

(** C13. [test_horizontal_geodesic_has_horizontal_derivative] raises
    [NotImplementedError] on more than one point, before reading the
    data generator and without drawing. *)
Theorem horizontal_derivative_many_points_raises (self : TestCase) (n_points n_times : nat)
    (atol : R) (st : rng R) :
  (1 < n_points)%nat ->
  test_horizontal_geodesic_has_horizontal_derivative self n_points n_times atol st
  = (Raised (NotImplementedError "Not implemented for n_points > 1"), st).
Proof.
  intros Hn. unfold test_horizontal_geodesic_has_horizontal_derivative.
  apply Nat.ltb_lt in Hn. now rewrite Hn.
Qed.

(** C12. On one point the horizontal-derivative test compares 19
    residuals with [gs.zeros(19)], the shapes agreeing, for every
    [n_times] argument: the argument is overwritten by 20. *)
Theorem horizontal_derivative_residual_shape (self : TestCase) (dg : DataGenerator)
    (n_times : nat) (atol : R) (st : rng R) :
  data_generator self = Some dg ->
  exists p q st', length p = fb_dim /\ length q = fb_dim
    /\ test_horizontal_geodesic_has_horizontal_derivative self 1 n_times atol st
       = (assertAllClose (finite_difference_residuals (INR 20)
            (map (ShapeBundle.horizontal_geodesic p q fb_threshold) (linspace 0 1 20)))
            (repeat 0 19) atol, st')
    /\ length (finite_difference_residuals (INR 20)
            (map (ShapeBundle.horizontal_geodesic p q fb_threshold) (linspace 0 1 20))) = 19%nat.
Proof.
  intros Hdg. destruct (horizontal_derivative_one_point self dg n_times atol st Hdg)
    as (p & q & st' & Hp & Hq & Heq).
  exists p, q, st'. split; [exact Hp | split; [exact Hq | split; [exact Heq |]]].
  now rewrite length_finite_difference_residuals, length_map, length_linspace.
Qed.

(** C11. On one point, the horizontal-derivative test compares with
    zero [20/19] times the residuals of the difference quotients of
    its samples: the samples of [gs.linspace(0, 1, 20)] are evenly
    spaced [1/19] apart, the velocities are [n_times = 20] times their
    differences instead of [19] times. *)
Theorem horizontal_derivative_velocity_factor (self : TestCase) (dg : DataGenerator)
    (n_times : nat) (atol : R) (st : rng R) :
  data_generator self = Some dg ->
  exists p q st',
    test_horizontal_geodesic_has_horizontal_derivative self 1 n_times atol st
    = (assertAllClose (map (Rmult (20 / 19))
         (finite_difference_residuals (/ (nth 1 (linspace 0 1 20) 0 - nth 0 (linspace 0 1 20) 0))
            (map (ShapeBundle.horizontal_geodesic p q fb_threshold) (linspace 0 1 20))))
         (repeat 0 19) atol, st')
    /\ forall i, (i < 19)%nat ->
         nth (S i) (linspace 0 1 20) 0 - nth i (linspace 0 1 20) 0
         = nth 1 (linspace 0 1 20) 0 - nth 0 (linspace 0 1 20) 0.
Proof.
  intros Hdg. assert (H19 : INR 19 = 19) by (cbn; ring). assert (H20 : INR 20 = 20) by (cbn; ring).
  assert (Hsp : forall i, (i < 19)%nat -> nth (S i) (linspace 0 1 20) 0 - nth i (linspace 0 1 20) 0 = 1 / 19).
  { intros i Hi. rewrite !linspace_nth by lia. change (20 - 1)%nat with 19%nat.
    rewrite S_INR, H19. field. }
  destruct (horizontal_derivative_one_point self dg n_times atol st Hdg) as (p & q & st' & _ & _ & ->).
  exists p, q, st'. split.
  - rewrite (Hsp 0%nat) by lia. replace (/ (1 / 19)) with (INR 19) by (rewrite H19; field).
    replace (INR 20) with (20 / 19 * INR 19) by (rewrite H19, H20; field).
    rewrite finite_difference_residuals_scale, Rabs_right by lra. reflexivity.
  - intros i Hi. rewrite (Hsp i Hi), (Hsp 0%nat) by lia. reflexivity.
Qed.

(** [test_horizontal_geodesic_vec] passes once the data generator is
    set: the horizontal geodesic acts on a batch element by element. *)
Lemma test_horizontal_geodesic_vec_passes (self : TestCase) (dg : DataGenerator)
    (n_reps n_times : nat) (atol : R) (st : rng R) :
  data_generator self = Some dg -> 0 <= atol ->
  fst (test_horizontal_geodesic_vec self n_reps n_times atol st) = Passed.
Proof.
  intros Hdg Ha. unfold test_horizontal_geodesic_vec. rewrite Hdg.
  destruct (dg_random_point_single dg st) as [p st1].
  destruct (dg_random_point_single dg st1) as [q st2]. cbn [fst].
  exact (test_vectorization_elementwise _ [(p, q)] n_reps atol Ha).
Qed.
End Laws.

End SRVShapeBundleTestCase.

(** ** The properties at concrete inputs

    The plane bundle [Plane_bundle] of [FiberBundle], the halving
    projector of [ClosedCurves], and the generator whose [i]-th draw is
    [i]. *)
Section Witnesses.
Definition counting_rng : rng R := mk_rng INR 0.
Definition fresh_test_case : SRVShapeBundleTestCase.TestCase :=
  SRVShapeBundleTestCase.mk_test_case None None.
Definition set_up_test_case : SRVShapeBundleTestCase.TestCase :=
  SRVShapeBundleTestCase.mk_test_case (Some (ShapeBundleRandomDataGenerator 5)) None.
Definition sphere_curves : ClosedDiscreteCurves := mk_closed_discrete_curves (Hypersphere 2) 10.

Lemma horizontal_derivative_many_points_raises_witness :
  (1 < 2)%nat /\ SRVShapeBundleTestCase.test_horizontal_geodesic_has_horizontal_derivative
    fresh_test_case 2 20 0 counting_rng
    = (Raised (NotImplementedError "Not implemented for n_points > 1"), counting_rng).
Proof. split; [lia | apply SRVShapeBundleTestCase.horizontal_derivative_many_points_raises; lia]. Defined.

Lemma horizontal_derivative_residual_shape_witness :
  SRVShapeBundleTestCase.data_generator set_up_test_case = Some (ShapeBundleRandomDataGenerator 5)
  /\ exists p q st', length p = fb_dim /\ length q = fb_dim
    /\ SRVShapeBundleTestCase.test_horizontal_geodesic_has_horizontal_derivative
         set_up_test_case 1 7 0 counting_rng
       = (assertAllClose (SRVShapeBundleTestCase.finite_difference_residuals (INR 20)
            (map (ShapeBundle.horizontal_geodesic p q fb_threshold) (linspace 0 1 20)))
            (repeat 0 19) 0, st')
    /\ length (SRVShapeBundleTestCase.finite_difference_residuals (INR 20)
            (map (ShapeBundle.horizontal_geodesic p q fb_threshold) (linspace 0 1 20))) = 19%nat.
Proof.
  split; [reflexivity|].
  apply (SRVShapeBundleTestCase.horizontal_derivative_residual_shape set_up_test_case
           (ShapeBundleRandomDataGenerator 5)). reflexivity.
Defined.

Lemma guarded_tests_pass_off_plane_witness :
  ClosedDiscreteCurvesTestCase._is_planar sphere_curves = false
  /\ ClosedDiscreteCurvesTestCase.test_projection_vec sphere_curves (fun _ _ => Failed) 2 0 = Passed
  /\ ClosedDiscreteCurvesTestCase.test_projection_belongs sphere_curves (fun _ _ st => (Failed, st))
       2 0 counting_rng = (Passed, counting_rng)
  /\ ClosedDiscreteCurvesTestCase.test_srv_projection_vec sphere_curves 2 0 1000 counting_rng
     = (Passed, counting_rng)
  /\ ClosedDiscreteCurvesTestCase.test_projection_is_itself sphere_curves
       (fun n st => ([], st)) (fun c => c) 2 0 counting_rng = (Passed, counting_rng).
Proof.
  split; [reflexivity|].
  apply (ClosedDiscreteCurvesTestCase.guarded_tests_pass_off_plane sphere_curves). reflexivity.
Defined.
Lemma test_srv_projection_vec_passes_witness :
  0 <= / 10 /\ fst (ClosedDiscreteCurvesTestCase.test_srv_projection_vec
                       (mk_closed_discrete_curves (Euclidean 2) 4) 3 (/ 10) 1000 counting_rng) = Passed.
Proof. split; [lra | apply ClosedDiscreteCurvesTestCase.test_srv_projection_vec_passes; lra]. Defined.
Lemma horizontal_derivative_velocity_factor_witness :
  SRVShapeBundleTestCase.data_generator set_up_test_case = Some (ShapeBundleRandomDataGenerator 5)
  /\ exists p q st',
    SRVShapeBundleTestCase.test_horizontal_geodesic_has_horizontal_derivative
      set_up_test_case 1 7 0 counting_rng
    = (assertAllClose (map (Rmult (20 / 19))
         (SRVShapeBundleTestCase.finite_difference_residuals
            (/ (nth 1 (linspace 0 1 20) 0 - nth 0 (linspace 0 1 20) 0))
            (map (ShapeBundle.horizontal_geodesic p q fb_threshold) (linspace 0 1 20))))
         (repeat 0 19) 0, st')
    /\ forall i, (i < 19)%nat ->
         nth (S i) (linspace 0 1 20) 0 - nth i (linspace 0 1 20) 0
         = nth 1 (linspace 0 1 20) 0 - nth 0 (linspace 0 1 20) 0.
Proof.
  split; [reflexivity|].
  apply (SRVShapeBundleTestCase.horizontal_derivative_velocity_factor set_up_test_case
           (ShapeBundleRandomDataGenerator 5)). reflexivity.
Defined.

End Witnesses.
