(* ===== verification/DiscreteCurvesTestModule.v ===== *)
(** * The discrete-curves test module: fixtures and test classes

    [src/tests/tests_geomstats/test_geometry/test_discrete_curves.py]
    binds the test cases of [DiscreteCurvesTests] to concrete spaces.
    Each fixture is parametrised by a list of [(dim, k_sampling_points)]
    pairs whose [k_sampling_points] is drawn by [random.randint(5, 10)]
    when the module is imported; [import_test_module] draws them in the
    order of the source, from an explicit generator state.  A fixture
    maps a parameter to the class attributes it sets ([space], [bundle],
    [sphere], ...); a class bound to a fixture by [usefixtures] runs on
    the spaces the fixture builds from its parameters ([Test..._spaces]),
    and pytest runs every test of a class once per parameter, after
    [setup_method], unless the class is marked skip ([pytest_run]).

    The theorems show what the module feeds the test cases: the bounds
    of the drawn parameters, that one of the two closed-curve spaces is
    not the plane (so the tests guarded by [_is_planar] test nothing on
    it), and the spaces each class runs on, the shape-bundle tests
    getting the unit sphere of the ambient space of their curves. *)

From Stdlib Require Import String Arith Lia Bool List Reals Lra.
From S2P Require Import Prelude Manifold FiberBundle ClosedCurves DiscreteCurvesTests.
Import ListNotations.

(** ** Module-level random parameters *)

(** [random.randint(a, b)]: an integer of [[a, b]] from the next draw. *)
Definition randint (a b : nat) (st : rng nat) : nat * rng nat :=
  let '(xs, st') := rand 1 st in (a + hd 0 xs mod S (b - a), st').

Lemma randint_range (a b : nat) (st : rng nat) :
  a <= b -> a <= fst (randint a b st) <= b.
Proof.
  intros Hab. unfold randint. destruct (rand 1 st) as [xs st']. cbn [fst].
  pose proof (Nat.mod_upper_bound (hd 0 xs) (S (b - a)) ltac:(lia)). lia.
Qed.

(** [params=[(2, random.randint(5, 10)), (3, random.randint(5, 10))]]. *)
Definition params_2_3 (st : rng nat) : list (nat * nat) * rng nat :=
  let '(k2, st1) := randint 5 10 st in
  let '(k3, st2) := randint 5 10 st1 in
  ([(2, k2); (3, k3)], st2).

(** [params=[(2, random.randint(5, 10))]]. *)
Definition params_2 (st : rng nat) : list (nat * nat) * rng nat :=
  let '(k2, st1) := randint 5 10 st in ([(2, k2)], st1).

Record ModuleParams : Type := mk_module_params {
  discrete_curves_params : list (nat * nat);
  closed_discrete_curves_params : list (nat * nat);
  l2_discrete_curves_params : list (nat * nat);
  elastic_metric_params : list (nat * nat);
  srv_discrete_curves_params : list (nat * nat);
  shape_bundles_params : list (nat * nat);
  spaces_with_quotient_params : list (nat * nat)
}.

(** The decorators of the seven fixtures, each drawing its parameters
    when the module is imported. *)
Definition discrete_curves_spaces_fixture_params (st : rng nat) := params_2_3 st.
Definition closed_discrete_curves_spaces_fixture_params (st : rng nat) := params_2_3 st.
Definition l2_discrete_curves_spaces_fixture_params (st : rng nat) := params_2_3 st.
Definition elastic_metric_discrete_curves_spaces_fixture_params (st : rng nat) := params_2 st.
Definition srv_discrete_curves_spaces_fixture_params (st : rng nat) := params_2_3 st.
Definition shape_bundles_fixture_params (st : rng nat) := params_2_3 st.
Definition spaces_with_quotient_fixture_params (st : rng nat) := params_2_3 st.

(** Importing the module evaluates the seven fixture decorators in order. *)
Definition import_test_module (st : rng nat) : ModuleParams * rng nat :=
  let '(p1, st1) := discrete_curves_spaces_fixture_params st in
  let '(p2, st2) := closed_discrete_curves_spaces_fixture_params st1 in
  let '(p3, st3) := l2_discrete_curves_spaces_fixture_params st2 in
  let '(p4, st4) := elastic_metric_discrete_curves_spaces_fixture_params st3 in
  let '(p5, st5) := srv_discrete_curves_spaces_fixture_params st4 in
  let '(p6, st6) := shape_bundles_fixture_params st5 in
  let '(p7, st7) := spaces_with_quotient_fixture_params st6 in
  (mk_module_params p1 p2 p3 p4 p5 p6 p7, st7).

Ltac unfold_import_test_module :=
  unfold import_test_module, discrete_curves_spaces_fixture_params,
    closed_discrete_curves_spaces_fixture_params, l2_discrete_curves_spaces_fixture_params,
    elastic_metric_discrete_curves_spaces_fixture_params, srv_discrete_curves_spaces_fixture_params,
    shape_bundles_fixture_params, spaces_with_quotient_fixture_params.

(** ** Spaces the fixtures build (not in the repository) *)

Inductive CurvesMetric : Type :=
| DefaultCurvesMetric
| L2CurvesMetric
| ElasticMetric (a b : R)
| SRVMetric.

(** [DiscreteCurves(ambient_manifold, k_sampling_points, start_at_the_origin, equip)]
    with the metric it is equipped with; [None] for an argument left at
    its default. *)
Record DiscreteCurves : Type := mk_discrete_curves {
  dc_ambient_manifold : AmbientManifold;
  dc_k_sampling_points : nat;
  dc_start_at_the_origin : option bool;
  dc_metric : option CurvesMetric
}.

(** ** Fixtures: a parameter to the class attributes *)


Definition closed_discrete_curves_spaces (param : nat * nat) : ClosedDiscreteCurves :=
  let '(dim, k_sampling_points) := param in
  mk_closed_discrete_curves (Euclidean dim) k_sampling_points.







(** [spaces_with_quotient]: the quotient of the equipped space by the
    reparametrisations, and [sphere]. *)
Record QuotientAttrs : Type := mk_quotient_attrs {
  quotient_of : DiscreteCurves;
  group_action : string;
  quotient_sphere : AmbientManifold
}.

Definition spaces_with_quotient (param : nat * nat) : QuotientAttrs :=
  let '(dim, k_sampling_points) := param in
  let space := mk_discrete_curves (Euclidean dim) k_sampling_points None (Some DefaultCurvesMetric) in
  mk_quotient_attrs space "reparametrizations" (Hypersphere (dim - 1)).

(** ** Test classes *)

(** pytest's run of one test of a class on one instance: skipped under
    [@pytest.mark.skip], otherwise [setup_method] then the test. *)
Definition pytest_run {S : Type} (skip : bool) (setup_method : S -> S) (self : S)
    (test : S -> outcome) : outcome :=
  if skip then Skipped else test (setup_method self).

(** [TestDiscreteCurves.setup_method]: a [DiscreteCurvesRandomDataGenerator]
    of the space, unless there is one. *)
Definition TestDiscreteCurves_setup_method (space : DiscreteCurves)
    (data_generator : option DiscreteCurves) : option DiscreteCurves :=
  match data_generator with
  | Some dg => Some dg
  | None => Some space
  end.

(** [TestSRVQuotientMetric.setup_method], on the attributes it reads. *)
Definition TestSRVQuotientMetric_setup_method (self : SRVShapeBundleTestCase.TestCase)
    : SRVShapeBundleTestCase.TestCase :=
  match SRVShapeBundleTestCase.data_generator self with
  | Some _ => self
  | None =>
      let n_discretized_curves :=
        match SRVShapeBundleTestCase.n_discretized_curves_attr self with
        | Some n => n | None => 5%nat end in
      SRVShapeBundleTestCase.mk_test_case (Some (ShapeBundleRandomDataGenerator n_discretized_curves))
        (SRVShapeBundleTestCase.n_discretized_curves_attr self)
  end.

(** The skip marks of the classes. *)
Definition TestSRVShapeBundle_skip : bool := false.
Definition TestSRVQuotientMetric_skip : bool := true.

(** A fresh instance of [TestSRVShapeBundle]: the class sets neither
    [data_generator] nor [n_discretized_curves]. *)
Definition TestSRVShapeBundle_instance : SRVShapeBundleTestCase.TestCase :=
  SRVShapeBundleTestCase.mk_test_case None None.


Definition TestClosedDiscreteCurves_spaces (params : ModuleParams) : list ClosedDiscreteCurves :=
  map closed_discrete_curves_spaces (closed_discrete_curves_params params).






(** ** What the module feeds the test cases *)

(** The dimensions of a fixture's parameters and the range of their
    drawn [k_sampling_points]. *)
Definition params_within (dims : list nat) (params : list (nat * nat)) : Prop :=
  map fst params = dims /\ Forall (fun p => 5 <= snd p <= 10) params.

Lemma params_2_3_within (st : rng nat) : params_within [2; 3] (fst (params_2_3 st)).
Proof.
  unfold params_2_3. pose proof (randint_range 5 10 st ltac:(lia)) as H2.
  destruct (randint 5 10 st) as [k2 st1]. pose proof (randint_range 5 10 st1 ltac:(lia)) as H3.
  destruct (randint 5 10 st1) as [k3 st2]. cbn in *.
  split; [reflexivity | constructor; [cbn; lia | constructor; [cbn; lia | constructor]]].
Qed.

Lemma params_2_within (st : rng nat) : params_within [2] (fst (params_2 st)).
Proof.
  unfold params_2. pose proof (randint_range 5 10 st ltac:(lia)) as H2.
  destruct (randint 5 10 st) as [k2 st1]. cbn in *.
  split; [reflexivity | constructor; [cbn; lia | constructor]].
Qed.

Lemma import_params_within (st : rng nat) :
  params_within [2; 3] (discrete_curves_params (fst (import_test_module st)))
  /\ params_within [2; 3] (closed_discrete_curves_params (fst (import_test_module st)))
  /\ params_within [2; 3] (l2_discrete_curves_params (fst (import_test_module st)))
  /\ params_within [2] (elastic_metric_params (fst (import_test_module st)))
  /\ params_within [2; 3] (srv_discrete_curves_params (fst (import_test_module st)))
  /\ params_within [2; 3] (shape_bundles_params (fst (import_test_module st)))
  /\ params_within [2; 3] (spaces_with_quotient_params (fst (import_test_module st))).
Proof.
  unfold_import_test_module.
  pose proof (params_2_3_within st) as H1. destruct (params_2_3 st) as [p1 st1].
  pose proof (params_2_3_within st1) as H2. destruct (params_2_3 st1) as [p2 st2].
  pose proof (params_2_3_within st2) as H3. destruct (params_2_3 st2) as [p3 st3].
  pose proof (params_2_within st3) as H4. destruct (params_2 st3) as [p4 st4].
  pose proof (params_2_3_within st4) as H5. destruct (params_2_3 st4) as [p5 st5].
  pose proof (params_2_3_within st5) as H6. destruct (params_2_3 st5) as [p6 st6].
  pose proof (params_2_3_within st6) as H7. destruct (params_2_3 st6) as [p7 st7].
  cbn in *. tauto.
Qed.

(** C33. Whatever the state of the generator at import, every fixture of
    the module is parametrised by the dimensions [2] and [3] ([2] alone
    for the elastic metric), each with a number of sampling points
    between 5 and 10. *)
Theorem module_params_within (st : rng nat) :
  params_within [2; 3] (discrete_curves_params (fst (import_test_module st)))
  /\ params_within [2; 3] (closed_discrete_curves_params (fst (import_test_module st)))
  /\ params_within [2; 3] (l2_discrete_curves_params (fst (import_test_module st)))
  /\ params_within [2] (elastic_metric_params (fst (import_test_module st)))
  /\ params_within [2; 3] (srv_discrete_curves_params (fst (import_test_module st)))
  /\ params_within [2; 3] (shape_bundles_params (fst (import_test_module st)))
  /\ params_within [2; 3] (spaces_with_quotient_params (fst (import_test_module st))).
Proof. exact (import_params_within st). Qed.

Lemma params_within_2_3_inv (params : list (nat * nat)) :
  params_within [2; 3] params ->
  exists k2 k3, params = [(2%nat, k2); (3%nat, k3)] /\ 5 <= k2 <= 10 /\ 5 <= k3 <= 10.
Proof.
  intros [Hd Hk]. destruct params as [|[d2 k2] [|[d3 k3] [|]]]; cbn in Hd; try discriminate.
  injection Hd as -> ->. inversion_clear Hk as [|? ? H2 Hk']. inversion_clear Hk' as [|? ? H3 _].
  now exists k2, k3.
Qed.


Lemma closed_params_shape (st : rng nat) :
  exists k2 k3, closed_discrete_curves_params (fst (import_test_module st)) = [(2%nat, k2); (3%nat, k3)].
Proof.
  destruct (import_params_within st) as (_ & H & _).
  destruct (params_within_2_3_inv _ H) as (k2 & k3 & -> & _). now exists k2, k3.
Qed.

(** C14. [TestClosedDiscreteCurves] runs on two spaces: the plane curves
    and the curves of the 3-space.  On the second, the four tests
    guarded by [_is_planar] pass whatever their arguments, the projector
    and the [LevelSetTestCase] tests they should delegate to: half of
    their parametrised runs test nothing. *)
Theorem closed_fixture_guarded_tests (st : rng nat) :
  exists k2 k3,
    TestClosedDiscreteCurves_spaces (fst (import_test_module st))
    = [mk_closed_discrete_curves (Euclidean 2) k2; mk_closed_discrete_curves (Euclidean 3) k3]
    /\ ClosedDiscreteCurvesTestCase._is_planar (mk_closed_discrete_curves (Euclidean 2) k2) = true
    /\ ClosedDiscreteCurvesTestCase._is_planar (mk_closed_discrete_curves (Euclidean 3) k3) = false
    /\ forall (P : ClosedCurveProjector) lvec lbel rp proj n atol max_iter (st' : rng R),
         let space := mk_closed_discrete_curves (Euclidean 3) k3 in
         ClosedDiscreteCurvesTestCase.test_projection_vec space lvec n atol = Passed
         /\ ClosedDiscreteCurvesTestCase.test_projection_belongs space lbel n atol st' = (Passed, st')
         /\ @ClosedDiscreteCurvesTestCase.test_srv_projection_vec P space n atol max_iter st'
            = (Passed, st')
         /\ ClosedDiscreteCurvesTestCase.test_projection_is_itself space rp proj n atol st'
            = (Passed, st').
Proof.
  unfold TestClosedDiscreteCurves_spaces.
  destruct (closed_params_shape st) as (k2 & k3 & ->). exists k2, k3.
  split; [reflexivity | split; [reflexivity | split; [reflexivity |]]].
  intros P lvec lbel rp proj n atol max_iter st'.
  exact (@ClosedDiscreteCurvesTestCase.guarded_tests_pass_off_plane P
           (mk_closed_discrete_curves (Euclidean 3) k3) lvec lbel rp proj n atol max_iter st' eq_refl).
Qed.


(** ** The properties at concrete inputs *)

